(** * dbdemos_tracker_updater: a shallow embedding of the repository patcher

    The development follows [src/dbdemos_tracker_updater.py].  Python [str]
    values are lists of characters, the file system is a tree of directories
    and text files, and the methods of [DBDemosTrackerUpdater] are
    computations in a state-and-exception monad over a [world] made of the
    file system, the log of the instance's logger, the record of the method
    calls that were made, and the state of the collaborators that live
    outside the source (git, the hosting API, the temporary directory).

    Modelling conventions:
    - a character is an [ascii], read as the code point of the same number
      (U+0000 to U+00FF); [is_space] is [str.isspace] on that range, which is
      also what [\s] matches in a [str] pattern;
    - a file holds its text as [f.read()] returns it (decoded, newlines
      normalised); a file that cannot be decoded holds no text;
    - a path is the list of its components below the temporary directory;
      [path_str] renders it for log messages;
    - an exception is an instance of [Exception], what [except Exception]
      catches: a class name and the message [str(e)];
    - the libraries outside the source ([git], [github], [urllib]) are a
      record of operations, [collaborators], over which the orchestration
      is parameterised.

    The first part holds the definitions, in the order of the source; the
    second part holds the properties, and ends with their instances on
    concrete repositories. *)

From Stdlib Require Import List Ascii String Bool Arith Lia NArith.
From Stdlib Require DecimalString.
Import ListNotations.

Set Warnings "-register-all".

(** ** Python strings *)

Definition str := list ascii.

Definition py (s : string) : str := list_ascii_of_string s.

Definition str_eqb (a b : str) : bool :=
  if list_eq_dec ascii_dec a b then true else false.

Arguments str_eqb : simpl never.
Arguments Ascii.eqb : simpl never.

Definition nl : ascii := "010"%char.

(** [str.isspace] for one code point below 256. *)
Definition is_space (c : ascii) : bool :=
  let n := nat_of_ascii c in
  ((9 <=? n) && (n <=? 13)) || ((28 <=? n) && (n <=? 32))
  || (n =? 133) || (n =? 160).

(** [s.startswith(p)] *)
Fixpoint startswith (p s : str) : bool :=
  match p, s with
  | [], _ => true
  | _ :: _, [] => false
  | a :: p', b :: s' => if Ascii.eqb a b then startswith p' s' else false
  end.

(** [s.endswith(p)] *)
Definition endswith (p s : str) : bool := startswith (rev p) (rev s).

(** [needle in hay] *)
Fixpoint contains (needle hay : str) : bool :=
  startswith needle hay ||
  match hay with
  | [] => false
  | _ :: hay' => contains needle hay'
  end.

(** [s.lstrip()], [s.rstrip()], [s.strip()] *)
Fixpoint lstrip (s : str) : str :=
  match s with
  | c :: s' => if is_space c then lstrip s' else s
  | [] => []
  end.

Definition rstrip (s : str) : str := rev (lstrip (rev s)).

Definition strip (s : str) : str := rstrip (lstrip s).

(** [s.split('\n')]: never empty; the last piece is what follows the last
    newline. *)
Fixpoint split_nl (s : str) : list str :=
  match s with
  | [] => [[]]
  | c :: s' =>
      if Ascii.eqb c nl then [] :: split_nl s'
      else match split_nl s' with
           | l :: ls => (c :: l) :: ls
           | [] => [[c]]
           end
  end.

(** ['\n'.join(lines)] *)
Fixpoint join_nl (ls : list str) : str :=
  match ls with
  | [] => []
  | [l] => l
  | l :: ls' => l ++ nl :: join_nl ls'
  end.

(** [lines.insert(i, x)] for [i >= 0]: past the end it appends. *)
Definition insert_at {A} (i : nat) (x : A) (l : list A) : list A :=
  firstn i l ++ x :: skipn i l.

(** [' ' * n] *)
Definition spaces (n : nat) : str := repeat " "%char n.

(** [s.replace(old, new)] for a non-empty [old]: the occurrences are taken
    from the left and do not overlap.  [skip] counts the characters of an
    occurrence still to be dropped. *)
Fixpoint replace_from (old new : str) (skip : nat) (s : str) : str :=
  match s with
  | [] => []
  | c :: s' =>
      match skip with
      | S k => replace_from old new k s'
      | O =>
          if startswith old s
          then new ++ replace_from old new (List.length old - 1) s'
          else c :: replace_from old new 0 s'
      end
  end.

Definition replace (old new s : str) : str := replace_from old new 0 s.

(** ** The fixed literals of the source *)

Definition DEP_NAME : str := py "dbdemos-tracker".
Definition DEP_LINE : str := DEP_NAME ++ [nl].
Definition POETRY_HEADER : str := py "[tool.poetry.dependencies]".
Definition PIPFILE_HEADER : str := py "[packages]".
Definition dquote : ascii := "034"%char.
Definition PINNED_ENTRY : str :=
  py "dbdemos-tracker = " ++ dquote :: py "*" ++ [dquote].
Definition IMPORT_STMT : str := py "import dbdemos_tracker".
Definition FROM_STMT : str := py "from dbdemos_tracker".
Definition INIT_CALL : str := py "dbdemos_tracker.initialize()".
Definition GUARD_CALL : str := py "    dbdemos_tracker.initialize()".
Definition MARKER_COMMENT : str := py "# Initialize dbdemos tracker".
Definition DUNDER_NAME : str := py "__name__".
Definition DUNDER_MAIN : str := py "__main__".
Definition MODULE_NAME : str := py "dbdemos_tracker".
Definition INSTALL_REQUIRES : str := py "install_requires".
Definition DOT_PY : str := py ".py".
Definition DOT_GIT : str := py ".git".
Definition slash : ascii := "/"%char.

(** ** The regular expressions of the source

    Each pattern continues, after a run of [\s], with a character that is
    not a space, so the greedy run is the whole run of leading spaces:
    [lstrip] of the rest. *)

(** [kw\s+dbdemos_tracker] matched at the start of [s]. *)
Definition kw_module_at (kw s : str) : bool :=
  startswith kw s &&
  match skipn (List.length kw) s with
  | c :: r => is_space c && startswith MODULE_NAME (lstrip r)
  | [] => false
  end.

(** [re.search(r'from\s+dbdemos_tracker|import\s+dbdemos_tracker', s)],
    as a truth value. *)
Fixpoint search_tracker_import (s : str) : bool :=
  kw_module_at (py "from") s || kw_module_at (py "import") s ||
  match s with
  | [] => false
  | _ :: s' => search_tracker_import s'
  end.

(** [re.match(r'def\s+main\s*\(', s)], as a truth value. *)
Definition match_def_main (s : str) : bool :=
  startswith (py "def") s &&
  match skipn 3 s with
  | c :: r =>
      is_space c &&
      let r1 := lstrip r in
      startswith (py "main") r1 && startswith (py "(") (lstrip (skipn 4 r1))
  | [] => false
  end.

(** The leading run of spaces of [s]. *)
Fixpoint leading_space (s : str) : str :=
  match s with
  | c :: s' => if is_space c then c :: leading_space s' else []
  | [] => []
  end.

(** The characters of [s] before its first [c], when there is one:
    a lazy [.*?] (DOTALL) followed by the literal [c]. *)
Fixpoint until_char (c : ascii) (s : str) : option str :=
  match s with
  | [] => None
  | d :: s' =>
      if Ascii.eqb d c then Some []
      else option_map (cons d) (until_char c s')
  end.

(** [(install_requires\s*=\s*\[)(.*?)(\])] matched at the start of [s]:
    the three groups. *)
Definition install_requires_at (s : str) : option (str * str * str) :=
  if startswith INSTALL_REQUIRES s then
    let r0 := skipn (List.length INSTALL_REQUIRES) s in
    let r1 := skipn 1 (lstrip r0) in
    let r2 := skipn 1 (lstrip r1) in
    if startswith (py "=") (lstrip r0) && startswith (py "[") (lstrip r1) then
      match until_char "]"%char r2 with
      | Some deps =>
          Some (INSTALL_REQUIRES ++ leading_space r0
                  ++ py "=" ++ leading_space r1 ++ py "[",
                deps, py "]")
      | None => None
      end
    else None
  else None.

(** [re.search(install_requires_pattern, content, re.DOTALL)]: the groups
    of the leftmost match. *)
Fixpoint search_install_requires (s : str) : option (str * str * str) :=
  match install_requires_at s with
  | Some g => Some g
  | None =>
      match s with
      | [] => None
      | _ :: s' => search_install_requires s'
      end
  end.

(** ** Paths *)

Definition path := list str.

(** [os.path.join(dir, name)] *)
Definition path_join (dir : path) (name : str) : path := dir ++ [name].

Fixpoint path_str (p : path) : str :=
  match p with
  | [] => []
  | [c] => c
  | c :: p' => c ++ slash :: path_str p'
  end.

(** What follows the last [/]: [os.path.basename(s)] and
    [s.split('/')[-1]]. *)
Fixpoint after_last_slash (s : str) : str :=
  match s with
  | [] => []
  | c :: s' =>
      if contains [slash] s then after_last_slash s' else s
  end.

(** [s.strip('/')] *)
Fixpoint lstrip_slash (s : str) : str :=
  match s with
  | c :: s' => if Ascii.eqb c slash then lstrip_slash s' else s
  | [] => []
  end.

Definition strip_slash (s : str) : str :=
  rev (lstrip_slash (rev (lstrip_slash s))).

(** [s.split('/')] *)
Fixpoint split_slash (s : str) : list str :=
  match s with
  | [] => [[]]
  | c :: s' =>
      if Ascii.eqb c slash then [] :: split_slash s'
      else match split_slash s' with
           | l :: ls => (c :: l) :: ls
           | [] => [[c]]
           end
  end.

(** ** The file system

    A directory is the list of its entries in the order in which
    [os.listdir] and [os.walk] give them: the order decides which root file
    [add_initialization] patches.  A file holds its text, or none when it
    cannot be decoded, its size in bytes as [os.path.getsize] gives it, and
    whether it may be written.  Every entry is a file or a directory:
    symbolic links are not modelled, so a name that [os.listdir] gives
    always exists for [os.path.exists]; a property that needs this of the
    clone says so in a hypothesis on the entries. *)

Inductive node : Type :=
| File (text : option str) (size : N) (writable : bool)
| Dir (entries : list (str * node)).

Definition is_dir (n : node) : bool :=
  match n with Dir _ => true | File _ _ _ => false end.

(** The size in bytes of the UTF-8 encoding of a text. *)
Definition utf8_len (t : str) : N :=
  fold_right
    (fun c n => ((if (nat_of_ascii c <? 128)%nat then 1 else 2) + n)%N)
    0%N t.

Fixpoint assoc (name : str) (es : list (str * node)) : option node :=
  match es with
  | [] => None
  | (k, v) :: es' => if str_eqb k name then Some v else assoc name es'
  end.

Fixpoint set_entry (name : str) (v : node) (es : list (str * node))
  : list (str * node) :=
  match es with
  | [] => [(name, v)]
  | (k, u) :: es' =>
      if str_eqb k name then (k, v) :: es' else (k, u) :: set_entry name v es'
  end.

Fixpoint lookup (p : path) (n : node) : option node :=
  match p with
  | [] => Some n
  | name :: p' =>
      match n with
      | Dir es =>
          match assoc name es with
          | Some c => lookup p' c
          | None => None
          end
      | File _ _ _ => None
      end
  end.

(** ** Exceptions and results *)

Inductive exn : Type := Exception (cls : string) (msg : str).

(** [str(e)] *)
Definition exn_str (e : exn) : str := match e with Exception _ m => m end.

Inductive result (A : Type) : Type :=
| Ok (a : A)
| Raise (e : exn).
Arguments Ok {A} a.
Arguments Raise {A} e.

(** Replaces the node at [p] by what [upd] makes of it; [upd None] is asked
    for a new entry when only the last component is missing. *)
Fixpoint update (p : path) (upd : option node -> result node) (n : node)
  : result node :=
  match p with
  | [] => upd (Some n)
  | name :: p' =>
      match n with
      | File _ _ _ => Raise (Exception "NotADirectoryError" (path_str p))
      | Dir es =>
          match assoc name es with
          | Some c =>
              match update p' upd c with
              | Ok c' => Ok (Dir (set_entry name c' es))
              | Raise e => Raise e
              end
          | None =>
              match p' with
              | [] =>
                  match upd None with
                  | Ok c' => Ok (Dir (set_entry name c' es))
                  | Raise e => Raise e
                  end
              | _ => Raise (Exception "FileNotFoundError" (path_str p))
              end
          end
      end
  end.

(** [os.walk(top)] below a directory node, with the pruning
    [dirs[:] = [d for d in dirs if keep d]] both callers apply: the triples
    [(root, dirs, files)] in top-down order. *)
Fixpoint os_walk (keep : str -> bool) (root : path) (n : node) {struct n}
  : list (path * list str * list str) :=
  match n with
  | File _ _ _ => []
  | Dir es =>
      (root,
       filter keep (map fst (filter (fun e => is_dir (snd e)) es)),
       map fst (filter (fun e => negb (is_dir (snd e))) es))
      :: flat_map
           (fun e =>
              if is_dir (snd e) && keep (fst e)
              then os_walk keep (path_join root (fst e)) (snd e)
              else [])
           es
  end.

(** ** The world and the monad of the methods *)

Inductive level : Type := INFO | WARNING | ERROR.

(** The method calls the orchestration makes, recorded by the caller. *)
Inductive call : Type :=
| CloneRepository (repo_url : str)
| CheckTrackerExists (repo_path : path)
| CreateFeatureBranch (branch_name : str)
| AddTrackerToRepo (repo_path : path)
| AddDependency (repo_path : path)
| AddInitialization (repo_path : path)
| CommitChanges
| PushBranch (branch_name : str)
| CreatePullRequest (repo_url branch_name : str).

Record world (E : Type) : Type := World {
  fs : node;                    (* the content of the temporary directory *)
  log : list (level * str);     (* the records of [self.logger], oldest first *)
  calls : list call;            (* oldest first *)
  ext : E                       (* remotes, hosting service, git metadata *)
}.
Arguments World {E}.
Arguments fs {E}.
Arguments log {E}.
Arguments calls {E}.
Arguments ext {E}.

(** An operation of a library outside the source: it may read and change
    the working tree and the outside state, and it may raise. *)
Definition ext_op (E A : Type) : Type := node -> E -> result A * node * E.

(** What the source takes from [git], [github] and [urllib]. *)
Record collaborators (E : Type) : Type := {
  clone_from : str -> path -> ext_op E unit;  (* git.Repo.clone_from(url, to) *)
  open_repo : path -> ext_op E unit;          (* git.Repo(repo_path) *)
  repo_refs : ext_op E (list str);            (* ref.name for ref in repo.refs *)
  git_checkout : list str -> ext_op E unit;   (* repo.git.checkout(...) *)
  git_add : str -> ext_op E unit;             (* repo.git.add(...) *)
  is_dirty : ext_op E bool;                   (* repo.is_dirty() *)
  untracked_files : ext_op E (list str);      (* repo.untracked_files *)
  index_commit : str -> ext_op E unit;        (* repo.index.commit(message) *)
  remote : str -> ext_op E unit;              (* repo.remote(name) *)
  push : str -> ext_op E unit;                (* origin.push(refspec=...) *)
  urlparse_path : str -> str;                 (* urlparse(url).path *)
  get_repo : str -> ext_op E unit;            (* github_client.get_repo(name) *)
  default_branch : ext_op E str;              (* github_repo.default_branch *)
  create_pull : str -> str -> str -> str -> ext_op E str;
                               (* create_pull(title, body, head, base).html_url *)
  pr_body : str                (* the fixed body template of the pull request *)
}.
Arguments clone_from {E}.
Arguments open_repo {E}.
Arguments repo_refs {E}.
Arguments git_checkout {E}.
Arguments git_add {E}.
Arguments is_dirty {E}.
Arguments untracked_files {E}.
Arguments index_commit {E}.
Arguments remote {E}.
Arguments push {E}.
Arguments urlparse_path {E}.
Arguments get_repo {E}.
Arguments default_branch {E}.
Arguments create_pull {E}.
Arguments pr_body {E}.

Section Updater.

Context {E : Type}.

Definition M (A : Type) : Type := world E -> result A * world E.

Definition ret {A} (a : A) : M A := fun w => (Ok a, w).

Definition bind {A B} (m : M A) (k : A -> M B) : M B :=
  fun w =>
    match m w with
    | (Ok a, w') => k a w'
    | (Raise e, w') => (Raise e, w')
    end.

Definition raise {A} (e : exn) : M A := fun w => (Raise e, w).

(** [try: body except Exception as e: handler e] *)
Definition try_except {A} (body : M A) (handler : exn -> M A) : M A :=
  fun w =>
    match body w with
    | (Ok a, w') => (Ok a, w')
    | (Raise e, w') => handler e w'
    end.

(** [try: body finally: cleanup] where [cleanup] does not raise. *)
Definition try_finally {A} (body : M A) (cleanup : world E -> world E) : M A :=
  fun w => let (r, w') := body w in (r, cleanup w').

Notation "x <- m ;; k" := (bind m (fun x => k))
  (at level 61, m at next level, right associativity).
Notation "m ;; k" := (bind m (fun _ => k))
  (at level 61, right associativity).

Definition set_fs (n : node) (w : world E) : world E :=
  World n (log w) (calls w) (ext w).

(** The world after one more log record, after one more recorded call. *)
Definition logged (lvl : level) (msg : str) (w : world E) : world E :=
  World (fs w) (log w ++ [(lvl, msg)]) (calls w) (ext w).

Definition recorded (c : call) (w : world E) : world E :=
  World (fs w) (log w) (calls w ++ [c]) (ext w).

(** [self.logger.info(msg)], [.warning(msg)], [.error(msg)] *)
Definition logger (lvl : level) (msg : str) : M unit :=
  fun w => (Ok tt, logged lvl msg w).

Definition record (c : call) : M unit :=
  fun w => (Ok tt, recorded c w).

Definition external {A} (op : ext_op E A) : M A :=
  fun w =>
    match op (fs w) (ext w) with
    | (r, n, e) => (r, World n (log w) (calls w) e)
    end.

(** *** File operations *)

(** [os.path.exists(p)] *)
Definition path_exists (p : path) : M bool :=
  fun w => (Ok (match lookup p (fs w) with Some _ => true | None => false end), w).

(** [with open(p, 'r', encoding='utf-8') as f: f.read()] *)
Definition read_text (p : path) : M str :=
  fun w =>
    match lookup p (fs w) with
    | Some (File (Some t) _ _) => (Ok t, w)
    | Some (File None _ _) =>
        (Raise (Exception "UnicodeDecodeError" (path_str p)), w)
    | Some (Dir _) => (Raise (Exception "IsADirectoryError" (path_str p)), w)
    | None => (Raise (Exception "FileNotFoundError" (path_str p)), w)
    end.

Definition overwrite (p : path) (t : str) (o : option node) : result node :=
  match o with
  | None => Ok (File (Some t) (utf8_len t) true)
  | Some (File _ _ true) => Ok (File (Some t) (utf8_len t) true)
  | Some (File _ _ false) => Raise (Exception "PermissionError" (path_str p))
  | Some (Dir _) => Raise (Exception "IsADirectoryError" (path_str p))
  end.

Definition extend (p : path) (t : str) (o : option node) : result node :=
  match o with
  | None => Ok (File (Some t) (utf8_len t) true)
  | Some (File (Some c) n true) => Ok (File (Some (c ++ t)) (n + utf8_len t) true)
  | Some (File None n true) => Ok (File None (n + utf8_len t) true)
  | Some (File _ _ false) => Raise (Exception "PermissionError" (path_str p))
  | Some (Dir _) => Raise (Exception "IsADirectoryError" (path_str p))
  end.

Definition store (p : path) (upd : option node -> result node) : M unit :=
  fun w =>
    match update p upd (fs w) with
    | Ok n => (Ok tt, set_fs n w)
    | Raise e => (Raise e, w)
    end.

(** [with open(p, 'w', encoding='utf-8') as f: f.write(t)] *)
Definition write_text (p : path) (t : str) : M unit := store p (overwrite p t).

(** [with open(p, 'a', encoding='utf-8') as f: f.write(t)] *)
Definition append_text (p : path) (t : str) : M unit := store p (extend p t).

(** [os.listdir(p)] *)
Definition listdir (p : path) : M (list str) :=
  fun w =>
    match lookup p (fs w) with
    | Some (Dir es) => (Ok (map fst es), w)
    | Some (File _ _ _) =>
        (Raise (Exception "NotADirectoryError" (path_str p)), w)
    | None => (Raise (Exception "FileNotFoundError" (path_str p)), w)
    end.

(** [os.path.getsize(p)]; the size of a directory entry is not modelled
    (the walks ask for files only). *)
Definition getsize (p : path) : M N :=
  fun w =>
    match lookup p (fs w) with
    | Some (File _ n _) => (Ok n, w)
    | Some (Dir _) => (Ok 0%N, w)
    | None => (Raise (Exception "FileNotFoundError" (path_str p)), w)
    end.

Definition not_hidden (d : str) : bool := negb (startswith (py ".") d).

(** [os.walk(top)] with hidden directories pruned; nothing when [top] is
    not a directory. *)
Definition walk (top : path) : M (list (path * list str * list str)) :=
  fun w =>
    (Ok (match lookup top (fs w) with
         | Some n => os_walk not_hidden top n
         | None => []
         end), w).

(** ** Detector *)

Definition DETECTOR_FILES : list str :=
  [py "requirements.txt"; py "requirements-dev.txt"; py "setup.py";
   py "pyproject.toml"; py "Pipfile"; py "poetry.lock"].

(** One round of the loop of [check_dependency_files]: whether the name is
    found in this manifest. *)
Definition check_dependency_file (repo_path : path) (dep_file : str) : M bool :=
  let file_path := path_join repo_path dep_file in
  present <- path_exists file_path ;;
  if present then
    try_except
      (content <- read_text file_path ;;
       ret (contains DEP_NAME content))
      (fun e =>
         logger WARNING
           (py "Could not read " ++ dep_file ++ py ": " ++ exn_str e) ;;
         ret false)
  else ret false.

(** The loop of [check_dependency_files] over the remaining names. *)
Fixpoint check_dependency_files_from (repo_path : path) (files : list str)
  : M bool :=
  match files with
  | [] => ret false
  | dep_file :: rest =>
      found <- check_dependency_file repo_path dep_file ;;
      if found then ret true
      else check_dependency_files_from repo_path rest
  end.

Definition check_dependency_files (repo_path : path) : M bool :=
  check_dependency_files_from repo_path DETECTOR_FILES.

(** One round of the inner loop of [check_tracker_imports]: whether the
    pattern is found in this file. *)
Definition check_imports_in_file (root : path) (file : str) : M bool :=
  if endswith DOT_PY file then
    let file_path := path_join root file in
    try_except
      (content <- read_text file_path ;;
       ret (search_tracker_import content))
      (fun e =>
         logger WARNING
           (py "Could not read " ++ path_str file_path ++ py ": "
              ++ exn_str e) ;;
         ret false)
  else ret false.

(** The inner loop of [check_tracker_imports] over the files of one
    directory. *)
Fixpoint check_imports_in_files (root : path) (files : list str) : M bool :=
  match files with
  | [] => ret false
  | file :: rest =>
      found <- check_imports_in_file root file ;;
      if found then ret true else check_imports_in_files root rest
  end.

(** The outer loop, over the triples of the walk. *)
Fixpoint check_imports_in_walk (triples : list (path * list str * list str))
  : M bool :=
  match triples with
  | [] => ret false
  | (root, _, files) :: rest =>
      found <- check_imports_in_files root files ;;
      if found then ret true else check_imports_in_walk rest
  end.

Definition check_tracker_imports (repo_path : path) : M bool :=
  triples <- walk repo_path ;;
  check_imports_in_walk triples.

Definition check_tracker_exists (repo_path : path) : M bool :=
  dependency_found <- check_dependency_files repo_path ;;
  if dependency_found then
    logger INFO (py "Found dbdemos-tracker in dependency files") ;;
    ret true
  else
    import_found <- check_tracker_imports repo_path ;;
    if import_found then
      logger INFO (py "Found dbdemos-tracker imports in code") ;;
      ret true
    else ret false.

(** ** Dependency Patcher *)

Definition added_msg (file_path : path) : str :=
  py "Added dbdemos-tracker to " ++ path_str file_path.

Definition add_to_requirements (file_path : path) : M bool :=
  content <- read_text file_path ;;
  if negb (contains DEP_NAME content) then
    append_text file_path DEP_LINE ;;
    logger INFO (added_msg file_path) ;;
    ret true
  else ret false.

(** The loop shared by [add_to_pyproject] and [add_to_pipfile]: at the
    first line that is the header once stripped, [lines.insert(i + 1, entry)]
    and [break]. *)
Fixpoint insert_after_header (header entry : str) (lines : list str)
  : list str :=
  match lines with
  | [] => []
  | line :: rest =>
      if str_eqb (strip line) header then line :: entry :: rest
      else line :: insert_after_header header entry rest
  end.

Definition add_to_pyproject (file_path : path) : M bool :=
  content <- read_text file_path ;;
  if negb (contains DEP_NAME content) then
    if contains POETRY_HEADER content then
      let lines := split_nl content in
      let lines := insert_after_header POETRY_HEADER PINNED_ENTRY lines in
      write_text file_path (join_nl lines) ;;
      logger INFO (added_msg file_path) ;;
      ret true
    else ret false
  else ret false.

Definition QUOTED_DEP : str := py "'dbdemos-tracker'".

Definition add_to_setup_py (file_path : path) : M bool :=
  content <- read_text file_path ;;
  if negb (contains DEP_NAME content) then
    match search_install_requires content with
    | Some (before, deps, after) =>
        let new_deps :=
          match strip deps with
          | _ :: _ => deps ++ py "," ++ nl :: py "        " ++ QUOTED_DEP
          | [] => nl :: py "        " ++ QUOTED_DEP ++ nl :: py "    "
          end in
        let new_content :=
          replace (before ++ deps ++ after) (before ++ new_deps ++ after)
            content in
        write_text file_path new_content ;;
        logger INFO (added_msg file_path) ;;
        ret true
    | None => ret false
    end
  else ret false.

Definition add_to_pipfile (file_path : path) : M bool :=
  content <- read_text file_path ;;
  if negb (contains DEP_NAME content) then
    if contains PIPFILE_HEADER content then
      let lines := split_nl content in
      let lines := insert_after_header PIPFILE_HEADER PINNED_ENTRY lines in
      write_text file_path (join_nl lines) ;;
      logger INFO (added_msg file_path) ;;
      ret true
    else ret false
  else ret false.

Definition REQUIREMENTS_TXT : str := py "requirements.txt".
Definition PYPROJECT_TOML : str := py "pyproject.toml".
Definition SETUP_PY : str := py "setup.py".
Definition PIPFILE : str := py "Pipfile".

(** The manifests in order of preference, each with its patcher. *)
Definition DEPENDENCY_FILES : list (str * (path -> M bool)) :=
  [(REQUIREMENTS_TXT, add_to_requirements);
   (PYPROJECT_TOML, add_to_pyproject);
   (SETUP_PY, add_to_setup_py);
   (PIPFILE, add_to_pipfile)].

(** The loop of [add_dependency], then the creation of requirements.txt
    when it falls through. *)
Fixpoint add_dependency_from (repo_path : path)
  (files : list (str * (path -> M bool))) : M bool :=
  match files with
  | (dep_file, add_func) :: rest =>
      let file_path := path_join repo_path dep_file in
      present <- path_exists file_path ;;
      if present then add_func file_path
      else add_dependency_from repo_path rest
  | [] =>
      let req_path := path_join repo_path REQUIREMENTS_TXT in
      write_text req_path DEP_LINE ;;
      logger INFO (py "Created requirements.txt with dbdemos-tracker") ;;
      ret true
  end.

Definition add_dependency (repo_path : path) : M bool :=
  add_dependency_from repo_path DEPENDENCY_FILES.

(** ** Initialization Patcher *)

Definition is_import_line (line : str) : bool :=
  startswith (py "import ") (strip line) || startswith (py "from ") (strip line).

(** [for i, line in enumerate(lines): if ...: import_line_idx = i + 1] *)
Fixpoint import_line_idx_from (i idx : nat) (lines : list str) : nat :=
  match lines with
  | [] => idx
  | line :: rest =>
      import_line_idx_from (S i) (if is_import_line line then S i else idx) rest
  end.

Definition import_line_idx (lines : list str) : nat :=
  import_line_idx_from 0 0 lines.

Definition is_guard_line (line : str) : bool :=
  contains DUNDER_NAME line && contains DUNDER_MAIN line.

Definition tab : ascii := "009"%char.

(** The conventional guard line. *)
Definition MAIN_GUARD : str :=
  py "if __name__ == " ++ dquote :: py "__main__" ++ dquote :: py ":".

(** The test of the [while] below the guard line. *)
Definition in_block (line : str) : bool :=
  str_eqb (strip line) [] || startswith (py " ") line || startswith [tab] line.

Definition is_substantive (line : str) : bool :=
  match strip line with
  | [] => false
  | _ :: _ => negb (startswith (py "#") (strip line))
  end.

(** The [while] below the guard line, on the lines from [j] on: they come
    back with the call inserted, or nothing comes back when the loop ends
    without an insertion. *)
Fixpoint guard_block_insert (rest : list str) : option (list str) :=
  match rest with
  | [] => None
  | line :: rest' =>
      if in_block line then
        if is_substantive line then Some (GUARD_CALL :: line :: rest')
        else option_map (cons line) (guard_block_insert rest')
      else None
  end.

(** The first [for]: only the first line naming both [__name__] and
    [__main__] is considered. *)
Fixpoint main_guard_insert (lines : list str) : option (list str) :=
  match lines with
  | [] => None
  | line :: rest =>
      if is_guard_line line then option_map (cons line) (guard_block_insert rest)
      else option_map (cons line) (main_guard_insert rest)
  end.

Definition is_blank_or_comment (line : str) : bool :=
  str_eqb (strip line) [] || startswith (py "#") (strip line).

(** Below the header of [main]: skip blank and comment lines, insert at
    the first other line with its indentation. *)
Fixpoint main_body_insert (rest : list str) : option (list str) :=
  match rest with
  | [] => None
  | line :: rest' =>
      if is_blank_or_comment line
      then option_map (cons line) (main_body_insert rest')
      else
        let indent := List.length line - List.length (lstrip line) in
        Some ((spaces indent ++ INIT_CALL) :: line :: rest')
  end.

(** The second [for]: only the first definition of [main] is considered. *)
Fixpoint main_function_insert (lines : list str) : option (list str) :=
  match lines with
  | [] => None
  | line :: rest =>
      if match_def_main (strip line)
      then option_map (cons line) (main_body_insert rest)
      else option_map (cons line) (main_function_insert rest)
  end.

(** The lines written back for a file without the import. *)
Definition patched_lines (content : str) : list str :=
  let lines := split_nl content in
  let lines := insert_at (import_line_idx lines) IMPORT_STMT lines in
  match main_guard_insert lines with
  | Some lines' => lines'
  | None =>
      match main_function_insert lines with
      | Some lines' => lines'
      | None => lines ++ [[]; MARKER_COMMENT; INIT_CALL]
      end
  end.

(** ['import dbdemos_tracker' in content or 'from dbdemos_tracker' in content] *)
Definition has_import (content : str) : bool :=
  contains IMPORT_STMT content || contains FROM_STMT content.

Definition patched_msg (file_path : path) : str :=
  py "Added dbdemos tracker initialization to " ++ path_str file_path.

Definition failed_msg (file_path : path) (e : exn) : str :=
  py "Failed to add initialization to " ++ path_str file_path
    ++ py ": " ++ exn_str e.

(** The body of the [try] of [add_tracker_init_to_file]. *)
Definition add_tracker_init_body (file_path : path) : M bool :=
  content <- read_text file_path ;;
  if has_import content then ret false
  else
    write_text file_path (join_nl (patched_lines content)) ;;
    logger INFO (patched_msg file_path) ;;
    ret true.

Definition add_tracker_init_to_file (file_path : path) : M bool :=
  try_except
    (add_tracker_init_body file_path)
    (fun e => logger ERROR (failed_msg file_path e) ;; ret false).

Definition ENTRY_POINTS : list str :=
  [py "main.py"; py "app.py"; py "__main__.py"; py "run.py"].

(** The first candidate that exists, if any. *)
Fixpoint first_existing (repo_path : path) (candidates : list str)
  : M (option path) :=
  match candidates with
  | [] => ret None
  | entry_file :: rest =>
      let file_path := path_join repo_path entry_file in
      present <- path_exists file_path ;;
      if present then ret (Some file_path)
      else first_existing repo_path rest
  end.

(** The search for the largest Python file: the inner loop over the files
    of one directory, threading [(largest_file, largest_size)]. *)
Fixpoint largest_in_files (root : path) (files : list str)
  (best : option path * N) : M (option path * N) :=
  match files with
  | [] => ret best
  | file :: rest =>
      best' <-
        (if endswith DOT_PY file then
           let file_path := path_join root file in
           try_except
             (size <- getsize file_path ;;
              ret (if (snd best <? size)%N then (Some file_path, size)
                   else best))
             (fun _ => ret best)
         else ret best) ;;
      largest_in_files root rest best'
  end.

Fixpoint largest_in_walk (triples : list (path * list str * list str))
  (best : option path * N) : M (option path * N) :=
  match triples with
  | [] => ret best
  | (root, _, files) :: rest =>
      best' <- largest_in_files root files best ;;
      largest_in_walk rest best'
  end.

Definition NEW_MAIN_PY : str :=
  join_nl
    [[dquote; dquote; dquote]
       ++ py "Main entry point with dbdemos tracker initialization."
       ++ [dquote; dquote; dquote];
     [];
     py "import dbdemos_tracker";
     [];
     py "def main():";
     py "    " ++ [dquote; dquote; dquote] ++ py "Main function."
       ++ [dquote; dquote; dquote];
     py "    dbdemos_tracker.initialize()";
     py "    print(" ++ dquote
       :: py "Application started with dbdemos tracker" ++ dquote :: py ")";
     [];
     py "if __name__ == " ++ dquote :: py "__main__" ++ dquote :: py ":";
     py "    main()";
     []].

(** The search of [add_initialization] for the file to patch: a candidate
    by name, else the largest Python file of the tree, else none. *)
Definition initialization_target (repo_path : path) : M (option path) :=
  names <- listdir repo_path ;;
  let root_python_files :=
    filter (fun f => endswith DOT_PY f && negb (startswith (py "setup") f))
      names in
  let all_candidates := ENTRY_POINTS ++ root_python_files in
  target <- first_existing repo_path all_candidates ;;
  match target with
  | Some file_path => ret (Some file_path)
  | None =>
      triples <- walk repo_path ;;
      best <- largest_in_walk triples (None, 0%N) ;;
      match fst best with
      | Some largest_file =>
          logger INFO
            (py "Adding initialization to largest Python file: "
               ++ path_str largest_file) ;;
          ret (Some largest_file)
      | None => ret None
      end
  end.

Definition add_initialization (repo_path : path) : M bool :=
  target <- initialization_target repo_path ;;
  match target with
  | Some file_path => add_tracker_init_to_file file_path
  | None =>
      let main_path := path_join repo_path (py "main.py") in
      write_text main_path NEW_MAIN_PY ;;
      logger INFO
        (py "Created new main.py with dbdemos tracker initialization") ;;
      ret true
  end.

Definition add_tracker_to_repo (repo_path : path) : M bool :=
  record (AddDependency repo_path) ;;
  dep_changed <- add_dependency repo_path ;;
  record (AddInitialization repo_path) ;;
  init_changed <- add_initialization repo_path ;;
  ret (dep_changed || init_changed).

(** ** Orchestrator *)

Section Orchestrator.

Variable api : collaborators E.

Definition clone_repository (repo_url : str) (temp_dir : path) : M path :=
  let repo_name := replace DOT_GIT [] (after_last_slash repo_url) in
  let repo_path := path_join temp_dir repo_name in
  logger INFO
    (py "Cloning " ++ repo_url ++ py " to " ++ path_str repo_path) ;;
  external (clone_from api repo_url repo_path) ;;
  ret repo_path.

Definition create_feature_branch (branch_name : str) : M unit :=
  try_except
    (refs <- external (repo_refs api) ;;
     if existsb (str_eqb branch_name) (map after_last_slash refs) then
       logger WARNING
         (py "Branch " ++ branch_name ++ py " already exists, checking out") ;;
       external (git_checkout api [branch_name])
     else
       external (git_checkout api [py "-b"; branch_name]) ;;
       logger INFO (py "Created and checked out branch: " ++ branch_name))
    (fun e =>
       logger ERROR
         (py "Failed to create branch " ++ branch_name ++ py ": " ++ exn_str e) ;;
       raise e).

Definition commit_changes (commit_message : str) : M unit :=
  try_except
    (external (git_add api (py ".")) ;;
     dirty <- external (is_dirty api) ;;
     untracked <- (if dirty then ret [] else external (untracked_files api)) ;;
     match dirty, untracked with
     | false, [] => logger INFO (py "No changes to commit")
     | _, _ =>
         external (index_commit api commit_message) ;;
         logger INFO (py "Committed changes: " ++ commit_message)
     end)
    (fun e =>
       logger ERROR (py "Failed to commit changes: " ++ exn_str e) ;;
       raise e).

Definition push_branch (branch_name : str) : M unit :=
  try_except
    (external (remote api (py "origin")) ;;
     external (push api (branch_name ++ py ":" ++ branch_name)) ;;
     logger INFO (py "Pushed branch " ++ branch_name ++ py " to origin"))
    (fun e =>
       logger ERROR
         (py "Failed to push branch " ++ branch_name ++ py ": " ++ exn_str e) ;;
       raise e).

Definition PR_TITLE : str := py "Add dbdemos tracker".

Definition create_pull_request (repo_url branch_name : str) : M unit :=
  try_except
    (let repo_path :=
       replace DOT_GIT [] (strip_slash (urlparse_path api repo_url)) in
     match split_slash repo_path with
     | owner :: repo_name :: _ =>
         external (get_repo api (owner ++ slash :: repo_name)) ;;
         base <- external (default_branch api) ;;
         html_url <-
           external (create_pull api PR_TITLE (pr_body api) branch_name base) ;;
         logger INFO (py "Created pull request: " ++ html_url)
     | _ =>
         raise (Exception "ValueError"
                  (py "not enough values to unpack (expected 2, got 1)"))
     end)
    (fun e =>
       logger ERROR (py "Failed to create pull request: " ++ exn_str e) ;;
       raise e).

Definition BRANCH_NAME : str := py "feature/add-dbdemos-tracker".

Definition COMMIT_MESSAGE : str :=
  py "Add dbdemos tracker" ++ nl :: nl
    :: py "Automatically add dbdemos-tracker dependency and initialization code.".

(** The temporary directory is the root of [fs]: empty when the [with]
    block is entered, removed with all it holds when the block is left. *)
Definition temp_dir : path := [].

Definition process_single_repository (repo_url : str) : M unit :=
  fun w =>
    try_finally
      (try_except
         (record (CloneRepository repo_url) ;;
          repo_path <- clone_repository repo_url temp_dir ;;
          external (open_repo api repo_path) ;;
          record (CheckTrackerExists repo_path) ;;
          has_tracker <- check_tracker_exists repo_path ;;
          if has_tracker then
            logger INFO (py "DBDemos tracker already exists in " ++ repo_url)
          else
            record (CreateFeatureBranch BRANCH_NAME) ;;
            create_feature_branch BRANCH_NAME ;;
            record (AddTrackerToRepo repo_path) ;;
            changes_made <- add_tracker_to_repo repo_path ;;
            if negb changes_made then
              logger WARNING (py "No changes were needed for " ++ repo_url)
            else
              record CommitChanges ;;
              commit_changes COMMIT_MESSAGE ;;
              record (PushBranch BRANCH_NAME) ;;
              push_branch BRANCH_NAME ;;
              record (CreatePullRequest repo_url BRANCH_NAME) ;;
              create_pull_request repo_url BRANCH_NAME ;;
              logger INFO (py "Successfully processed " ++ repo_url))
         (fun e =>
            logger ERROR
              (py "Error processing " ++ repo_url ++ py ": " ++ exn_str e) ;;
            raise e))
      (set_fs (Dir []))
      (set_fs (Dir []) w).

Definition processing_msg (repo_url : str) : str :=
  py "Processing repository: " ++ repo_url.

Definition failure_msg (repo_url : str) (e : exn) : str :=
  py "Failed to process " ++ repo_url ++ py ": " ++ exn_str e.

Fixpoint process_repositories (repo_urls : list str) : M unit :=
  match repo_urls with
  | [] => ret tt
  | repo_url :: rest =>
      try_except
        (logger INFO (processing_msg repo_url) ;;
         process_single_repository repo_url)
        (fun e => logger ERROR (failure_msg repo_url e)) ;;
      process_repositories rest
  end.

End Orchestrator.

(** *** Vocabulary of the properties *)

(** Neither path leads through the other. *)
Definition apart (p q : path) : Prop :=
  (forall r, q <> p ++ r) /\ (forall r, p <> q ++ r).

(** The second world differs from the first by log records at most. *)
Definition quiet (w w' : world E) : Prop :=
  fs w' = fs w /\ calls w' = calls w /\ ext w' = ext w.

(** The header is in the text, which does not hold the dependency name,
    but no line of the text is the header once stripped. *)
Definition header_inside_line_only (header content : str) : Prop :=
  contains DEP_NAME content = false /\
  contains header content = true /\
  Forall (fun l => strip l <> header) (split_nl content).

(** A computation that leaves the file system as it is or changes it by one
    [update] at [p]. *)
Definition edits_at {A} (p : path) (m : M A) : Prop :=
  forall w,
    fs (snd (m w)) = fs w \/
    exists upd, update p upd (fs w) = Ok (fs (snd (m w))).

End Updater.

Notation "x <- m ;; k" := (bind m (fun x => k))
  (at level 61, m at next level, right associativity).
Notation "m ;; k" := (bind m (fun _ => k))
  (at level 61, right associativity).

(** ** The list of repositories and the entry point *)

(** [str(n)] for a length. *)
Definition str_of_nat (n : nat) : str :=
  py (DecimalString.NilZero.string_of_uint (Nat.to_uint n)).

(** [for line in f]: the lines of a text, each with its newline, the last
    one without when the text does not end with a newline; none for the
    empty text. *)
Fixpoint file_lines (s : str) : list str :=
  match s with
  | [] => []
  | c :: s' =>
      if Ascii.eqb c nl then [nl] :: file_lines s'
      else match file_lines s' with
           | l :: ls => (c :: l) :: ls
           | [] => [[c]]
           end
  end.

(** The loop of [get_repositories_from_file]: a line is stripped, and kept
    unless it is then empty or starts with [#]. *)
Fixpoint collect_urls (lines : list str) : list str :=
  match lines with
  | [] => []
  | line :: rest =>
      match strip line with
      | [] => collect_urls rest
      | _ :: _ =>
          if startswith (py "#") (strip line) then collect_urls rest
          else strip line :: collect_urls rest
      end
  end.

(** A repository as the hosting API lists it. *)
Record remote_repo : Type := {
  archived : bool;
  fork : bool;
  clone_url : str
}.

(** The loop of [get_repositories_from_org]. *)
Fixpoint collect_active (repos : list remote_repo) : list str :=
  match repos with
  | [] => []
  | repo :: rest =>
      if negb (archived repo) && negb (fork repo)
      then clone_url repo :: collect_active rest
      else collect_active rest
  end.

(** What [get_repositories_from_org] takes from [github]. *)
Record hosting (E : Type) : Type := {
  get_organization : str -> ext_op E unit;  (* github_client.get_organization *)
  get_repos : ext_op E (list remote_repo)   (* list(org.get_repos()) *)
}.
Arguments get_organization {E}.
Arguments get_repos {E}.

(** The parsed command line.  A file or an organization that was not given,
    or was given as the empty string, is [None]. *)
Record arguments : Type := {
  repositories : list str;
  from_file : option path;
  from_org : option str;
  verbose : bool
}.

(** What [main] has of [argparse] once lines 535 to 579 have run.  The
    parser was built and [parse_args] returned the arguments; or [argparse]
    ended the process with a status ([sys.exit]: 2 after a usage error, as
    when two of the three exclusive inputs are given, 0 after [--help]); or
    building the parser raised.  [add_argument] raises [ValueError] when a
    mutually exclusive group is given a required argument, and an
    [argparse] that takes a positional with [nargs='*'] and no default for
    required does so for [repositories], on every command line. *)
Inductive parsed : Type :=
| Parsed (args : arguments)
| Exits (status : nat)
| Fails (e : exn).

Section EntryPoint.

Context {E : Type}.

(** Here [fs] is the directory the path of the list is relative to. *)
Definition get_repositories_from_file (file_path : path) : M (E := E) (list str) :=
  try_except
    (content <- read_text file_path ;;
     let repo_urls := collect_urls (file_lines content) in
     logger INFO
       (py "Loaded " ++ str_of_nat (List.length repo_urls)
          ++ py " repositories from " ++ path_str file_path) ;;
     ret repo_urls)
    (fun e =>
       logger ERROR
         (py "Failed to read repository file " ++ path_str file_path
            ++ py ": " ++ exn_str e) ;;
       ret []).

Definition get_repositories_from_org (host : hosting E) (org_name : str)
  : M (list str) :=
  try_except
    (external (get_organization host org_name) ;;
     logger INFO (py "Fetching repositories from organization: " ++ org_name) ;;
     listed <- external (get_repos host) ;;
     let repos := collect_active listed in
     logger INFO
       (py "Found " ++ str_of_nat (List.length repos)
          ++ py " active repositories in organization " ++ org_name) ;;
     ret repos)
    (fun e =>
       logger ERROR
         (py "Failed to fetch repositories from organization " ++ org_name
            ++ py ": " ++ exn_str e) ;;
       ret []).

(** The repositories [main] resolves from the command line. *)
Definition resolve_repositories (host : hosting E) (args : arguments)
  : M (list str) :=
  match repositories args with
  | _ :: _ => ret (repositories args)
  | [] =>
      match from_file args with
      | Some file => get_repositories_from_file file
      | None =>
          match from_org args with
          | Some org => get_repositories_from_org host org
          | None => ret []
          end
      end
  end.

(** [main], from what [argparse] made of the command line and
    [os.environ.get("GITHUB_TOKEN")] to the exit status of the process, or
    to the exception that ends it: 2 is the status of [parser.error]; the
    messages printed on [sys.stderr] are not recorded, and the log level set
    by [--verbose] makes no difference, no record of the source being below
    [INFO].  The code below [parse_args] does not ask again whether the
    inputs exclude each other. *)
Definition main (api : collaborators E) (host : hosting E) (cli : parsed)
  (github_token : option str) : M nat :=
  match cli with
  | Fails e => raise e
  | Exits status => ret status
  | Parsed args =>
      match repositories args, from_file args, from_org args with
      | [], None, None => ret 2
      | _, _, _ =>
          match github_token with
          | None => ret 1
          | Some _ =>
              repo_urls <- resolve_repositories host args ;;
              match repo_urls with
              | [] =>
                  logger ERROR (py "No repositories found to process") ;;
                  ret 1
              | _ :: _ =>
                  process_repositories api repo_urls ;;
                  ret 0
              end
          end
      end
  end.

End EntryPoint.

(** *** More vocabulary *)

(** A name [add_initialization] tries at the root before any search: an
    entry point, or a Python file whose name does not start with [setup]. *)
Definition candidate_name (name : str) : Prop :=
  In name ENTRY_POINTS \/
  (endswith DOT_PY name = true /\ startswith (py "setup") name = false).

(** The record of the last resort of [add_initialization]. *)
Definition created_msg : str :=
  py "Created new main.py with dbdemos tracker initialization".

(** A computation that records no step of the orchestration. *)
Definition records_nothing {E A : Type} (m : M (E := E) A) : Prop :=
  forall w, calls (snd (m w)) = calls w.

(** The steps [process_single_repository] takes on a repository that needs
    the patch, in the order of the source. *)
Definition REPO_STEPS (repo_url : str) (repo_path : path) : list call :=
  [CloneRepository repo_url; CheckTrackerExists repo_path;
   CreateFeatureBranch BRANCH_NAME; AddTrackerToRepo repo_path;
   AddDependency repo_path; AddInitialization repo_path;
   CommitChanges; PushBranch BRANCH_NAME;
   CreatePullRequest repo_url BRANCH_NAME].

(** The record [process_single_repository] leaves when it fails. *)
Definition error_msg (repo_url : str) (e : exn) : str :=
  py "Error processing " ++ repo_url ++ py ": " ++ exn_str e.

(** ** Concrete repositories

    The worlds, files and collaborators on which the properties below are
    evaluated. *)

Definition text_file (t : str) : node := File (Some t) (utf8_len t) true.

Definition REPO : path := [py "repo"].

(** A world whose temporary directory holds one clone, [repo]. *)
Definition repo_world (entries : list (str * node)) : world nat :=
  World (Dir [(py "repo", Dir entries)]) [] [] 0.

Definition MAIN_PY : str := py "main.py".

(** A project-config file whose section header carries a comment. *)
Definition PYPROJECT_COMMENTED : str :=
  POETRY_HEADER ++ py " # deps" ++ nl
    :: py "requests = " ++ dquote :: py "*" ++ dquote :: [nl].

(** A requirements list whose last line has no newline. *)
Definition REQUIREMENTS_UNTERMINATED : str := py "requests".

(** An entry file whose first line mentions the guard in a comment. *)
Definition NOTE_LINE : str :=
  py "# __name__ is __main__ when the file is run as a script".

Definition CALL_MAIN : str := py "    main()".

Definition MAIN_WITH_NOTE : str :=
  join_nl [NOTE_LINE; MAIN_GUARD; CALL_MAIN; []].

(** An entry file with imports, a comment below the guard and one
    statement. *)
Definition MAIN_PLAIN : str :=
  join_nl [py "import os"; []; MAIN_GUARD; py "    # start"; CALL_MAIN; []].

(** A source file that names the module in a comment only, and as the
    prefix of another module's name. *)
Definition UTILS_COMMENT : str :=
  py "# import  dbdemos_tracker_utils" ++ [nl].

Definition URL_PLAIN : str := py "https://example.org/acme/plain.git".
Definition URL_BROKEN : str := py "https://example.org/acme/broken.git".
Definition URL_TRACKED : str := py "https://example.org/acme/tracked.git".
Definition URL_OTHER : str := py "https://example.org/acme/other.git".

Definition PLAIN_CLONE : list (str * node) :=
  [(MAIN_PY, text_file (py "print(1)" ++ [nl]))].

Definition TRACKED_CLONE : list (str * node) :=
  [(REQUIREMENTS_TXT, text_file (py "dbdemos-tracker==1.0" ++ [nl]));
   (MAIN_PY, text_file (py "print(1)" ++ [nl]))].

Definition put_clone (to : path) (entries : list (str * node)) (n : node)
  (e : nat) : result unit * node * nat :=
  match update to (fun _ => Ok (Dir entries)) n with
  | Ok n' => (Ok tt, n', e)
  | Raise x => (Raise x, n, e)
  end.

(** Collaborators for the examples: the clone of [URL_BROKEN] fails, the
    clone of [URL_TRACKED] holds the dependency already, every other clone
    is [PLAIN_CLONE]; the outside state counts the pull requests opened. *)
Definition demo_api : collaborators nat := {|
  clone_from := fun url to n e =>
    if str_eqb url URL_BROKEN
    then (Raise (Exception "GitCommandError" (py "clone failed")), n, e)
    else if str_eqb url URL_TRACKED then put_clone to TRACKED_CLONE n e
    else put_clone to PLAIN_CLONE n e;
  open_repo := fun _ n e => (Ok tt, n, e);
  repo_refs := fun n e => (Ok [py "origin/main"], n, e);
  git_checkout := fun _ n e => (Ok tt, n, e);
  git_add := fun _ n e => (Ok tt, n, e);
  is_dirty := fun n e => (Ok true, n, e);
  untracked_files := fun n e => (Ok [], n, e);
  index_commit := fun _ n e => (Ok tt, n, e);
  remote := fun _ n e => (Ok tt, n, e);
  push := fun _ n e => (Ok tt, n, e);
  urlparse_path := fun url => skipn 19 url;
  get_repo := fun _ n e => (Ok tt, n, e);
  default_branch := fun n e => (Ok (py "main"), n, e);
  create_pull := fun _ _ _ _ n e => (Ok (py "https://example.org/pr"), n, S e);
  pr_body := py "## Summary"
|}.

Definition empty_world : world nat := World (Dir []) [] [] 0.

(** More files and clones for the further properties. *)

(** An entry file that imports the module. *)
Definition MAIN_IMPORTING : str := IMPORT_STMT ++ [nl].

(** A Pipfile with its section of packages, empty. *)
Definition PIPFILE_PLAIN : str := join_nl [PIPFILE_HEADER; []].

(** An entry file with a definition of [main] and no guard. *)
Definition DEF_MAIN : str := py "def main():".
Definition MAIN_FUNCTION : str :=
  join_nl [py "import os"; DEF_MAIN; py "    # start"; py "    run()"; []].

(** A clone whose Python files are all below [src], next to a setup
    script. *)
Definition NESTED_CLONE : list (str * node) :=
  [(py "src",
    Dir [(py "small.py", File (Some (py "x = 1")) 5 true);
         (py "large.py", File (Some (py "value = 1")) 9 true)]);
   (SETUP_PY, text_file (py "setup()"))].

(** A clone without any Python file. *)
Definition README_CLONE : list (str * node) :=
  [(py "README.md", text_file (py "demo"))].

(** A clone whose entry point cannot be decoded, and one whose requirements
    list cannot. *)
Definition UNREADABLE_MAIN_CLONE : list (str * node) :=
  [(MAIN_PY, File None 3 true)].
Definition UNREADABLE_REQUIREMENTS_CLONE : list (str * node) :=
  [(REQUIREMENTS_TXT, File None 3 true)].

(** A URL whose path names a repository and no owner. *)
Definition URL_NO_OWNER : str := py "https://example.org/plain.git".

(** * Properties *)

(** ** Strings *)

Lemma str_eqb_eq (a b : str) : str_eqb a b = true <-> a = b.
Proof.
  unfold str_eqb. destruct (list_eq_dec ascii_dec a b); split; congruence.
Qed.

Lemma str_eqb_refl (a : str) : str_eqb a a = true.
Proof. apply str_eqb_eq. reflexivity. Qed.

Lemma str_eqb_neq (a b : str) : a <> b -> str_eqb a b = false.
Proof.
  intros H. destruct (str_eqb a b) eqn:Hab; [|reflexivity].
  apply str_eqb_eq in Hab. contradiction.
Qed.

Lemma startswith_app (p r : str) : startswith p (p ++ r) = true.
Proof.
  induction p as [|a p IH]; simpl; [reflexivity|].
  rewrite Ascii.eqb_refl. assumption.
Qed.

Lemma startswith_inv (p s : str) :
  startswith p s = true -> exists r, s = p ++ r.
Proof.
  revert s. induction p as [|a p IH]; intros s H; simpl in *.
  - exists s. reflexivity.
  - destruct s as [|b s]; [discriminate|].
    destruct (Ascii.eqb_spec a b) as [->|]; [|discriminate].
    destruct (IH _ H) as [r ->]. exists r. reflexivity.
Qed.

Lemma contains_here (n r : str) : contains n (n ++ r) = true.
Proof.
  destruct (n ++ r) eqn:Heq; simpl; rewrite <- Heq, startswith_app; reflexivity.
Qed.

Lemma contains_app_r (n a b : str) :
  contains n b = true -> contains n (a ++ b) = true.
Proof.
  intros H. induction a as [|c a IH]; simpl; [assumption|].
  rewrite IH. apply orb_true_r.
Qed.

Lemma contains_mid (n a b : str) : contains n (a ++ n ++ b) = true.
Proof. apply contains_app_r, contains_here. Qed.

Lemma contains_inv (n s : str) :
  contains n s = true -> exists a b, s = a ++ n ++ b.
Proof.
  induction s as [|c s IH]; simpl; intros H.
  - rewrite orb_false_r in H. destruct (startswith_inv _ _ H) as [r Hr].
    exists [], r. assumption.
  - apply orb_true_iff in H as [H|H].
    + destruct (startswith_inv _ _ H) as [r Hr]. exists [], r. assumption.
    + destruct (IH H) as (a & b & ->). exists (c :: a), b. reflexivity.
Qed.

Lemma contains_app_l (n a b : str) :
  contains n a = true -> contains n (a ++ b) = true.
Proof.
  intros H. destruct (contains_inv _ _ H) as (x & y & ->).
  rewrite <- !app_assoc. apply contains_mid.
Qed.

Lemma join_nl_cons (l : str) (ls : list str) :
  ls <> [] -> join_nl (l :: ls) = l ++ nl :: join_nl ls.
Proof. destruct ls; [congruence | reflexivity]. Qed.

Lemma contains_join_nl (n l : str) (ls : list str) :
  In l ls -> contains n l = true -> contains n (join_nl ls) = true.
Proof.
  intros Hin Hc. induction ls as [|x ls IH]; [contradiction|].
  destruct ls as [|y ls].
  - destruct Hin as [->|[]]. assumption.
  - rewrite join_nl_cons by discriminate.
    destruct Hin as [->|Hin].
    + apply contains_app_l. assumption.
    + apply contains_app_r with (a := x ++ [nl]) in IH; [|assumption].
      rewrite <- app_assoc in IH. exact IH.
Qed.

Lemma split_nl_nonempty (s : str) : split_nl s <> [].
Proof.
  destruct s as [|c s]; simpl; [discriminate|].
  destruct (Ascii.eqb c nl); [discriminate|].
  destruct (split_nl s); discriminate.
Qed.

Lemma join_split_nl (s : str) : join_nl (split_nl s) = s.
Proof.
  induction s as [|c s IH]; [reflexivity|]. simpl.
  destruct (Ascii.eqb_spec c nl) as [->|Hc].
  - rewrite join_nl_cons by apply split_nl_nonempty. rewrite IH. reflexivity.
  - pose proof (split_nl_nonempty s) as Hne.
    destruct (split_nl s) as [|l ls]; [congruence|].
    destruct ls as [|l' ls]; simpl in *; rewrite <- IH; reflexivity.
Qed.

Lemma insert_at_In {A} (i : nat) (x : A) (l : list A) : In x (insert_at i x l).
Proof. unfold insert_at. apply in_or_app. right. left. reflexivity. Qed.

Lemma insert_at_incl {A} (i : nat) (x y : A) (l : list A) :
  In y l -> In y (insert_at i x l).
Proof.
  unfold insert_at. intros H. rewrite <- (firstn_skipn i l) in H.
  apply in_app_or in H. apply in_or_app. destruct H; [left | right; right];
    assumption.
Qed.

Lemma lstrip_spaces_then (ws r : str) :
  Forall (fun c => is_space c = true) ws ->
  (match r with c :: _ => is_space c = false | [] => True end) ->
  lstrip (ws ++ r) = r.
Proof.
  intros Hws Hr. induction Hws as [|c ws Hc _ IH]; simpl.
  - destruct r as [|c r]; [reflexivity|]. simpl. rewrite Hr. reflexivity.
  - rewrite Hc. assumption.
Qed.

(** ** The file system *)

Lemma assoc_set_entry_same (name : str) (v : node) (es : list (str * node)) :
  assoc name (set_entry name v es) = Some v.
Proof.
  induction es as [|[k u] es IH]; simpl.
  - rewrite str_eqb_refl. reflexivity.
  - destruct (str_eqb k name) eqn:Hk; simpl; rewrite Hk; [reflexivity | exact IH].
Qed.

Lemma assoc_set_entry_other (name other : str) (v : node)
  (es : list (str * node)) :
  other <> name -> assoc other (set_entry name v es) = assoc other es.
Proof.
  intros Hne. induction es as [|[k u] es IH]; simpl.
  - rewrite str_eqb_neq by congruence. reflexivity.
  - destruct (str_eqb k name) eqn:Hk; simpl.
    + apply str_eqb_eq in Hk. subst k.
      rewrite str_eqb_neq by congruence. reflexivity.
    + destruct (str_eqb k other); [reflexivity | exact IH].
Qed.

Lemma assoc_In (name : str) (v : node) (es : list (str * node)) :
  assoc name es = Some v -> In (name, v) es.
Proof.
  induction es as [|[k u] es IH]; simpl; [discriminate|].
  destruct (str_eqb k name) eqn:Hk.
  - apply str_eqb_eq in Hk. intros [= ->]. left. congruence.
  - intros H. right. apply IH, H.
Qed.

(** After a successful [update] the node at [p] is what [upd] made of the
    node that was there. *)
Lemma update_lookup_same (p : path) upd (n n' : node) :
  update p upd n = Ok n' ->
  exists c', lookup p n' = Some c' /\ upd (lookup p n) = Ok c'.
Proof.
  revert n n'. induction p as [|a p IH]; intros n n' H; simpl in *.
  - exists n'. split; [reflexivity | assumption].
  - destruct n as [t s wr|es]; [discriminate|].
    destruct (assoc a es) as [c|] eqn:Ha.
    + destruct (update p upd c) as [c''|e] eqn:Hu; [|discriminate].
      injection H as <-. simpl. rewrite assoc_set_entry_same.
      apply IH. assumption.
    + destruct p as [|b p]; [|discriminate].
      destruct (upd None) as [c'|e] eqn:Hu; [|discriminate].
      injection H as <-. simpl. rewrite assoc_set_entry_same.
      exists c'. split; reflexivity.
Qed.

(** A path that neither extends [p] nor is extended by [p] leads to the same
    node before and after an [update] at [p]. *)
Lemma update_lookup_other (p : path) upd (n n' : node) (q : path) :
  update p upd n = Ok n' ->
  (forall r, q <> p ++ r) -> (forall r, p <> q ++ r) ->
  lookup q n' = lookup q n.
Proof.
  revert n n' q. induction p as [|a p IH]; intros n n' q H Hq Hp.
  - exfalso. apply (Hq q). reflexivity.
  - destruct q as [|b q].
    { exfalso. apply (Hp (a :: p)). reflexivity. }
    simpl in H. destruct n as [t s wr|es]; [discriminate|].
    assert (Hcase : forall c', n' = Dir (set_entry a c' es) ->
              (a = b -> lookup q c' = match assoc a es with
                                      | Some c => lookup q c
                                      | None => None
                                      end) ->
              lookup (b :: q) n' = lookup (b :: q) (Dir es)).
    { intros c' -> Hsame. simpl.
      destruct (list_eq_dec ascii_dec a b) as [<-|Hab].
      - rewrite assoc_set_entry_same. apply Hsame. reflexivity.
      - rewrite assoc_set_entry_other by congruence. reflexivity. }
    destruct (assoc a es) as [c|] eqn:Ha.
    + destruct (update p upd c) as [c''|e] eqn:Hu; [|discriminate].
      injection H as <-. apply (Hcase c''); [reflexivity|].
      intros <-. apply (IH c c'' q Hu).
      * intros r Hr. apply (Hq r). simpl. congruence.
      * intros r Hr. apply (Hp r). simpl. congruence.
    + destruct p as [|b' p]; [|discriminate].
      destruct (upd None) as [c'|e] eqn:Hu; [|discriminate].
      injection H as <-. apply (Hcase c'); [reflexivity|].
      intros <-. exfalso. apply (Hq q). reflexivity.
Qed.

Lemma update_ok_existing (p : path) upd (n c c' : node) :
  lookup p n = Some c -> upd (Some c) = Ok c' ->
  exists n', update p upd n = Ok n'.
Proof.
  revert n. induction p as [|a p IH]; intros n Hl Hu; simpl in *.
  - injection Hl as ->. eauto.
  - destruct n as [t s wr|es]; [discriminate|].
    destruct (assoc a es) as [d|]; [|discriminate].
    destruct (IH d Hl Hu) as [d' ->]. eauto.
Qed.

Lemma update_ok_new (dir : path) (name : str) upd (n c' : node)
  (es : list (str * node)) :
  lookup dir n = Some (Dir es) -> assoc name es = None -> upd None = Ok c' ->
  exists n', update (path_join dir name) upd n = Ok n'.
Proof.
  unfold path_join. revert n. induction dir as [|a p IH]; intros n Hl Ha Hu; simpl in *.
  - injection Hl as ->. rewrite Ha, Hu. eauto.
  - destruct n as [t s wr|es0]; [discriminate|].
    destruct (assoc a es0) as [d|]; [|discriminate].
    destruct (IH d Hl Ha Hu) as [d' ->]. eauto.
Qed.

Lemma lookup_app (p q : path) (n : node) :
  lookup (p ++ q) n =
  match lookup p n with Some c => lookup q c | None => None end.
Proof.
  revert n. induction p as [|a p IH]; intros n; simpl; [reflexivity|].
  destruct n as [t s wr|es]; [reflexivity|].
  destruct (assoc a es); [apply IH | reflexivity].
Qed.

(** ** Initialization Patcher *)

Lemma guard_block_insert_incl (rest rest' : list str) (x : str) :
  guard_block_insert rest = Some rest' -> In x rest -> In x rest'.
Proof.
  revert rest'. induction rest as [|l rest IH]; intros rest' H Hin; simpl in H.
  - discriminate.
  - destruct (in_block l); [|discriminate].
    destruct (is_substantive l).
    + injection H as <-. right. assumption.
    + destruct (guard_block_insert rest) as [r|]; [|discriminate].
      injection H as <-. destruct Hin as [->|Hin]; [left; reflexivity|].
      right. apply IH; [reflexivity | assumption].
Qed.

Lemma main_guard_insert_incl (lines lines' : list str) (x : str) :
  main_guard_insert lines = Some lines' -> In x lines -> In x lines'.
Proof.
  revert lines'. induction lines as [|l lines IH]; intros lines' H Hin;
    simpl in H; [discriminate|].
  destruct (is_guard_line l).
  - destruct (guard_block_insert lines) as [r|] eqn:Hr; [|discriminate].
    injection H as <-. destruct Hin as [->|Hin]; [left; reflexivity|].
    right. eapply guard_block_insert_incl; eassumption.
  - destruct (main_guard_insert lines) as [r|]; [|discriminate].
    injection H as <-. destruct Hin as [->|Hin]; [left; reflexivity|].
    right. apply IH; [reflexivity | assumption].
Qed.

Lemma main_body_insert_incl (rest rest' : list str) (x : str) :
  main_body_insert rest = Some rest' -> In x rest -> In x rest'.
Proof.
  revert rest'. induction rest as [|l rest IH]; intros rest' H Hin; simpl in H.
  - discriminate.
  - destruct (is_blank_or_comment l).
    + destruct (main_body_insert rest) as [r|]; [|discriminate].
      injection H as <-. destruct Hin as [->|Hin]; [left; reflexivity|].
      right. apply IH; [reflexivity | assumption].
    + injection H as <-. right. assumption.
Qed.

Lemma main_function_insert_incl (lines lines' : list str) (x : str) :
  main_function_insert lines = Some lines' -> In x lines -> In x lines'.
Proof.
  revert lines'. induction lines as [|l lines IH]; intros lines' H Hin;
    simpl in H; [discriminate|].
  destruct (match_def_main (strip l)).
  - destruct (main_body_insert lines) as [r|] eqn:Hr; [|discriminate].
    injection H as <-. destruct Hin as [->|Hin]; [left; reflexivity|].
    right. eapply main_body_insert_incl; eassumption.
  - destruct (main_function_insert lines) as [r|]; [|discriminate].
    injection H as <-. destruct Hin as [->|Hin]; [left; reflexivity|].
    right. apply IH; [reflexivity | assumption].
Qed.

(** Whatever the shape of the file, the lines written back hold the import
    line. *)
Lemma patched_lines_import (content : str) :
  In IMPORT_STMT (patched_lines content).
Proof.
  unfold patched_lines.
  set (lines := insert_at _ IMPORT_STMT (split_nl content)).
  assert (Hin : In IMPORT_STMT lines) by apply insert_at_In.
  destruct (main_guard_insert lines) as [l1|] eqn:H1.
  - eapply main_guard_insert_incl; eassumption.
  - destruct (main_function_insert lines) as [l2|] eqn:H2.
    + eapply main_function_insert_incl; eassumption.
    + apply in_or_app. left. assumption.
Qed.

Lemma patched_text_import (content : str) :
  contains IMPORT_STMT (join_nl (patched_lines content)) = true.
Proof.
  apply contains_join_nl with (l := IMPORT_STMT).
  - apply patched_lines_import.
  - apply (contains_here IMPORT_STMT []).
Qed.

Section InitializationPatcher.

Context {E : Type}.

(** The outcomes of the body of the [try], by the state of the file. *)
Lemma add_tracker_init_body_cases (file_path : path) (w : world E) :
  match lookup file_path (fs w) with
  | Some (File (Some content) _ _) =>
      if has_import content
      then add_tracker_init_body file_path w = (Ok false, w)
      else
        match update file_path
                (overwrite file_path (join_nl (patched_lines content))) (fs w)
        with
        | Ok n' =>
            add_tracker_init_body file_path w =
            (Ok true, logged INFO (patched_msg file_path) (set_fs n' w))
        | Raise e => add_tracker_init_body file_path w = (Raise e, w)
        end
  | _ => exists e, add_tracker_init_body file_path w = (Raise e, w)
  end.
Proof.
  unfold add_tracker_init_body, bind, read_text.
  destruct (lookup file_path (fs w)) as [[[c|] s wr|es]|] eqn:Hl;
    try (eexists; reflexivity).
  destruct (has_import c); [reflexivity|].
  unfold write_text, store.
  destruct (update file_path _ (fs w)) as [n'|e]; reflexivity.
Qed.

(** The [try] turns every outcome of its body into a returned value. *)
Lemma add_tracker_init_to_file_body (file_path : path) (w : world E) :
  add_tracker_init_to_file file_path w =
  match add_tracker_init_body file_path w with
  | (Ok b, w') => (Ok b, w')
  | (Raise e, w') => (Ok false, logged ERROR (failed_msg file_path e) w')
  end.
Proof.
  unfold add_tracker_init_to_file, try_except.
  destruct (add_tracker_init_body file_path w) as [[b|e] w']; reflexivity.
Qed.

(** C4: a file that already holds the tracker import, by either syntax, is
    left as it is and no change is reported, whatever else it holds (the
    initialization call or not): the world after the call is the world
    before it, so the test comes before any insertion.  And a run that
    reported a change is followed by a run that reports none and changes
    nothing: the initialization code is never inserted twice. *)
Theorem add_tracker_init_never_twice (file_path : path) (w : world E) :
  (forall content size wr,
      lookup file_path (fs w) = Some (File (Some content) size wr) ->
      contains IMPORT_STMT content = true \/ contains FROM_STMT content = true ->
      add_tracker_init_to_file file_path w = (Ok false, w)) /\
  (forall w1,
      add_tracker_init_to_file file_path w = (Ok true, w1) ->
      add_tracker_init_to_file file_path w1 = (Ok false, w1)).
Proof.
  split.
  - intros content size wr Hl Himp.
    rewrite add_tracker_init_to_file_body.
    pose proof (add_tracker_init_body_cases file_path w) as Hc.
    rewrite Hl in Hc.
    assert (Hg : has_import content = true).
    { unfold has_import. apply orb_true_iff. assumption. }
    rewrite Hg in Hc. rewrite Hc. reflexivity.
  - intros w1 Hrun.
    rewrite add_tracker_init_to_file_body in Hrun.
    pose proof (add_tracker_init_body_cases file_path w) as Hc.
    destruct (lookup file_path (fs w)) as [[[c|] s wr|es]|] eqn:Hl;
      try (destruct Hc as [e Hc]; rewrite Hc in Hrun; discriminate).
    destruct (has_import c) eqn:Hg.
    { rewrite Hc in Hrun. discriminate. }
    destruct (update file_path _ (fs w)) as [n'|e] eqn:Hu;
      rewrite Hc in Hrun; [|discriminate].
    injection Hrun as <-.
    destruct (update_lookup_same _ _ _ _ Hu) as (c' & Hl' & Hov).
    rewrite Hl in Hov. simpl in Hov. destruct wr; [|discriminate].
    injection Hov as <-.
    rewrite add_tracker_init_to_file_body.
    pose proof (add_tracker_init_body_cases file_path
                  (logged INFO (patched_msg file_path) (set_fs n' w))) as Hc'.
    simpl in Hc'. rewrite Hl' in Hc'.
    unfold has_import in Hc'. rewrite patched_text_import in Hc'.
    simpl in Hc'. rewrite Hc'. reflexivity.
Qed.

(** C10: [add_tracker_init_to_file] never raises.  When reading the target
    raises, or when the write of the computed text raises, it logs the error
    and returns false, the files being as they were.  Inside
    [add_tracker_to_repo], when the body of the patch raises on the file the
    search selected, the call still returns, and its flag is the result of
    the Dependency Patcher. *)
Theorem add_tracker_init_failure_contained (w : world E) :
  (forall file_path,
      exists b w', add_tracker_init_to_file file_path w = (Ok b, w')) /\
  (forall file_path e,
      read_text file_path w = (Raise e, w) ->
      add_tracker_init_to_file file_path w =
      (Ok false, logged ERROR (failed_msg file_path e) w)) /\
  (forall file_path content e,
      read_text file_path w = (Ok content, w) ->
      has_import content = false ->
      write_text file_path (join_nl (patched_lines content)) w = (Raise e, w) ->
      add_tracker_init_to_file file_path w =
      (Ok false, logged ERROR (failed_msg file_path e) w)) /\
  (forall repo_path changed w1 target w2 e w3,
      add_dependency repo_path (recorded (AddDependency repo_path) w)
      = (Ok changed, w1) ->
      initialization_target repo_path
        (recorded (AddInitialization repo_path) w1) = (Ok (Some target), w2) ->
      add_tracker_init_body target w2 = (Raise e, w3) ->
      add_tracker_to_repo repo_path w =
      (Ok changed, logged ERROR (failed_msg target e) w3)).
Proof.
  repeat split.
  - intros file_path. rewrite add_tracker_init_to_file_body.
    destruct (add_tracker_init_body file_path w) as [[b|e] w']; eauto.
  - intros file_path e Hr. rewrite add_tracker_init_to_file_body.
    unfold add_tracker_init_body, bind. rewrite Hr. reflexivity.
  - intros file_path content e Hr Hg Hw. rewrite add_tracker_init_to_file_body.
    unfold add_tracker_init_body, bind. rewrite Hr, Hg, Hw. reflexivity.
  - intros repo_path changed w1 target w2 e w3 Hdep Htarget Hbody.
    unfold add_tracker_to_repo, bind, record.
    rewrite Hdep. unfold add_initialization, bind. rewrite Htarget.
    rewrite add_tracker_init_to_file_body, Hbody.
    unfold ret. rewrite orb_false_r. reflexivity.
Qed.

End InitializationPatcher.

(** ** The insertion below the main guard *)

Lemma import_line_idx_from_app (i idx : nat) (a b : list str) :
  import_line_idx_from i idx (a ++ b) =
  import_line_idx_from (i + List.length a) (import_line_idx_from i idx a) b.
Proof.
  revert i idx. induction a as [|l a IH]; intros i idx; simpl.
  - rewrite Nat.add_0_r. reflexivity.
  - rewrite IH. f_equal. lia.
Qed.

Lemma import_line_idx_from_none (i idx : nat) (ls : list str) :
  Forall (fun l => is_import_line l = false) ls ->
  import_line_idx_from i idx ls = idx.
Proof.
  intros H. revert i. induction H as [|l ls Hl _ IH]; intros i; simpl.
  - reflexivity.
  - rewrite Hl. apply IH.
Qed.

Lemma import_line_idx_from_range (i idx : nat) (ls : list str) :
  import_line_idx_from i idx ls = idx \/
  i < import_line_idx_from i idx ls <= i + List.length ls.
Proof.
  revert i idx. induction ls as [|l ls IH]; intros i idx; simpl.
  - left. reflexivity.
  - destruct (is_import_line l).
    + destruct (IH (S i) (S i)) as [->|H]; right; lia.
    + destruct (IH (S i) idx) as [->|H]; [left; reflexivity | right; lia].
Qed.

Lemma insert_at_app_l {A} (i : nat) (x : A) (a b : list A) :
  i <= List.length a -> insert_at i x (a ++ b) = insert_at i x a ++ b.
Proof.
  intros H. unfold insert_at.
  rewrite firstn_app, skipn_app.
  replace (i - List.length a) with 0 by lia. simpl.
  rewrite app_nil_r, <- app_assoc. reflexivity.
Qed.

Lemma insert_at_app_r {A} (i : nat) (x : A) (a b : list A) :
  List.length a <= i ->
  insert_at i x (a ++ b) = a ++ insert_at (i - List.length a) x b.
Proof.
  intros H. unfold insert_at.
  rewrite firstn_app, skipn_app.
  rewrite firstn_all2 by lia. rewrite skipn_all2 by lia.
  simpl. rewrite <- app_assoc. reflexivity.
Qed.

Lemma skippable_not_import (l : str) :
  is_substantive l = false -> is_import_line l = false.
Proof.
  unfold is_substantive, is_import_line.
  destruct (strip l) as [|c r]; [reflexivity|].
  intros H. apply negb_false_iff in H. simpl in H.
  destruct (Ascii.eqb_spec "#"%char c) as [<-|]; [reflexivity | discriminate].
Qed.

Lemma guard_block_insert_at (gap : list str) (stmt : str) (rest : list str) :
  Forall (fun l => in_block l = true /\ is_substantive l = false) gap ->
  in_block stmt = true -> is_substantive stmt = true ->
  guard_block_insert (gap ++ stmt :: rest) =
  Some (gap ++ GUARD_CALL :: stmt :: rest).
Proof.
  intros Hgap Hb Hs. induction Hgap as [|l gap [Hlb Hls] _ IH]; simpl.
  - rewrite Hb, Hs. reflexivity.
  - rewrite Hlb, Hls, IH. reflexivity.
Qed.

Lemma main_guard_insert_at (before : list str) (guard : str)
  (gap : list str) (stmt : str) (rest : list str) :
  Forall (fun l => is_guard_line l = false) before ->
  is_guard_line guard = true ->
  Forall (fun l => in_block l = true /\ is_substantive l = false) gap ->
  in_block stmt = true -> is_substantive stmt = true ->
  main_guard_insert (before ++ guard :: gap ++ stmt :: rest) =
  Some (before ++ guard :: gap ++ GUARD_CALL :: stmt :: rest).
Proof.
  intros Hbefore Hg Hgap Hb Hs.
  induction Hbefore as [|l before Hl _ IH]; simpl.
  - rewrite Hg, guard_block_insert_at by assumption. reflexivity.
  - rewrite Hl, IH. reflexivity.
Qed.

Lemma Forall_insert_at {A} (P : A -> Prop) (i : nat) (x : A) (l : list A) :
  P x -> Forall P l -> Forall P (insert_at i x l).
Proof.
  intros Hx Hl. unfold insert_at. apply Forall_app. split.
  - apply Forall_forall. intros y Hy. rewrite Forall_forall in Hl.
    apply Hl. rewrite <- (firstn_skipn i l). apply in_or_app. left. assumption.
  - constructor; [assumption|].
    apply Forall_forall. intros y Hy. rewrite Forall_forall in Hl.
    apply Hl. rewrite <- (firstn_skipn i l). apply in_or_app. right. assumption.
Qed.

(** Where the import line goes when the file holds the guard, lines to skip
    and a statement: above the guard or below the statement, never between
    them. *)
Lemma import_around_guard (before gap : list str) (stmt : str)
  (rest : list str) :
  Forall (fun l => is_guard_line l = false) before ->
  Forall (fun l => in_block l = true /\ is_substantive l = false) gap ->
  exists A B,
    insert_at (import_line_idx (before ++ MAIN_GUARD :: gap ++ stmt :: rest))
      IMPORT_STMT (before ++ MAIN_GUARD :: gap ++ stmt :: rest)
    = A ++ MAIN_GUARD :: gap ++ stmt :: B /\
    Forall (fun l => is_guard_line l = false) A.
Proof.
  intros Hbefore Hgap.
  assert (Hmid : Forall (fun l => is_import_line l = false) (MAIN_GUARD :: gap)).
  { constructor; [reflexivity|].
    eapply Forall_impl; [|exact Hgap]. intros l [_ Hl].
    apply skippable_not_import, Hl. }
  set (k1 := import_line_idx_from 0 0 before).
  assert (Hk1 : k1 <= List.length before).
  { subst k1. destruct (import_line_idx_from_range 0 0 before) as [->|H]; lia. }
  assert (Hidx :
    import_line_idx (before ++ MAIN_GUARD :: gap ++ stmt :: rest) =
    import_line_idx_from (List.length before + S (List.length gap)) k1
      (stmt :: rest)).
  { unfold import_line_idx.
    change (before ++ MAIN_GUARD :: gap ++ stmt :: rest)
      with (before ++ (MAIN_GUARD :: gap) ++ stmt :: rest).
    rewrite !import_line_idx_from_app.
    rewrite (import_line_idx_from_none _ _ _ Hmid). reflexivity. }
  rewrite Hidx. clear Hidx.
  destruct (import_line_idx_from_range
              (List.length before + S (List.length gap)) k1
              (stmt :: rest)) as [->|Hk].
  - exists (insert_at k1 IMPORT_STMT before), rest. split.
    + apply insert_at_app_l. assumption.
    + apply Forall_insert_at; [reflexivity | assumption].
  - set (k := import_line_idx_from _ k1 (stmt :: rest)) in *.
    simpl List.length in Hk.
    exists before,
      (insert_at (k - List.length before - S (List.length gap) - 1)
         IMPORT_STMT rest).
    split; [|assumption].
    rewrite insert_at_app_r by lia. f_equal.
    change (MAIN_GUARD :: gap ++ stmt :: rest)
      with ((MAIN_GUARD :: gap) ++ [stmt] ++ rest).
    rewrite (insert_at_app_r _ _ (MAIN_GUARD :: gap)) by (simpl; lia).
    rewrite (insert_at_app_r _ _ [stmt] rest) by (simpl; lia).
    simpl. repeat (f_equal; try lia).
Qed.

Section MainGuard.

Context {E : Type}.

(** The insertion below the guard where the code does it: in a writable
    file without the tracker import, when the first line that names both
    [__name__] and [__main__] is the guard line
    [if __name__ == "__main__":] and the guard is followed, after blank
    lines and indented comment lines only, by an indented statement, the
    patcher writes the file back with the call, indented by 4 spaces, as a
    new line immediately before that statement, and returns true.  The
    lines around are those of the file with the import line inserted. *)
Theorem main_guard_statement_patched (file_path : path) (w : world E)
  (content : str) (size : N) (before gap : list str) (stmt : str)
  (rest : list str) :
  lookup file_path (fs w) = Some (File (Some content) size true) ->
  has_import content = false ->
  split_nl content = before ++ MAIN_GUARD :: gap ++ stmt :: rest ->
  Forall (fun l => is_guard_line l = false) before ->
  Forall (fun l => in_block l = true /\ is_substantive l = false) gap ->
  startswith (py " ") stmt || startswith [tab] stmt = true ->
  is_substantive stmt = true ->
  exists A B n' size',
    insert_at (import_line_idx (split_nl content)) IMPORT_STMT
      (split_nl content) = A ++ MAIN_GUARD :: gap ++ stmt :: B /\
    add_tracker_init_to_file file_path w =
    (Ok true, logged INFO (patched_msg file_path) (set_fs n' w)) /\
    lookup file_path n' =
    Some (File (Some (join_nl (A ++ MAIN_GUARD :: gap ++ GUARD_CALL :: stmt :: B)))
            size' true).
Proof.
  intros Hl Hg Hsplit Hbefore Hgap Hind Hsub.
  destruct (import_around_guard before gap stmt rest Hbefore Hgap)
    as (A & B & Hins & HA).
  assert (Hblock : in_block stmt = true).
  { unfold in_block. rewrite <- orb_assoc, Hind. apply orb_true_r. }
  assert (Hlines : patched_lines content =
                   A ++ MAIN_GUARD :: gap ++ GUARD_CALL :: stmt :: B).
  { unfold patched_lines. rewrite Hsplit, Hins.
    rewrite main_guard_insert_at by (assumption || reflexivity). reflexivity. }
  set (text := join_nl (A ++ MAIN_GUARD :: gap ++ GUARD_CALL :: stmt :: B)).
  destruct (update_ok_existing file_path (overwrite file_path text) (fs w)
              _ _ Hl eq_refl) as [n' Hu].
  exists A, B, n', (utf8_len text).
  split; [rewrite Hsplit; exact Hins|].
  split.
  - rewrite add_tracker_init_to_file_body.
    pose proof (add_tracker_init_body_cases file_path w) as Hc.
    rewrite Hl, Hg, Hlines in Hc. fold text in Hc. rewrite Hu in Hc.
    rewrite Hc. reflexivity.
  - destruct (update_lookup_same _ _ _ _ Hu) as (c' & Hl' & Hov).
    rewrite Hl in Hov. simpl in Hov. injection Hov as <-. exact Hl'.
Qed.

End MainGuard.

(** ** Dependency Patcher *)

Section DependencyPatcher.

Context {E : Type}.

Ltac edits_at_run :=
  repeat match goal with
    | |- context [lookup ?p ?n] =>
        let H := fresh "Hl" in destruct (lookup p n) as [[[?|] ? ?|?]|] eqn:H
    | |- context [update ?p ?u ?n] =>
        let H := fresh "Hu" in destruct (update p u n) eqn:H
    | |- context [if ?b then _ else _] => destruct b
    | |- context [match ?o with Some _ => _ | None => _ end] => destruct o
    | |- context [let (_, _) := ?x in _] => destruct x
    end;
  simpl; try (left; reflexivity); try (right; eexists; eassumption).

Lemma add_to_requirements_edits (p : path) :
  edits_at p (add_to_requirements (E := E) p).
Proof.
  intros w.
  unfold add_to_requirements, bind, read_text, append_text, store, logger, ret.
  edits_at_run.
Qed.

Lemma add_to_pyproject_edits (p : path) :
  edits_at p (add_to_pyproject (E := E) p).
Proof.
  intros w.
  unfold add_to_pyproject, bind, read_text, write_text, store, logger, ret.
  edits_at_run.
Qed.

Lemma add_to_setup_py_edits (p : path) :
  edits_at p (add_to_setup_py (E := E) p).
Proof.
  intros w.
  unfold add_to_setup_py, bind, read_text, write_text, store, logger, ret.
  edits_at_run.
Qed.

Lemma add_to_pipfile_edits (p : path) :
  edits_at p (add_to_pipfile (E := E) p).
Proof.
  intros w.
  unfold add_to_pipfile, bind, read_text, write_text, store, logger, ret.
  edits_at_run.
Qed.

Lemma dependency_files_edit (dep_file : str) (add_func : path -> M bool)
  (p : path) :
  In (dep_file, add_func) (DEPENDENCY_FILES (E := E)) -> edits_at p (add_func p).
Proof.
  unfold DEPENDENCY_FILES. simpl.
  intros [H|[H|[H|[H|[]]]]]; injection H as _ <-.
  - apply add_to_requirements_edits.
  - apply add_to_pyproject_edits.
  - apply add_to_setup_py_edits.
  - apply add_to_pipfile_edits.
Qed.

(** The loop stops at the first manifest that exists and hands over to its
    patcher. *)
Lemma add_dependency_from_first (repo_path : path)
  (files : list (str * (path -> M bool))) (w : world E) (k : nat)
  (dep_file : str) (add_func : path -> M bool) :
  nth_error files k = Some (dep_file, add_func) ->
  lookup (path_join repo_path dep_file) (fs w) <> None ->
  (forall j other f, j < k -> nth_error files j = Some (other, f) ->
                     lookup (path_join repo_path other) (fs w) = None) ->
  add_dependency_from repo_path files w = add_func (path_join repo_path dep_file) w.
Proof.
  revert k. induction files as [|[name f] files IH]; intros k Hk Hp Hearlier.
  - destruct k; discriminate.
  - simpl. unfold bind at 1. unfold path_exists.
    destruct k as [|k].
    + injection Hk as -> ->.
      destruct (lookup (path_join repo_path dep_file) (fs w)); [reflexivity|].
      congruence.
    + rewrite (Hearlier 0 name f) by (simpl; (lia || reflexivity)).
      apply (IH k Hk Hp).
      intros j other g Hj Hn. apply (Hearlier (S j) other g); [lia | exact Hn].
Qed.

Lemma add_dependency_from_none (repo_path : path)
  (files : list (str * (path -> M bool))) (w : world E) :
  (forall dep_file add_func, In (dep_file, add_func) files ->
     lookup (path_join repo_path dep_file) (fs w) = None) ->
  add_dependency_from repo_path files w = add_dependency_from repo_path [] w.
Proof.
  induction files as [|[name f] files IH]; intros Hnone; [reflexivity|].
  simpl. unfold bind at 1. unfold path_exists.
  rewrite (Hnone name f) by (left; reflexivity).
  apply IH. intros d g Hin. apply (Hnone d g). right. assumption.
Qed.

(** C6: the manifests are tried in the fixed order requirements.txt,
    pyproject.toml, setup.py, Pipfile.  When the first that exists at the
    root is [dep_file], [add_dependency] is the patcher of [dep_file] run on
    it, and every path apart from that file leads to the same node as
    before: in particular the manifests of later preference are unchanged.
    When none of the four exists at the root, requirements.txt is created
    with the text [dbdemos-tracker] followed by a newline, nothing else is
    changed, and a change is reported. *)
Theorem add_dependency_sole_target (repo_path : path) (w : world E) :
  map fst (DEPENDENCY_FILES (E := E))
  = [py "requirements.txt"; py "pyproject.toml"; py "setup.py"; py "Pipfile"] /\
  (forall k dep_file add_func,
      nth_error DEPENDENCY_FILES k = Some (dep_file, add_func) ->
      lookup (path_join repo_path dep_file) (fs w) <> None ->
      (forall j other f,
          j < k -> nth_error (DEPENDENCY_FILES (E := E)) j = Some (other, f) ->
          lookup (path_join repo_path other) (fs w) = None) ->
      add_dependency repo_path w = add_func (path_join repo_path dep_file) w /\
      forall q, apart (path_join repo_path dep_file) q ->
        lookup q (fs (snd (add_dependency repo_path w))) = lookup q (fs w)) /\
  (forall entries,
      lookup repo_path (fs w) = Some (Dir entries) ->
      (forall dep_file add_func,
          In (dep_file, add_func) (DEPENDENCY_FILES (E := E)) ->
          lookup (path_join repo_path dep_file) (fs w) = None) ->
      exists n',
        add_dependency repo_path w =
        (Ok true,
         logged INFO (py "Created requirements.txt with dbdemos-tracker")
           (set_fs n' w)) /\
        lookup (path_join repo_path REQUIREMENTS_TXT) n' =
        Some (File (Some DEP_LINE) (utf8_len DEP_LINE) true) /\
        split_nl DEP_LINE = [DEP_NAME; []] /\
        forall q, apart (path_join repo_path REQUIREMENTS_TXT) q ->
          lookup q n' = lookup q (fs w)).
Proof.
  split; [reflexivity|]. split.
  - intros k dep_file add_func Hk Hp Hearlier.
    assert (Hrun : add_dependency repo_path w =
                   add_func (path_join repo_path dep_file) w).
    { unfold add_dependency. eapply add_dependency_from_first; eassumption. }
    split; [exact Hrun|].
    intros q [Hq1 Hq2]. rewrite Hrun.
    destruct (dependency_files_edit dep_file add_func
                (path_join repo_path dep_file)
                (nth_error_In _ _ Hk) w) as [->|[upd Hu]]; [reflexivity|].
    eapply update_lookup_other; eassumption.
  - intros entries Hroot Hnone.
    assert (Hreq : assoc REQUIREMENTS_TXT entries = None).
    { specialize (Hnone REQUIREMENTS_TXT add_to_requirements
                    (or_introl eq_refl)).
      unfold path_join in Hnone. rewrite lookup_app, Hroot in Hnone.
      simpl in Hnone. destruct (assoc REQUIREMENTS_TXT entries);
        [discriminate | reflexivity]. }
    destruct (update_ok_new repo_path REQUIREMENTS_TXT
                (overwrite (path_join repo_path REQUIREMENTS_TXT) DEP_LINE)
                (fs w) _ entries Hroot Hreq eq_refl) as [n' Hu].
    exists n'. split; [|split; [|split]].
    + unfold add_dependency. rewrite add_dependency_from_none by exact Hnone.
      simpl. unfold bind, write_text, store. rewrite Hu. reflexivity.
    + destruct (update_lookup_same _ _ _ _ Hu) as (c' & Hl' & Hov).
      rewrite (Hnone REQUIREMENTS_TXT add_to_requirements
                 (or_introl eq_refl)) in Hov.
      simpl in Hov. injection Hov as <-. exact Hl'.
    + reflexivity.
    + intros q [Hq1 Hq2]. eapply update_lookup_other; eassumption.
Qed.

End DependencyPatcher.

(** ** Detector *)

Lemma search_tracker_import_eq (s : str) :
  search_tracker_import s =
  kw_module_at (py "from") s || kw_module_at (py "import") s ||
  match s with
  | [] => false
  | _ :: s' => search_tracker_import s'
  end.
Proof. destruct s; reflexivity. Qed.

Lemma search_tracker_import_suffix (a s : str) :
  search_tracker_import s = true -> search_tracker_import (a ++ s) = true.
Proof.
  intros H. induction a as [|c a IH]; simpl; [assumption|].
  rewrite IH. apply orb_true_r.
Qed.

Lemma skipn_length_app {A} (a b : list A) : skipn (List.length a) (a ++ b) = b.
Proof.
  rewrite skipn_app, skipn_all, Nat.sub_diag. reflexivity.
Qed.

Lemma kw_module_at_spaces (kw ws post : str) :
  ws <> [] -> Forall (fun c => is_space c = true) ws ->
  kw_module_at kw (kw ++ ws ++ MODULE_NAME ++ post) = true.
Proof.
  intros Hne Hws. unfold kw_module_at.
  rewrite startswith_app, skipn_length_app.
  destruct ws as [|c r]; [congruence|].
  inversion Hws as [|? ? Hc Hr]; subst.
  change ((c :: r) ++ MODULE_NAME ++ post) with (c :: r ++ MODULE_NAME ++ post).
  cbv beta iota. rewrite Hc.
  rewrite lstrip_spaces_then; [apply startswith_app | assumption | reflexivity].
Qed.

(** The pattern is found wherever a keyword, spaces and the module name
    follow one another, whatever precedes and whatever follows. *)
Lemma search_tracker_import_found (pre kw ws post : str) :
  kw = py "from" \/ kw = py "import" ->
  ws <> [] -> Forall (fun c => is_space c = true) ws ->
  search_tracker_import (pre ++ kw ++ ws ++ MODULE_NAME ++ post) = true.
Proof.
  intros Hkw Hne Hws. apply search_tracker_import_suffix.
  pose proof (kw_module_at_spaces kw ws post Hne Hws) as Hat.
  rewrite search_tracker_import_eq.
  destruct Hkw as [-> | ->]; rewrite Hat; [reflexivity|].
  rewrite orb_true_r. reflexivity.
Qed.

(** The walk reaches every directory below the top whose path has no hidden
    component, and lists the files it holds. *)
Lemma os_walk_reaches (root dirs : path) (n : node) (es : list (str * node)) :
  is_dir n = true ->
  lookup dirs n = Some (Dir es) ->
  Forall (fun d => not_hidden d = true) dirs ->
  exists ds,
    In (root ++ dirs, ds, map fst (filter (fun e => negb (is_dir (snd e))) es))
       (os_walk not_hidden root n).
Proof.
  revert root n. induction dirs as [|d dirs IH]; intros root n Hn Hl Hd.
  - simpl in Hl. injection Hl as ->. rewrite app_nil_r. simpl.
    eexists. left. reflexivity.
  - destruct n as [|es0]; [discriminate|]. simpl in Hl.
    destruct (assoc d es0) as [c|] eqn:Hc; [|discriminate].
    inversion Hd as [|? ? Hd1 Hd2]; subst.
    assert (Hcd : is_dir c = true).
    { destruct c; [|reflexivity]. destruct dirs; discriminate. }
    destruct (IH (path_join root d) c Hcd Hl Hd2) as [ds Hin].
    exists ds. simpl. right. apply in_flat_map.
    exists (d, c). split; [apply assoc_In; assumption|].
    simpl. rewrite Hcd, Hd1. simpl.
    unfold path_join in Hin. rewrite <- app_assoc in Hin. exact Hin.
Qed.

Lemma assoc_file_listed (name : str) (es : list (str * node)) (c : node) :
  assoc name es = Some c -> is_dir c = false ->
  In name (map fst (filter (fun e => negb (is_dir (snd e))) es)).
Proof.
  intros Ha Hc. apply in_map_iff. exists (name, c). split; [reflexivity|].
  apply filter_In. split; [apply assoc_In; assumption|].
  simpl. rewrite Hc. reflexivity.
Qed.

Section Detector.

Context {E : Type}.

Lemma quiet_refl (w : world E) : quiet w w.
Proof. repeat split. Qed.

Lemma quiet_trans (w1 w2 w3 : world E) : quiet w1 w2 -> quiet w2 w3 -> quiet w1 w3.
Proof. unfold quiet. intros (-> & -> & ->) (-> & -> & ->). repeat split. Qed.

Lemma quiet_logged (lvl : level) (msg : str) (w : world E) :
  quiet w (logged lvl msg w).
Proof. repeat split. Qed.

(** One file of the scan: a value comes back, only the log may have grown,
    and for a Python file that can be read the value is whether the pattern
    is found in its text. *)
Lemma check_imports_in_file_quiet (root : path) (file : str) (w : world E) :
  exists b w',
    check_imports_in_file root file w = (Ok b, w') /\ quiet w w' /\
    (forall content size wr,
        endswith DOT_PY file = true ->
        lookup (path_join root file) (fs w)
        = Some (File (Some content) size wr) ->
        b = search_tracker_import content).
Proof.
  unfold check_imports_in_file, try_except, bind, read_text, logger, ret.
  destruct (endswith DOT_PY file).
  - destruct (lookup (path_join root file) (fs w)) as [[[c|] s wr|es]|] eqn:Hl;
      do 2 eexists; (split; [reflexivity|]);
      (split; [first [apply quiet_refl | apply quiet_logged]|]);
      intros content size wr' _ [=]; subst; reflexivity.
  - exists false, w. split; [reflexivity|]. split; [apply quiet_refl|].
    intros content size wr [=].
Qed.

Lemma check_imports_in_files_quiet (root : path) (files : list str)
  (w : world E) :
  exists b w', check_imports_in_files root files w = (Ok b, w') /\ quiet w w'.
Proof.
  revert w. induction files as [|file rest IH]; intros w; simpl.
  - exists false, w. split; [reflexivity | apply quiet_refl].
  - unfold bind.
    destruct (check_imports_in_file_quiet root file w) as (b & w1 & -> & Hq & _).
    destruct b.
    + exists true, w1. split; [reflexivity | assumption].
    + destruct (IH w1) as (b & w2 & -> & Hq2).
      exists b, w2. split; [reflexivity | eapply quiet_trans; eassumption].
Qed.

Lemma check_imports_in_files_found (root : path) (files : list str)
  (file content : str) (size : N) (wr : bool) (w : world E) :
  In file files -> endswith DOT_PY file = true ->
  lookup (path_join root file) (fs w) = Some (File (Some content) size wr) ->
  search_tracker_import content = true ->
  exists w', check_imports_in_files root files w = (Ok true, w') /\ quiet w w'.
Proof.
  intros Hin Hpy Hl Hs. revert w Hl.
  induction files as [|f rest IH]; intros w Hl; [contradiction|]. simpl.
  unfold bind.
  destruct (check_imports_in_file_quiet root f w) as (b & w1 & -> & Hq & Hb).
  destruct b.
  - exists w1. split; [reflexivity | assumption].
  - destruct Hin as [->|Hin].
    + rewrite <- (Hb _ _ _ Hpy Hl) in Hs. discriminate.
    + destruct (IH Hin w1) as (w2 & -> & Hq2).
      * destruct Hq as (-> & _). exact Hl.
      * exists w2. split; [reflexivity | eapply quiet_trans; eassumption].
Qed.

Lemma check_imports_in_walk_found
  (triples : list (path * list str * list str)) (root : path)
  (dirs files : list str) (file content : str) (size : N) (wr : bool)
  (w : world E) :
  In (root, dirs, files) triples ->
  In file files -> endswith DOT_PY file = true ->
  lookup (path_join root file) (fs w) = Some (File (Some content) size wr) ->
  search_tracker_import content = true ->
  exists w', check_imports_in_walk triples w = (Ok true, w') /\ quiet w w'.
Proof.
  intros Hin Hfile Hpy Hl Hs. revert w Hl.
  induction triples as [|[[r ds] fls] rest IH]; intros w Hl; [contradiction|].
  simpl. unfold bind at 1.
  destruct Hin as [[= -> -> ->]|Hin].
  - destruct (check_imports_in_files_found root files file content size wr w
                Hfile Hpy Hl Hs) as (w1 & -> & Hq).
    exists w1. split; [reflexivity | assumption].
  - destruct (check_imports_in_files_quiet r fls w) as (b & w1 & -> & Hq).
    destruct b.
    + exists w1. split; [reflexivity | assumption].
    + destruct (IH Hin w1) as (w2 & -> & Hq2).
      * destruct Hq as (-> & _). exact Hl.
      * exists w2. split; [reflexivity | eapply quiet_trans; eassumption].
Qed.

(** C9: a Python file below the repository root, reached through
    directories that are not hidden, whose text holds [from] or [import],
    one or more spaces and [dbdemos_tracker], makes the source scan return
    true, whatever precedes the keyword (a comment sign, a quote) and
    whatever follows the module name (as in [dbdemos_tracker_utils]): the
    pattern has no boundary on either side. *)
Theorem check_tracker_imports_any_occurrence (repo_path dirs : path)
  (file : str) (w : world E) (pre kw ws post : str) (size : N) (wr : bool) :
  lookup (repo_path ++ dirs ++ [file]) (fs w)
  = Some (File (Some (pre ++ kw ++ ws ++ MODULE_NAME ++ post)) size wr) ->
  Forall (fun d => startswith (py ".") d = false) dirs ->
  endswith DOT_PY file = true ->
  kw = py "from" \/ kw = py "import" ->
  ws <> [] -> Forall (fun c => is_space c = true) ws ->
  exists w', check_tracker_imports repo_path w = (Ok true, w') /\ quiet w w'.
Proof.
  intros Hl Hdirs Hpy Hkw Hne Hws.
  pose proof (search_tracker_import_found pre kw ws post Hkw Hne Hws) as Hs.
  pose proof Hl as Hfile.
  rewrite lookup_app in Hl.
  destruct (lookup repo_path (fs w)) as [top|] eqn:Htop; [|discriminate].
  rewrite lookup_app in Hl.
  destruct (lookup dirs top) as [d|] eqn:Hd; [|discriminate].
  destruct d as [|es]; [discriminate|]. simpl in Hl.
  destruct (assoc file es) as [c|] eqn:Hc; [|discriminate].
  injection Hl as ->.
  assert (Htopdir : is_dir top = true).
  { destruct top; [|reflexivity]. destruct dirs; discriminate. }
  assert (Hvisible : Forall (fun d => not_hidden d = true) dirs).
  { eapply Forall_impl; [|exact Hdirs]. intros a Ha. unfold not_hidden.
    rewrite Ha. reflexivity. }
  destruct (os_walk_reaches repo_path dirs top es Htopdir Hd Hvisible)
    as [ds Hin].
  unfold check_tracker_imports, bind, walk. rewrite Htop.
  eapply check_imports_in_walk_found.
  - exact Hin.
  - eapply assoc_file_listed; [exact Hc | reflexivity].
  - exact Hpy.
  - unfold path_join. rewrite <- app_assoc. exact Hfile.
  - exact Hs.
Qed.

(** One manifest of the detection: a value comes back, only the log may
    have grown, and for a manifest that can be read the value is whether
    its text holds the dependency name. *)
Lemma check_dependency_file_quiet (repo_path : path) (dep_file : str)
  (w : world E) :
  exists b w',
    check_dependency_file repo_path dep_file w = (Ok b, w') /\ quiet w w' /\
    (forall content size wr,
        lookup (path_join repo_path dep_file) (fs w)
        = Some (File (Some content) size wr) ->
        b = contains DEP_NAME content).
Proof.
  unfold check_dependency_file, try_except, bind, path_exists, read_text,
    logger, ret. cbv beta iota zeta.
  destruct (lookup (path_join repo_path dep_file) (fs w))
    as [[[c|] s wr|es]|] eqn:Hl;
    cbv beta iota; rewrite ?Hl;
    do 2 eexists; (split; [reflexivity|]);
    (split; [first [apply quiet_refl | apply quiet_logged]|]);
    intros content size wr' [=]; subst; reflexivity.
Qed.

Lemma check_dependency_files_from_found (repo_path : path) (files : list str)
  (dep_file content : str) (size : N) (wr : bool) (w : world E) :
  In dep_file files ->
  lookup (path_join repo_path dep_file) (fs w)
  = Some (File (Some content) size wr) ->
  contains DEP_NAME content = true ->
  exists w',
    check_dependency_files_from repo_path files w = (Ok true, w') /\ quiet w w'.
Proof.
  intros Hin Hl Hc. revert w Hl.
  induction files as [|f rest IH]; intros w Hl; [contradiction|]. simpl.
  unfold bind.
  destruct (check_dependency_file_quiet repo_path f w)
    as (b & w1 & -> & Hq & Hb).
  destruct b.
  - exists w1. split; [reflexivity | assumption].
  - destruct Hin as [->|Hin].
    + rewrite <- (Hb _ _ _ Hl) in Hc. discriminate.
    + destruct (IH Hin w1) as (w2 & -> & Hq2).
      * destruct Hq as (-> & _). exact Hl.
      * exists w2. split; [reflexivity | eapply quiet_trans; eassumption].
Qed.

Lemma check_tracker_exists_manifest (repo_path : path)
  (dep_file content : str) (size : N) (wr : bool) (w : world E) :
  In dep_file DETECTOR_FILES ->
  lookup (path_join repo_path dep_file) (fs w)
  = Some (File (Some content) size wr) ->
  contains DEP_NAME content = true ->
  exists w', check_tracker_exists repo_path w = (Ok true, w') /\ quiet w w'.
Proof.
  intros Hin Hl Hc.
  destruct (check_dependency_files_from_found repo_path DETECTOR_FILES
              dep_file content size wr w Hin Hl Hc) as (w1 & Hrun & Hq).
  unfold check_tracker_exists, check_dependency_files, bind.
  rewrite Hrun. unfold logger, ret. eexists. split; [reflexivity|].
  eapply quiet_trans; [exact Hq | apply quiet_logged].
Qed.

End Detector.

(** ** Orchestrator *)

Section OrchestratorProperties.

Context {E : Type} (api : collaborators E).

Lemma external_calls {A} (op : ext_op E A) (w w' : world E) (r : result A) :
  external op w = (r, w') -> calls w' = calls w.
Proof.
  unfold external. destruct (op (fs w) (ext w)) as [[r0 n] e].
  intros [= _ <-]. reflexivity.
Qed.

Lemma clone_repository_calls (repo_url : str) (dir : path) (w w' : world E)
  (r : result path) :
  clone_repository api repo_url dir w = (r, w') -> calls w' = calls w.
Proof.
  unfold clone_repository, bind, logger, ret.
  destruct (external _ _) as [[[]|e] w1] eqn:Hext; intros [= _ <-];
    apply external_calls in Hext; exact Hext.
Qed.

(** C5: when the clone holds one of the manifests the Detector knows, and
    the text of that manifest holds the dependency name, the Detector
    returns true and [process_single_repository] returns after the calls
    to [clone_repository] and [check_tracker_exists] only: neither
    [add_tracker_to_repo] nor, through it, the Dependency Patcher or the
    Initialization Patcher is called. *)
Theorem tracker_in_manifest_skips_patching (repo_url : str)
  (w w1 w2 : world E) (repo_path : path) (dep_file content : str)
  (size : N) (wr : bool) :
  clone_repository api repo_url temp_dir
    (recorded (CloneRepository repo_url) (set_fs (Dir []) w))
  = (Ok repo_path, w1) ->
  external (open_repo api repo_path) w1 = (Ok tt, w2) ->
  In dep_file DETECTOR_FILES ->
  lookup (path_join repo_path dep_file) (fs w2)
  = Some (File (Some content) size wr) ->
  contains DEP_NAME content = true ->
  (exists w3, check_tracker_exists repo_path w2 = (Ok true, w3) /\ quiet w2 w3) /\
  (exists w4,
      process_single_repository api repo_url w = (Ok tt, w4) /\
      calls w4 =
      calls w ++ [CloneRepository repo_url; CheckTrackerExists repo_path]).
Proof.
  intros Hclone Hopen Hin Hl Hc. split.
  - eapply check_tracker_exists_manifest; eassumption.
  - destruct (check_tracker_exists_manifest repo_path dep_file content size wr
                (recorded (CheckTrackerExists repo_path) w2) Hin Hl Hc)
      as (w3 & Hrun & Hq).
    unfold process_single_repository, try_finally, try_except, bind, record.
    rewrite Hclone, Hopen, Hrun.
    unfold logger. eexists. split; [reflexivity|].
    simpl. destruct Hq as (_ & -> & _). simpl.
    rewrite (external_calls _ _ _ _ Hopen).
    rewrite (clone_repository_calls _ _ _ _ _ Hclone). simpl.
    rewrite <- app_assoc. reflexivity.
Qed.

(** One round of the loop of [process_repositories]. *)
Lemma process_repositories_cons (repo_url : str) (rest : list str)
  (w : world E) :
  process_repositories api (repo_url :: rest) w =
  match process_single_repository api repo_url
          (logged INFO (processing_msg repo_url) w) with
  | (Ok _, w') => process_repositories api rest w'
  | (Raise e, w') =>
      process_repositories api rest (logged ERROR (failure_msg repo_url e) w')
  end.
Proof.
  simpl. unfold bind, try_except, logger.
  destruct (process_single_repository api repo_url _) as [[[]|e] w'];
    reflexivity.
Qed.

Lemma process_repositories_returns (repo_urls : list str) (w : world E) :
  exists w', process_repositories api repo_urls w = (Ok tt, w').
Proof.
  revert w. induction repo_urls as [|u rest IH]; intros w.
  - exists w. reflexivity.
  - rewrite process_repositories_cons.
    destruct (process_single_repository api u _) as [[[]|e] w']; apply IH.
Qed.

Lemma process_repositories_app (before after : list str) (w w1 : world E) :
  process_repositories api before w = (Ok tt, w1) ->
  process_repositories api (before ++ after) w =
  process_repositories api after w1.
Proof.
  revert w. induction before as [|u rest IH]; intros w H.
  - injection H as ->. reflexivity.
  - simpl app. rewrite process_repositories_cons in *.
    destruct (process_single_repository api u _) as [[[]|e] w']; apply IH, H.
Qed.

(** C8: in a batch, when the processing of one repository raises, the
    exception is caught, an error naming the repository is logged, and the
    repositories after it are processed from there as a batch of their
    own; whatever fails, the batch as a whole returns without raising. *)
Theorem process_repositories_isolates_failure (before : list str)
  (repo_url : str) (after : list str) (w w1 w2 : world E) (e : exn) :
  process_repositories api before w = (Ok tt, w1) ->
  process_single_repository api repo_url
    (logged INFO (processing_msg repo_url) w1) = (Raise e, w2) ->
  process_repositories api (before ++ repo_url :: after) w =
  process_repositories api after (logged ERROR (failure_msg repo_url e) w2) /\
  exists w', process_repositories api (before ++ repo_url :: after) w = (Ok tt, w').
Proof.
  intros Hbefore Hfail. split.
  - rewrite (process_repositories_app _ _ _ _ Hbefore).
    rewrite process_repositories_cons, Hfail. reflexivity.
  - apply process_repositories_returns.
Qed.

End OrchestratorProperties.

(** ** What the manifest patchers write *)

Lemma lstrip_suffix (s : str) : exists ws, s = ws ++ lstrip s.
Proof.
  induction s as [|c s [ws IH]]; simpl.
  - exists []. reflexivity.
  - destruct (is_space c).
    + exists (c :: ws). simpl. rewrite <- IH. reflexivity.
    + exists []. reflexivity.
Qed.

Lemma rstrip_prefix (s : str) : exists ws, s = rstrip s ++ ws.
Proof.
  unfold rstrip. destruct (lstrip_suffix (rev s)) as [ws H].
  exists (rev ws). rewrite <- rev_app_distr, <- H, rev_involutive. reflexivity.
Qed.

(** A line holds what is left of it once stripped. *)
Lemma contains_strip (s : str) : contains (strip s) s = true.
Proof.
  unfold strip.
  destruct (lstrip_suffix s) as [a Ha].
  destruct (rstrip_prefix (lstrip s)) as [b Hb].
  rewrite Ha at 2. rewrite Hb at 2. apply contains_mid.
Qed.

Lemma split_nl_app_nl (a b : str) :
  split_nl (a ++ nl :: b) = split_nl a ++ split_nl b.
Proof.
  induction a as [|c a IH]; simpl.
  - reflexivity.
  - destruct (Ascii.eqb c nl).
    + rewrite IH. reflexivity.
    + rewrite IH. pose proof (split_nl_nonempty a) as Hne.
      destruct (split_nl a) as [|l ls]; [congruence | reflexivity].
Qed.

Lemma insert_after_header_none (header entry : str) (lines : list str) :
  Forall (fun l => strip l <> header) lines ->
  insert_after_header header entry lines = lines.
Proof.
  intros H. induction H as [|l lines Hl _ IH]; simpl; [reflexivity|].
  rewrite str_eqb_neq by assumption. rewrite IH. reflexivity.
Qed.

Lemma insert_after_header_first (header entry : str)
  (before : list str) (line : str) (rest : list str) :
  Forall (fun l => strip l <> header) before -> strip line = header ->
  insert_after_header header entry (before ++ line :: rest)
  = before ++ line :: entry :: rest.
Proof.
  intros H Hline. induction H as [|l before Hl _ IH]; simpl.
  - rewrite Hline, str_eqb_refl. reflexivity.
  - rewrite str_eqb_neq by assumption. rewrite IH. reflexivity.
Qed.

Section ManifestTexts.

Context {E : Type}.

(** The name is in the requirements list already: nothing is written. *)
Lemma add_to_requirements_present (file_path : path) (w : world E)
  (content : str) (size : N) (wr : bool) :
  lookup file_path (fs w) = Some (File (Some content) size wr) ->
  contains DEP_NAME content = true ->
  add_to_requirements file_path w = (Ok false, w).
Proof.
  intros Hl Hc. unfold add_to_requirements, bind, read_text.
  rewrite Hl, Hc. reflexivity.
Qed.

(** The name is not in the requirements list: the name and a newline are
    appended to the text as it is. *)
Lemma add_to_requirements_absent (file_path : path) (w : world E)
  (content : str) (size : N) :
  lookup file_path (fs w) = Some (File (Some content) size true) ->
  contains DEP_NAME content = false ->
  exists n',
    add_to_requirements file_path w =
    (Ok true, logged INFO (added_msg file_path) (set_fs n' w)) /\
    lookup file_path n' =
    Some (File (Some (content ++ DEP_LINE)) (size + utf8_len DEP_LINE) true).
Proof.
  intros Hl Hc.
  destruct (update_ok_existing file_path (extend file_path DEP_LINE) (fs w)
              _ _ Hl eq_refl) as [n' Hu].
  exists n'. split.
  - unfold add_to_requirements, bind, read_text, append_text, store.
    rewrite Hl, Hc. simpl. rewrite Hu. reflexivity.
  - destruct (update_lookup_same _ _ _ _ Hu) as (c' & Hl' & Hext).
    rewrite Hl in Hext. simpl in Hext. injection Hext as <-. exact Hl'.
Qed.

(** When the text is empty or ends with a newline, the appended name is a
    line of the result. *)
Lemma appended_name_is_a_line (content : str) :
  content = [] \/ (exists c, content = c ++ [nl]) ->
  In DEP_NAME (split_nl (content ++ DEP_LINE)).
Proof.
  intros [->|[c ->]].
  - left. reflexivity.
  - rewrite <- app_assoc. simpl app. rewrite split_nl_app_nl.
    apply in_or_app. right. left. reflexivity.
Qed.

(** The header is not in the project-config text, or the name is: nothing
    is written. *)
Lemma add_to_pyproject_untouched (file_path : path) (w : world E)
  (content : str) (size : N) (wr : bool) :
  lookup file_path (fs w) = Some (File (Some content) size wr) ->
  contains DEP_NAME content = true \/ contains POETRY_HEADER content = false ->
  add_to_pyproject file_path w = (Ok false, w).
Proof.
  intros Hl Hc. unfold add_to_pyproject, bind, read_text. rewrite Hl.
  destruct (contains DEP_NAME content); [reflexivity|].
  destruct Hc as [Hc|Hc]; [discriminate|]. rewrite Hc. reflexivity.
Qed.

(** A line of the project-config text is the header once stripped: the
    pinned entry becomes the line after the first such line. *)
Lemma add_to_pyproject_header_line (file_path : path) (w : world E)
  (content : str) (size : N) (before : list str) (line : str)
  (rest : list str) :
  lookup file_path (fs w) = Some (File (Some content) size true) ->
  contains DEP_NAME content = false ->
  split_nl content = before ++ line :: rest ->
  Forall (fun l => strip l <> POETRY_HEADER) before ->
  strip line = POETRY_HEADER ->
  exists n' size',
    add_to_pyproject file_path w =
    (Ok true, logged INFO (added_msg file_path) (set_fs n' w)) /\
    lookup file_path n' =
    Some (File (Some (join_nl (before ++ line :: PINNED_ENTRY :: rest)))
            size' true).
Proof.
  intros Hl Hname Hsplit Hbefore Hline.
  assert (Hheader : contains POETRY_HEADER content = true).
  { rewrite <- (join_split_nl content), Hsplit.
    apply contains_join_nl with (l := line).
    - apply in_or_app. right. left. reflexivity.
    - rewrite <- Hline. apply contains_strip. }
  set (text := join_nl (before ++ line :: PINNED_ENTRY :: rest)).
  destruct (update_ok_existing file_path (overwrite file_path text) (fs w)
              _ _ Hl eq_refl) as [n' Hu].
  exists n', (utf8_len text). split.
  - unfold add_to_pyproject, bind, read_text, write_text, store.
    rewrite Hl, Hname, Hheader. cbn [negb]. cbv beta iota zeta.
    rewrite Hsplit, insert_after_header_first by assumption.
    fold text. rewrite Hu. reflexivity.
  - destruct (update_lookup_same _ _ _ _ Hu) as (c' & Hl' & Hov).
    rewrite Hl in Hov. simpl in Hov. injection Hov as <-. exact Hl'.
Qed.

(** The header is in the project-config text but no line is the header
    once stripped: the text is written back as it is, and a change is
    reported all the same. *)
Lemma add_to_pyproject_header_inside_line (file_path : path) (w : world E)
  (content : str) (size : N) :
  lookup file_path (fs w) = Some (File (Some content) size true) ->
  contains DEP_NAME content = false ->
  contains POETRY_HEADER content = true ->
  Forall (fun l => strip l <> POETRY_HEADER) (split_nl content) ->
  exists n',
    add_to_pyproject file_path w =
    (Ok true, logged INFO (added_msg file_path) (set_fs n' w)) /\
    lookup file_path n' = Some (File (Some content) (utf8_len content) true).
Proof.
  intros Hl Hname Hheader Hlines.
  destruct (update_ok_existing file_path (overwrite file_path content) (fs w)
              _ _ Hl eq_refl) as [n' Hu].
  exists n'. split.
  - unfold add_to_pyproject, bind, read_text, write_text, store.
    rewrite Hl, Hname, Hheader. cbn [negb]. cbv beta iota zeta.
    rewrite insert_after_header_none by assumption.
    rewrite join_split_nl, Hu. reflexivity.
  - destruct (update_lookup_same _ _ _ _ Hu) as (c' & Hl' & Hov).
    rewrite Hl in Hov. simpl in Hov. injection Hov as <-. exact Hl'.
Qed.

End ManifestTexts.

(** ** A second run of the Dependency Patcher *)

Lemma contains_trans (a b c : str) :
  contains a b = true -> contains b c = true -> contains a c = true.
Proof.
  intros Hab Hbc.
  destruct (contains_inv _ _ Hab) as (x & y & ->).
  destruct (contains_inv _ _ Hbc) as (u & v & ->).
  rewrite <- !app_assoc. rewrite app_assoc. apply contains_mid.
Qed.

(** Replacing a text that occurs leaves the replacement in the result. *)
Lemma contains_replace (old new s : str) :
  contains old s = true -> old <> [] ->
  contains new (replace old new s) = true.
Proof.
  unfold replace. intros H Hold. induction s as [|c s IH].
  - destruct old; [congruence | discriminate].
  - simpl in H. cbn [replace_from].
    destruct (startswith old (c :: s)) eqn:Hsw.
    + apply contains_here.
    + simpl in H. apply (contains_app_r new [c]). apply IH. exact H.
Qed.

Lemma leading_space_lstrip (s : str) : s = leading_space s ++ lstrip s.
Proof.
  induction s as [|c s IH]; simpl; [reflexivity|].
  destruct (is_space c); simpl; [rewrite <- IH|]; reflexivity.
Qed.

Lemma until_char_split (c : ascii) (s before : str) :
  until_char c s = Some before -> exists rest, s = before ++ c :: rest.
Proof.
  revert before. induction s as [|d s IH]; intros before H; simpl in H.
  - discriminate.
  - destruct (Ascii.eqb_spec d c) as [->|Hd].
    + injection H as <-. exists s. reflexivity.
    + destruct (until_char c s) as [b|]; [|discriminate].
      injection H as <-. destruct (IH b eq_refl) as [rest ->].
      exists rest. reflexivity.
Qed.

(** The three groups of a match, put together, are where the match is. *)
Lemma install_requires_at_groups (s before deps after : str) :
  install_requires_at s = Some (before, deps, after) ->
  startswith (before ++ deps ++ after) s = true /\ before <> [].
Proof.
  unfold install_requires_at.
  destruct (startswith INSTALL_REQUIRES s) eqn:Hsw; [|discriminate].
  destruct (startswith_inv _ _ Hsw) as [r0 ->].
  rewrite skipn_length_app. cbv zeta.
  destruct (startswith (py "=") (lstrip r0)) eqn:H0; [|discriminate].
  destruct (startswith_inv _ _ H0) as [r1 Hr1]. rewrite Hr1.
  change (skipn 1 (py "=" ++ r1)) with r1.
  destruct (startswith (py "[") (lstrip r1)) eqn:H1; [|discriminate].
  destruct (startswith_inv _ _ H1) as [r2 Hr2]. rewrite Hr2.
  change (skipn 1 (py "[" ++ r2)) with r2. cbn [andb].
  destruct (until_char "]"%char r2) as [d|] eqn:H2; [|discriminate].
  intros [= <- <- <-]. split; [|discriminate].
  destruct (until_char_split _ _ _ H2) as [rest ->].
  rewrite (leading_space_lstrip r0) at 2. rewrite Hr1.
  rewrite (leading_space_lstrip r1) at 2. rewrite Hr2.
  match goal with
  | |- startswith ?x ?y = true =>
      replace y with (x ++ rest); [apply startswith_app|]
  end.
  unfold INSTALL_REQUIRES, py. simpl.
  repeat (rewrite <- app_assoc; simpl). reflexivity.
Qed.

Lemma search_install_requires_contains (s before deps after : str) :
  search_install_requires s = Some (before, deps, after) ->
  contains (before ++ deps ++ after) s = true /\ before <> [].
Proof.
  induction s as [|c s IH]; simpl.
  - intros H. discriminate.
  - destruct (install_requires_at (c :: s)) as [g|] eqn:Hat.
    + intros [= ->].
      destruct (install_requires_at_groups _ _ _ _ Hat) as [H1 H2].
      split; [|exact H2]. rewrite H1. reflexivity.
    + intros H. destruct (IH H) as [H1 H2]. split; [|exact H2].
      rewrite H1. apply orb_true_r.
Qed.

Lemma insert_after_header_cases (header entry : str) (lines : list str) :
  Forall (fun l => strip l <> header) lines \/
  exists before line rest,
    lines = before ++ line :: rest /\
    Forall (fun l => strip l <> header) before /\ strip line = header.
Proof.
  induction lines as [|l lines IH].
  - left. constructor.
  - destruct (list_eq_dec ascii_dec (strip l) header) as [Heq|Hne].
    + right. exists [], l, lines. repeat split; [constructor | exact Heq].
    + destruct IH as [IH|(before & line & rest & -> & Hb & Hl)].
      * left. constructor; assumption.
      * right. exists (l :: before), line, rest.
        repeat split; [constructor; assumption | exact Hl].
Qed.

(** Unless the header is inside a line only, the text written below a
    header holds the dependency name. *)
Lemma insert_after_header_named (header content : str) :
  ~ header_inside_line_only header content ->
  contains DEP_NAME content = false -> contains header content = true ->
  contains DEP_NAME
    (join_nl (insert_after_header header PINNED_ENTRY (split_nl content)))
  = true.
Proof.
  intros Hslip Hname Hheader.
  destruct (insert_after_header_cases header PINNED_ENTRY (split_nl content))
    as [Hnone|(before & line & rest & Hsplit & Hb & Hl)].
  - exfalso. apply Hslip. repeat split; assumption.
  - rewrite Hsplit, insert_after_header_first by assumption.
    apply contains_join_nl with (l := PINNED_ENTRY).
    + apply in_or_app. right. right. left. reflexivity.
    + reflexivity.
Qed.

(** What [add_to_setup_py] puts in the list holds the dependency name. *)
Lemma setup_entry_named (deps : str) :
  contains DEP_NAME
    match strip deps with
    | _ :: _ => deps ++ py "," ++ nl :: py "        " ++ QUOTED_DEP
    | [] => nl :: py "        " ++ QUOTED_DEP ++ nl :: py "    "
    end = true.
Proof.
  destruct (strip deps); [reflexivity|].
  apply contains_app_r. reflexivity.
Qed.

Lemma apart_siblings (dir : path) (a b : str) :
  a <> b -> apart (path_join dir a) (path_join dir b).
Proof.
  unfold apart, path_join. intros Hab. split; intros r Hr.
  - rewrite <- app_assoc in Hr. apply app_inv_head in Hr.
    injection Hr as Hr _. congruence.
  - rewrite <- app_assoc in Hr. apply app_inv_head in Hr.
    injection Hr as Hr _. congruence.
Qed.

Section SecondRun.

Context {E : Type}.

(** A patcher that returned false wrote nothing and will return false
    again; one that returned true left the name in the file. *)
Ltac second_run Hrun Hl :=
  match type of Hrun with
  | context [update ?p ?u ?n] =>
      let Hu := fresh "Hu" in
      let n' := fresh "n'" in
      destruct (update p u n) as [n'|] eqn:Hu; [|discriminate];
      injection Hrun as <- <-;
      let c' := fresh "c'" in
      let Hl' := fresh "Hl'" in
      let Hov := fresh "Hov" in
      destruct (update_lookup_same _ _ _ _ Hu) as (c' & Hl' & Hov);
      rewrite Hl in Hov; simpl in Hov;
      match type of Hov with
      | context [match ?wr with true => _ | false => _ end] =>
          destruct wr; [|discriminate]
      end;
      injection Hov as <-; simpl; rewrite Hl'
  end.

Lemma add_to_requirements_again (p : path) (w w1 : world E) (b : bool) :
  add_to_requirements p w = (Ok b, w1) ->
  add_to_requirements p w1 = (Ok false, w1).
Proof.
  intros Hrun. pose proof Hrun as Hrun'.
  unfold add_to_requirements, bind, read_text in Hrun |- *.
  destruct (lookup p (fs w)) as [[[c|] s wr|es]|] eqn:Hl; try discriminate.
  destruct (contains DEP_NAME c) eqn:Hname; simpl in Hrun.
  - injection Hrun as <- <-. rewrite Hl, Hname. reflexivity.
  - unfold append_text, store, logger, ret in Hrun.
    second_run Hrun Hl.
    rewrite contains_app_r; [reflexivity|]. reflexivity.
Qed.

Lemma add_to_pyproject_again (p : path) (w w1 : world E) (b : bool) :
  add_to_pyproject p w = (Ok b, w1) ->
  (forall c s wr, lookup p (fs w) = Some (File (Some c) s wr) ->
                  ~ header_inside_line_only POETRY_HEADER c) ->
  add_to_pyproject p w1 = (Ok false, w1).
Proof.
  intros Hrun Hslip.
  unfold add_to_pyproject, bind, read_text in Hrun |- *.
  destruct (lookup p (fs w)) as [[[c|] s wr|es]|] eqn:Hl; try discriminate.
  specialize (Hslip c s wr eq_refl).
  destruct (contains DEP_NAME c) eqn:Hname; simpl in Hrun.
  - injection Hrun as <- <-. rewrite Hl, Hname. reflexivity.
  - destruct (contains POETRY_HEADER c) eqn:Hheader.
    + unfold write_text, store, logger, ret in Hrun.
      second_run Hrun Hl.
      rewrite insert_after_header_named by assumption. reflexivity.
    + injection Hrun as <- <-. rewrite Hl, Hname, Hheader. reflexivity.
Qed.

Lemma add_to_pipfile_again (p : path) (w w1 : world E) (b : bool) :
  add_to_pipfile p w = (Ok b, w1) ->
  (forall c s wr, lookup p (fs w) = Some (File (Some c) s wr) ->
                  ~ header_inside_line_only PIPFILE_HEADER c) ->
  add_to_pipfile p w1 = (Ok false, w1).
Proof.
  intros Hrun Hslip.
  unfold add_to_pipfile, bind, read_text in Hrun |- *.
  destruct (lookup p (fs w)) as [[[c|] s wr|es]|] eqn:Hl; try discriminate.
  specialize (Hslip c s wr eq_refl).
  destruct (contains DEP_NAME c) eqn:Hname; simpl in Hrun.
  - injection Hrun as <- <-. rewrite Hl, Hname. reflexivity.
  - destruct (contains PIPFILE_HEADER c) eqn:Hheader.
    + unfold write_text, store, logger, ret in Hrun.
      second_run Hrun Hl.
      rewrite insert_after_header_named by assumption. reflexivity.
    + injection Hrun as <- <-. rewrite Hl, Hname, Hheader. reflexivity.
Qed.

Lemma add_to_setup_py_again (p : path) (w w1 : world E) (b : bool) :
  add_to_setup_py p w = (Ok b, w1) ->
  add_to_setup_py p w1 = (Ok false, w1).
Proof.
  intros Hrun.
  unfold add_to_setup_py, bind, read_text in Hrun |- *.
  destruct (lookup p (fs w)) as [[[c|] s wr|es]|] eqn:Hl; try discriminate.
  destruct (contains DEP_NAME c) eqn:Hname; cbn [negb] in Hrun;
    cbv beta iota in Hrun.
  - injection Hrun as <- <-. rewrite Hl, Hname. reflexivity.
  - destruct (search_install_requires c) as [[[before deps] after]|] eqn:Hs.
    + destruct (search_install_requires_contains _ _ _ _ Hs) as [Hold Hne].
      cbv zeta in Hrun.
      unfold write_text, store, logger, ret in Hrun.
      second_run Hrun Hl.
      match goal with
      | |- context [contains DEP_NAME (replace ?old ?new c)] =>
          assert (Hnew : contains DEP_NAME (replace old new c) = true)
      end.
      { eapply contains_trans; [|apply contains_replace; [exact Hold|]].
        - apply contains_app_r, contains_app_l, setup_entry_named.
        - destruct before; [congruence | discriminate]. }
      rewrite Hnew. reflexivity.
    + injection Hrun as <- <-. rewrite Hl, Hname, Hs. reflexivity.
Qed.

Lemma first_present_or_none (repo_path : path)
  (files : list (str * (path -> M (E := E) bool))) (w : world E) :
  (exists k dep_file add_func,
      nth_error files k = Some (dep_file, add_func) /\
      lookup (path_join repo_path dep_file) (fs w) <> None /\
      forall j other f, j < k -> nth_error files j = Some (other, f) ->
                        lookup (path_join repo_path other) (fs w) = None) \/
  (forall dep_file add_func, In (dep_file, add_func) files ->
      lookup (path_join repo_path dep_file) (fs w) = None).
Proof.
  induction files as [|[name f] files IH].
  - right. intros d g [].
  - destruct (lookup (path_join repo_path name) (fs w)) as [c|] eqn:Hl.
    + left. exists 0, name, f. split; [reflexivity|].
      split; [congruence|]. intros j other g Hj. lia.
    + destruct IH as [(k & d & g & Hk & Hp & He)|Hnone].
      * left. exists (S k), d, g. split; [exact Hk|]. split; [exact Hp|].
        intros j other h Hj Hn. destruct j as [|j].
        -- injection Hn as <- _. exact Hl.
        -- apply (He j other h); [lia | exact Hn].
      * right. intros d g [[= <- _]|Hin]; [exact Hl | eauto].
Qed.

(** After a run that returned, a second run of [add_dependency] reports no
    change and leaves the world as it is, unless the manifest patched is a
    pyproject.toml or a Pipfile whose header is inside a line only. *)
Theorem add_dependency_second_run (repo_path : path) (w w1 : world E)
  (b : bool) :
  add_dependency repo_path w = (Ok b, w1) ->
  (forall c s wr,
      lookup (path_join repo_path PYPROJECT_TOML) (fs w)
      = Some (File (Some c) s wr) ->
      ~ header_inside_line_only POETRY_HEADER c) ->
  (forall c s wr,
      lookup (path_join repo_path PIPFILE) (fs w)
      = Some (File (Some c) s wr) ->
      ~ header_inside_line_only PIPFILE_HEADER c) ->
  add_dependency repo_path w1 = (Ok false, w1).
Proof.
  intros Hrun Hpoetry Hpipfile.
  destruct (first_present_or_none repo_path DEPENDENCY_FILES w)
    as [(k & dep_file & add_func & Hk & Hp & Hearlier)|Hnone].
  - pose proof (add_dependency_from_first repo_path _ w k dep_file add_func
                  Hk Hp Hearlier) as Hfirst.
    unfold add_dependency in Hrun. rewrite Hfirst in Hrun.
    assert (Hagain : add_func (path_join repo_path dep_file) w1 = (Ok false, w1)).
    { pose proof (nth_error_In _ _ Hk) as Hin. unfold DEPENDENCY_FILES in Hin.
      simpl in Hin.
      destruct Hin as [H|[H|[H|[H|[]]]]]; injection H as <- <-.
      - eapply add_to_requirements_again; eassumption.
      - eapply add_to_pyproject_again; eassumption.
      - eapply add_to_setup_py_again; eassumption.
      - eapply add_to_pipfile_again; eassumption. }
    rewrite <- Hagain. unfold add_dependency.
    pose proof (dependency_files_edit dep_file add_func
                  (path_join repo_path dep_file) (nth_error_In _ _ Hk) w)
      as Hedit.
    rewrite Hrun in Hedit. simpl in Hedit.
    apply (add_dependency_from_first repo_path _ w1 k dep_file add_func Hk).
    + destruct Hedit as [->|[upd Hu]]; [exact Hp|].
      destruct (update_lookup_same _ _ _ _ Hu) as (c' & -> & _). discriminate.
    + intros j other f Hj Hn. pose proof (Hearlier j other f Hj Hn) as Hnone.
      destruct Hedit as [->|[upd Hu]]; [exact Hnone|].
      assert (Hne : dep_file <> other) by (intros ->; contradiction).
      destruct (apart_siblings repo_path dep_file other Hne) as [Ha1 Ha2].
      rewrite (update_lookup_other _ _ _ _ _ Hu Ha1 Ha2). exact Hnone.
  - unfold add_dependency in Hrun.
    rewrite (add_dependency_from_none repo_path _ w Hnone) in Hrun.
    simpl in Hrun. unfold bind, write_text, store, logger, ret in Hrun.
    destruct (update _ _ (fs w)) as [n'|] eqn:Hu; [|discriminate].
    injection Hrun as <- <-.
    destruct (update_lookup_same _ _ _ _ Hu) as (c' & Hl' & Hov).
    rewrite (Hnone REQUIREMENTS_TXT add_to_requirements (or_introl eq_refl))
      in Hov. simpl in Hov. injection Hov as <-.
    unfold add_dependency.
    rewrite (add_dependency_from_first repo_path DEPENDENCY_FILES _ 0
               REQUIREMENTS_TXT add_to_requirements eq_refl).
    + eapply add_to_requirements_present; [exact Hl' | reflexivity].
    + simpl. simpl in Hl'. rewrite Hl'. discriminate.
    + intros j other f Hj. lia.
Qed.

End SecondRun.

(** ** The patchers on concrete files *)

Lemma existsb_str_eqb_false (x : str) (l : list str) :
  existsb (str_eqb x) l = false -> ~ In x l.
Proof.
  intros H Hin. induction l as [|y l IH]; [contradiction|].
  simpl in H. apply orb_false_iff in H as [Hy Hl].
  destruct Hin as [->|Hin]; [|exact (IH Hl Hin)].
  rewrite str_eqb_refl in Hy. discriminate.
Qed.

(** C1, at a project-config file whose section header carries a comment:
    the header is in the text and the dependency name is not, the patcher
    reports a change, and the file holds the text it held: no line was
    inserted, the pinned entry is nowhere in it. *)
Theorem add_to_pyproject_commented_header :
  let file_path := path_join REPO PYPROJECT_TOML in
  let w := repo_world [(PYPROJECT_TOML, text_file PYPROJECT_COMMENTED)] in
  contains POETRY_HEADER PYPROJECT_COMMENTED = true /\
  contains DEP_NAME PYPROJECT_COMMENTED = false /\
  fst (add_to_pyproject file_path w) = Ok true /\
  lookup file_path (fs (snd (add_to_pyproject file_path w)))
  = Some (text_file PYPROJECT_COMMENTED) /\
  ~ In PINNED_ENTRY (split_nl PYPROJECT_COMMENTED).
Proof.
  cbv zeta. repeat split; try (vm_compute; reflexivity).
  apply existsb_str_eqb_false. vm_compute. reflexivity.
Qed.

(** C2, at a requirements list whose last line has no newline: the name is
    not in the text, the patcher reports a change, and the file then holds
    the two lines [requestsdbdemos-tracker] and the empty one: the
    dependency name is not a line of it. *)
Theorem add_to_requirements_unterminated :
  let file_path := path_join REPO REQUIREMENTS_TXT in
  let w := repo_world [(REQUIREMENTS_TXT, text_file REQUIREMENTS_UNTERMINATED)] in
  let out := REQUIREMENTS_UNTERMINATED ++ DEP_LINE in
  contains DEP_NAME REQUIREMENTS_UNTERMINATED = false /\
  fst (add_to_requirements file_path w) = Ok true /\
  lookup file_path (fs (snd (add_to_requirements file_path w)))
  = Some (text_file out) /\
  split_nl out = [py "requestsdbdemos-tracker"; []] /\
  ~ In DEP_NAME (split_nl out).
Proof.
  cbv zeta. repeat split; try (vm_compute; reflexivity).
  apply existsb_str_eqb_false. vm_compute. reflexivity.
Qed.

(** C3, at a repository whose only manifest is the project-config file
    with the commented header: the first run reports a change and leaves
    the files as they were, and the second run reports a change again. *)
Theorem add_dependency_twice_commented_header :
  let w := repo_world [(PYPROJECT_TOML, text_file PYPROJECT_COMMENTED)] in
  let w1 := snd (add_dependency REPO w) in
  fst (add_dependency REPO w) = Ok true /\
  fs w1 = fs w /\
  fst (add_dependency REPO w1) = Ok true.
Proof. cbv zeta. repeat split; vm_compute; reflexivity. Qed.

(** C7, at an entry file that mentions the guard in a comment above it:
    the file has no tracker import and its guard line is followed by the
    single indented statement, yet the search for the guard stops at the
    comment, the first line that holds both [__name__] and [__main__].  The
    patcher reports a change, but the call is appended, unindented, at the
    end of the file; the line above the statement is still the guard, and
    the call indented by 4 spaces is nowhere. *)
Lemma main_guard_after_mention_not_patched :
  let file_path := path_join REPO MAIN_PY in
  let w := repo_world [(MAIN_PY, text_file MAIN_WITH_NOTE)] in
  let out :=
    join_nl [IMPORT_STMT; NOTE_LINE; MAIN_GUARD; CALL_MAIN; []; [];
             MARKER_COMMENT; INIT_CALL] in
  has_import MAIN_WITH_NOTE = false /\
  split_nl MAIN_WITH_NOTE = [NOTE_LINE; MAIN_GUARD; CALL_MAIN; []] /\
  fst (add_tracker_init_to_file file_path w) = Ok true /\
  lookup file_path (fs (snd (add_tracker_init_to_file file_path w)))
  = Some (text_file out) /\
  split_nl out = [IMPORT_STMT; NOTE_LINE; MAIN_GUARD; CALL_MAIN; []; [];
                  MARKER_COMMENT; INIT_CALL] /\
  ~ In GUARD_CALL (split_nl out).
Proof.
  cbv zeta. repeat split; try (vm_compute; reflexivity).
  apply existsb_str_eqb_false. vm_compute. reflexivity.
Qed.

(** ** The theorems at concrete repositories *)

(** A file that imports the module and never calls it is left alone, and
    [MAIN_PLAIN] is patched once only. *)
Lemma add_tracker_init_never_twice_witness :
  let file_path := path_join REPO MAIN_PY in
  let imported := py "import dbdemos_tracker" ++ [nl] in
  let w := repo_world [(MAIN_PY, text_file imported)] in
  let v := repo_world [(MAIN_PY, text_file MAIN_PLAIN)] in
  let v1 := snd (add_tracker_init_to_file file_path v) in
  (lookup file_path (fs w) = Some (text_file imported) /\
   contains IMPORT_STMT imported = true /\
   add_tracker_init_to_file file_path w = (Ok false, w)) /\
  (add_tracker_init_to_file file_path v = (Ok true, v1) /\
   add_tracker_init_to_file file_path v1 = (Ok false, v1)).
Proof.
  cbv zeta. split.
  - split; [reflexivity|]. split; [reflexivity|].
    apply (proj1 (add_tracker_init_never_twice (path_join REPO MAIN_PY)
                    (repo_world [(MAIN_PY,
                        text_file (py "import dbdemos_tracker" ++ [nl]))]))
             (py "import dbdemos_tracker" ++ [nl])
             (utf8_len (py "import dbdemos_tracker" ++ [nl])) true).
    + reflexivity.
    + left. reflexivity.
  - assert (H : add_tracker_init_to_file (path_join REPO MAIN_PY)
                  (repo_world [(MAIN_PY, text_file MAIN_PLAIN)])
                = (Ok true,
                   snd (add_tracker_init_to_file (path_join REPO MAIN_PY)
                          (repo_world [(MAIN_PY, text_file MAIN_PLAIN)])))).
    { vm_compute. reflexivity. }
    split; [exact H|].
    exact (proj2 (add_tracker_init_never_twice (path_join REPO MAIN_PY)
                    (repo_world [(MAIN_PY, text_file MAIN_PLAIN)])) _ H).
Defined.

(** The insertion below the guard on [MAIN_PLAIN]: two lines above the
    guard, a comment below it, then the statement. *)
Lemma main_guard_statement_patched_witness :
  let file_path := path_join REPO MAIN_PY in
  let w := repo_world [(MAIN_PY, text_file MAIN_PLAIN)] in
  split_nl MAIN_PLAIN
  = [py "import os"; []] ++ MAIN_GUARD :: [py "    # start"] ++ CALL_MAIN :: [[]] /\
  exists A B n' size',
    insert_at (import_line_idx (split_nl MAIN_PLAIN)) IMPORT_STMT
      (split_nl MAIN_PLAIN)
    = A ++ MAIN_GUARD :: [py "    # start"] ++ CALL_MAIN :: B /\
    add_tracker_init_to_file file_path w =
    (Ok true, logged INFO (patched_msg file_path) (set_fs n' w)) /\
    lookup file_path n' =
    Some (File (Some (join_nl (A ++ MAIN_GUARD :: [py "    # start"]
                                 ++ GUARD_CALL :: CALL_MAIN :: B)))
            size' true).
Proof.
  cbv zeta. split; [reflexivity|].
  apply (main_guard_statement_patched (path_join REPO MAIN_PY)
           (repo_world [(MAIN_PY, text_file MAIN_PLAIN)])
           MAIN_PLAIN (utf8_len MAIN_PLAIN)
           [py "import os"; []] [py "    # start"] CALL_MAIN [[]]).
  - reflexivity.
  - reflexivity.
  - reflexivity.
  - repeat constructor.
  - repeat constructor.
  - reflexivity.
  - reflexivity.
Defined.

(** The choice of the manifest on a repository that holds pyproject.toml
    and Pipfile and no requirements.txt, and on a repository without any
    manifest. *)
Lemma add_dependency_sole_target_witness :
  let poetry := POETRY_HEADER ++ [nl] in
  let w := repo_world [(PIPFILE, text_file (PIPFILE_HEADER ++ [nl]));
                       (PYPROJECT_TOML, text_file poetry)] in
  let v := repo_world [(MAIN_PY, text_file MAIN_PLAIN)] in
  (add_dependency REPO w = add_to_pyproject (path_join REPO PYPROJECT_TOML) w /\
   lookup (path_join REPO PIPFILE) (fs (snd (add_dependency REPO w)))
   = lookup (path_join REPO PIPFILE) (fs w)) /\
  (exists n',
      add_dependency REPO v =
      (Ok true,
       logged INFO (py "Created requirements.txt with dbdemos-tracker")
         (set_fs n' v)) /\
      lookup (path_join REPO REQUIREMENTS_TXT) n' =
      Some (File (Some DEP_LINE) (utf8_len DEP_LINE) true) /\
      split_nl DEP_LINE = [DEP_NAME; []] /\
      forall q, apart (path_join REPO REQUIREMENTS_TXT) q ->
        lookup q n' = lookup q (fs v)).
Proof.
  cbv zeta. split.
  - destruct (proj1 (proj2 (add_dependency_sole_target REPO
                       (repo_world
                          [(PIPFILE, text_file (PIPFILE_HEADER ++ [nl]));
                           (PYPROJECT_TOML, text_file (POETRY_HEADER ++ [nl]))])))
                1 PYPROJECT_TOML add_to_pyproject) as [Hrun Hother].
    + reflexivity.
    + discriminate.
    + intros j other f Hj. destruct j as [|j]; [|lia].
      intros [= <- _]. reflexivity.
    + split; [exact Hrun|]. apply Hother. split.
      * intros r. destruct r; discriminate.
      * intros r. destruct r; discriminate.
  - apply (proj2 (proj2 (add_dependency_sole_target REPO
                           (repo_world [(MAIN_PY, text_file MAIN_PLAIN)])))
             [(MAIN_PY, text_file MAIN_PLAIN)]).
    + reflexivity.
    + intros dep_file add_func [H|[H|[H|[H|[]]]]]; injection H as <- _;
        reflexivity.
Defined.

(** The source scan on a file of a subdirectory that names the module in
    a comment, as the prefix of another name. *)
Lemma check_tracker_imports_any_occurrence_witness :
  let w := repo_world
             [(py "src", Dir [(py "utils.py", text_file UTILS_COMMENT)])] in
  UTILS_COMMENT
  = py "# " ++ py "import" ++ py "  " ++ MODULE_NAME ++ py "_utils" ++ [nl] /\
  exists w', check_tracker_imports REPO w = (Ok true, w') /\ quiet w w'.
Proof.
  cbv zeta. split; [reflexivity|].
  apply (check_tracker_imports_any_occurrence REPO [py "src"] (py "utils.py")
           (repo_world
              [(py "src", Dir [(py "utils.py", text_file UTILS_COMMENT)])])
           (py "# ") (py "import") (py "  ") (py "_utils" ++ [nl])
           (utf8_len UTILS_COMMENT) true).
  - reflexivity.
  - repeat constructor.
  - reflexivity.
  - right. reflexivity.
  - discriminate.
  - repeat constructor.
Defined.

(** The detection on the clone of [URL_TRACKED], whose requirements list
    holds the dependency. *)
Lemma tracker_in_manifest_skips_patching_witness :
  let repo_path := [py "tracked"] in
  let w1 := snd (clone_repository demo_api URL_TRACKED temp_dir
                   (recorded (CloneRepository URL_TRACKED)
                      (set_fs (Dir []) empty_world))) in
  lookup (path_join repo_path REQUIREMENTS_TXT) (fs w1)
  = Some (text_file (py "dbdemos-tracker==1.0" ++ [nl])) /\
  (exists w3, check_tracker_exists repo_path w1 = (Ok true, w3) /\ quiet w1 w3) /\
  (exists w4,
      process_single_repository demo_api URL_TRACKED empty_world = (Ok tt, w4) /\
      calls w4 =
      calls empty_world
        ++ [CloneRepository URL_TRACKED; CheckTrackerExists repo_path]).
Proof.
  cbv zeta. split; [vm_compute; reflexivity|].
  apply (tracker_in_manifest_skips_patching demo_api URL_TRACKED empty_world
           (snd (clone_repository demo_api URL_TRACKED temp_dir
                   (recorded (CloneRepository URL_TRACKED)
                      (set_fs (Dir []) empty_world))))
           (snd (clone_repository demo_api URL_TRACKED temp_dir
                   (recorded (CloneRepository URL_TRACKED)
                      (set_fs (Dir []) empty_world))))
           [py "tracked"] REQUIREMENTS_TXT (py "dbdemos-tracker==1.0" ++ [nl])
           (utf8_len (py "dbdemos-tracker==1.0" ++ [nl])) true).
  - vm_compute. reflexivity.
  - vm_compute. reflexivity.
  - left. reflexivity.
  - vm_compute. reflexivity.
  - vm_compute. reflexivity.
Defined.

(** A batch of three repositories of which the second cannot be cloned:
    the first and the third go through to their pull requests. *)
Lemma process_repositories_isolates_failure_witness :
  let batch := [URL_PLAIN; URL_BROKEN; URL_OTHER] in
  let w1 := snd (process_repositories demo_api [URL_PLAIN] empty_world) in
  let failed := process_single_repository demo_api URL_BROKEN
                  (logged INFO (processing_msg URL_BROKEN) w1) in
  let e := Exception "GitCommandError" (py "clone failed") in
  fst failed = Raise e /\
  (process_repositories demo_api batch empty_world =
   process_repositories demo_api [URL_OTHER]
     (logged ERROR (failure_msg URL_BROKEN e) (snd failed)) /\
   exists w', process_repositories demo_api batch empty_world = (Ok tt, w')) /\
  calls (snd (process_repositories demo_api batch empty_world)) =
  [CloneRepository URL_PLAIN; CheckTrackerExists [py "plain"];
   CreateFeatureBranch BRANCH_NAME; AddTrackerToRepo [py "plain"];
   AddDependency [py "plain"]; AddInitialization [py "plain"];
   CommitChanges; PushBranch BRANCH_NAME;
   CreatePullRequest URL_PLAIN BRANCH_NAME;
   CloneRepository URL_BROKEN;
   CloneRepository URL_OTHER; CheckTrackerExists [py "other"];
   CreateFeatureBranch BRANCH_NAME; AddTrackerToRepo [py "other"];
   AddDependency [py "other"]; AddInitialization [py "other"];
   CommitChanges; PushBranch BRANCH_NAME;
   CreatePullRequest URL_OTHER BRANCH_NAME].
Proof.
  cbv zeta. split; [vm_compute; reflexivity|].
  split; [|vm_compute; reflexivity].
  apply (process_repositories_isolates_failure demo_api
           [URL_PLAIN] URL_BROKEN [URL_OTHER] empty_world
           (snd (process_repositories demo_api [URL_PLAIN] empty_world))).
  - vm_compute. reflexivity.
  - vm_compute. reflexivity.
Defined.

(** The patch of an entry file that cannot be decoded, of one that cannot
    be written, and of a repository whose only file is an entry file that
    cannot be decoded. *)
Lemma add_tracker_init_failure_contained_witness :
  let file_path := path_join REPO MAIN_PY in
  let w := repo_world [(MAIN_PY, File None 10 true)] in
  let text := py "print(1)" ++ [nl] in
  let v := repo_world [(MAIN_PY, File (Some text) 9 false)] in
  let e := Exception "UnicodeDecodeError" (path_str file_path) in
  let x := Exception "PermissionError" (path_str file_path) in
  (exists b w', add_tracker_init_to_file file_path w = (Ok b, w')) /\
  (read_text file_path w = (Raise e, w) /\
   add_tracker_init_to_file file_path w =
   (Ok false, logged ERROR (failed_msg file_path e) w)) /\
  (write_text file_path (join_nl (patched_lines text)) v = (Raise x, v) /\
   add_tracker_init_to_file file_path v =
   (Ok false, logged ERROR (failed_msg file_path x) v)) /\
  (fst (add_dependency REPO (recorded (AddDependency REPO) w)) = Ok true /\
   fst (add_tracker_to_repo REPO w) = Ok true).
Proof.
  cbv zeta.
  set (w := repo_world [(MAIN_PY, File None 10 true)]).
  set (v := repo_world [(MAIN_PY, File (Some (py "print(1)" ++ [nl])) 9 false)]).
  destruct (add_tracker_init_failure_contained w) as (H1 & H2 & _ & H4).
  destruct (add_tracker_init_failure_contained v) as (_ & _ & H3 & _).
  split; [apply H1|].
  split; [split; [reflexivity | apply H2; reflexivity]|].
  split; [split; [reflexivity | apply (H3 _ (py "print(1)" ++ [nl]));
                                reflexivity]|].
  split; [vm_compute; reflexivity|].
  rewrite (H4 REPO true
             (snd (add_dependency REPO (recorded (AddDependency REPO) w)))
             (path_join REPO MAIN_PY)
             (recorded (AddInitialization REPO)
                (snd (add_dependency REPO (recorded (AddDependency REPO) w))))
             (Exception "UnicodeDecodeError" (path_str (path_join REPO MAIN_PY)))
             (recorded (AddInitialization REPO)
                (snd (add_dependency REPO (recorded (AddDependency REPO) w)))));
    [reflexivity | vm_compute; reflexivity | vm_compute; reflexivity
    | vm_compute; reflexivity].
Defined.

(** * Further properties of the source *)

(** ** Batches and branches *)

Section Batches.

Context {E : Type} (api : collaborators E).

(** X1: a batch is processed as its first part followed by its second part:
    no failure in the first part reaches the second. *)
Theorem process_repositories_batches (first second : list str) (w : world E) :
  process_repositories api (first ++ second) w =
  process_repositories api second (snd (process_repositories api first w)).
Proof.
  destruct (process_repositories_returns api first w) as [w1 H].
  rewrite (process_repositories_app api _ _ _ _ H), H. reflexivity.
Qed.

Lemma after_last_slash_no_slash (s : str) :
  contains [slash] (after_last_slash s) = false.
Proof.
  induction s as [|c s IH]; [reflexivity|].
  cbn [after_last_slash].
  destruct (contains [slash] (c :: s)) eqn:Hc; [exact IH | exact Hc].
Qed.

Lemma slashed_name_not_a_ref_tail (branch_name : str) (refs : list str) :
  contains [slash] branch_name = true ->
  existsb (str_eqb branch_name) (map after_last_slash refs) = false.
Proof.
  intros Hb. induction refs as [|r refs IH]; [reflexivity|].
  simpl. rewrite IH, orb_false_r.
  destruct (str_eqb branch_name (after_last_slash r)) eqn:Heq; [|reflexivity].
  apply str_eqb_eq in Heq. rewrite Heq, after_last_slash_no_slash in Hb.
  discriminate.
Qed.

(** X2: a branch name that holds a slash, as the fixed name
    [feature/add-dbdemos-tracker] does, is never found among the last
    components of the refs, whatever the refs are: the branch is never
    checked out as existing, [checkout -b] is what is run. *)
Theorem create_feature_branch_always_creates (branch_name : str)
  (w : world E) :
  contains [slash] branch_name = true ->
  (forall refs,
      existsb (str_eqb branch_name) (map after_last_slash refs) = false) /\
  create_feature_branch api branch_name w =
  try_except
    (external (repo_refs api) ;;
     external (git_checkout api [py "-b"; branch_name]) ;;
     logger INFO (py "Created and checked out branch: " ++ branch_name))
    (fun e =>
       logger ERROR
         (py "Failed to create branch " ++ branch_name ++ py ": " ++ exn_str e) ;;
       raise e) w.
Proof.
  intros Hb. split.
  - intros refs. apply slashed_name_not_a_ref_tail, Hb.
  - unfold create_feature_branch, try_except, bind.
    destruct (external (repo_refs api) w) as [[refs|e] w1]; [|reflexivity].
    rewrite (slashed_name_not_a_ref_tail branch_name refs Hb). reflexivity.
Qed.

End Batches.

(** ** What the Detector finds *)

Lemma node_nested_ind (P : node -> Prop) :
  (forall t s wr, P (File t s wr)) ->
  (forall es, Forall (fun e => P (snd e)) es -> P (Dir es)) ->
  forall n, P n.
Proof.
  intros Hfile Hdir. fix IH 1. intros [t s wr|es].
  - apply Hfile.
  - apply Hdir. induction es as [|[k v] es IHes]; constructor.
    + apply IH.
    + exact IHes.
Qed.

(** The walk yields directories below its top only, through names that
    were kept. *)
Lemma os_walk_roots (keep : str -> bool) (n : node) :
  forall root r ds files,
    In (r, ds, files) (os_walk keep root n) ->
    exists dirs, r = root ++ dirs /\ Forall (fun d => keep d = true) dirs.
Proof.
  induction n as [t s wr|es IH] using node_nested_ind;
    intros root r ds files Hin; [contradiction|].
  simpl in Hin. destruct Hin as [[= <- _ _]|Hin].
  - exists []. rewrite app_nil_r. split; [reflexivity | constructor].
  - apply in_flat_map in Hin as ([k v] & Hkv & Hin). simpl in Hin.
    destruct (is_dir v && keep k) eqn:Hk; [|contradiction].
    apply andb_true_iff in Hk as [_ Hk].
    rewrite Forall_forall in IH.
    destruct (IH (k, v) Hkv _ _ _ _ Hin) as (dirs & -> & Hdirs).
    exists (k :: dirs). unfold path_join. rewrite <- app_assoc.
    split; [reflexivity | constructor; assumption].
Qed.

(** The pattern is found only where a keyword, spaces and the module name
    follow one another. *)
Lemma kw_module_at_inv (kw s : str) :
  kw_module_at kw s = true ->
  exists ws post,
    s = kw ++ ws ++ MODULE_NAME ++ post /\
    ws <> [] /\ Forall (fun c => is_space c = true) ws.
Proof.
  unfold kw_module_at. intros H. apply andb_true_iff in H as [Hkw H].
  destruct (startswith_inv _ _ Hkw) as [r ->].
  rewrite skipn_length_app in H. destruct r as [|c r]; [discriminate|].
  apply andb_true_iff in H as [Hc Hm].
  destruct (startswith_inv _ _ Hm) as [post Hpost].
  exists (c :: leading_space r), post. split; [|split].
  - f_equal.
    change ((c :: leading_space r) ++ MODULE_NAME ++ post)
      with (c :: leading_space r ++ MODULE_NAME ++ post).
    f_equal. rewrite <- Hpost. apply leading_space_lstrip.
  - discriminate.
  - constructor; [exact Hc|]. clear. induction r as [|d r IH]; simpl.
    + constructor.
    + destruct (is_space d) eqn:Hd; constructor; assumption.
Qed.

(** X3: what [re.search] with the pattern of the source scan decides: the
    text matches exactly when it holds [from] or [import], one or more
    spaces, and [dbdemos_tracker], with anything before and after. *)
Theorem search_tracker_import_iff (s : str) :
  search_tracker_import s = true <->
  exists pre kw ws post,
    s = pre ++ kw ++ ws ++ MODULE_NAME ++ post /\
    (kw = py "from" \/ kw = py "import") /\
    ws <> [] /\ Forall (fun c => is_space c = true) ws.
Proof.
  split.
  - induction s as [|c s IH]; rewrite search_tracker_import_eq; intros H.
    + rewrite orb_false_r in H. apply orb_true_iff in H as [H|H];
        destruct (kw_module_at_inv _ _ H) as (ws & post & Hs & Hne & Hws).
      * exists [], (py "from"), ws, post. auto.
      * exists [], (py "import"), ws, post. auto.
    + apply orb_true_iff in H as [H|H].
      * apply orb_true_iff in H as [H|H];
          destruct (kw_module_at_inv _ _ H) as (ws & post & Hs & Hne & Hws).
        -- exists [], (py "from"), ws, post. auto.
        -- exists [], (py "import"), ws, post. auto.
      * destruct (IH H) as (pre & kw & ws & post & -> & Hkw & Hne & Hws).
        exists (c :: pre), kw, ws, post. auto.
  - intros (pre & kw & ws & post & -> & Hkw & Hne & Hws).
    apply search_tracker_import_found; assumption.
Qed.

Section DetectorFindings.

Context {E : Type}.

Lemma check_imports_in_file_true (root : path) (file : str) (w w' : world E) :
  check_imports_in_file root file w = (Ok true, w') ->
  endswith DOT_PY file = true /\
  exists content size wr,
    lookup (path_join root file) (fs w) = Some (File (Some content) size wr) /\
    search_tracker_import content = true.
Proof.
  unfold check_imports_in_file, try_except, bind, read_text, logger, ret.
  destruct (endswith DOT_PY file); [|discriminate].
  destruct (lookup (path_join root file) (fs w)) as [[[c|] s wr|es]|];
    try discriminate.
  intros [= Hs _]. split; [reflexivity|]. eauto.
Qed.

Lemma check_imports_in_files_true (root : path) (files : list str)
  (w w' : world E) :
  check_imports_in_files root files w = (Ok true, w') ->
  exists file content size wr,
    In file files /\ endswith DOT_PY file = true /\
    lookup (path_join root file) (fs w) = Some (File (Some content) size wr) /\
    search_tracker_import content = true.
Proof.
  revert w. induction files as [|f rest IH]; intros w H; [discriminate|].
  simpl in H. unfold bind in H.
  destruct (check_imports_in_file_quiet root f w) as (b & w1 & Hrun & Hq & _).
  rewrite Hrun in H. destruct b.
  - destruct (check_imports_in_file_true _ _ _ _ Hrun)
      as (Hpy & c & s & wr & Hl & Hs).
    exists f, c, s, wr. repeat split; [left; reflexivity | assumption..].
  - destruct (IH w1 H) as (file & c & s & wr & Hin & Hpy & Hl & Hs).
    exists file, c, s, wr. destruct Hq as (Hfs & _). rewrite Hfs in Hl.
    repeat split; [right; assumption | assumption..].
Qed.

Lemma check_imports_in_walk_quiet
  (triples : list (path * list str * list str)) (w : world E) :
  exists b w', check_imports_in_walk triples w = (Ok b, w') /\ quiet w w'.
Proof.
  revert w. induction triples as [|[[r ds] fls] rest IH]; intros w; simpl.
  - exists false, w. split; [reflexivity | apply quiet_refl].
  - unfold bind.
    destruct (check_imports_in_files_quiet r fls w) as (b & w1 & -> & Hq).
    destruct b.
    + exists true, w1. split; [reflexivity | assumption].
    + destruct (IH w1) as (b & w2 & -> & Hq2).
      exists b, w2. split; [reflexivity | eapply quiet_trans; eassumption].
Qed.

Lemma check_imports_in_walk_true
  (triples : list (path * list str * list str)) (w w' : world E) :
  check_imports_in_walk triples w = (Ok true, w') ->
  exists root dirs files file content size wr,
    In (root, dirs, files) triples /\
    In file files /\ endswith DOT_PY file = true /\
    lookup (path_join root file) (fs w) = Some (File (Some content) size wr) /\
    search_tracker_import content = true.
Proof.
  revert w. induction triples as [|[[r ds] fls] rest IH]; intros w H;
    [discriminate|].
  simpl in H. unfold bind in H.
  destruct (check_imports_in_files_quiet r fls w) as (b & w1 & Hrun & Hq).
  rewrite Hrun in H. destruct b.
  - destruct (check_imports_in_files_true _ _ _ _ Hrun)
      as (file & c & s & wr & Hin & Hpy & Hl & Hs).
    exists r, ds, fls, file, c, s, wr.
    repeat split; [left; reflexivity | assumption..].
  - destruct (IH w1 H)
      as (root & dirs & files & file & c & s & wr & Hin & Hf & Hpy & Hl & Hs).
    exists root, dirs, files, file, c, s, wr.
    destruct Hq as (Hfs & _). rewrite Hfs in Hl.
    repeat split; [right; assumption | assumption..].
Qed.

(** X4: when the source scan returns true, some Python file below the
    root, reached through directories whose names do not start with a dot,
    can be read and matches the pattern: nothing inside a hidden directory
    makes the scan answer true. *)
Theorem check_tracker_imports_sound (repo_path : path) (w w' : world E) :
  check_tracker_imports repo_path w = (Ok true, w') ->
  exists dirs file content size wr,
    Forall (fun d => startswith (py ".") d = false) dirs /\
    endswith DOT_PY file = true /\
    lookup (repo_path ++ dirs ++ [file]) (fs w)
    = Some (File (Some content) size wr) /\
    search_tracker_import content = true.
Proof.
  unfold check_tracker_imports, bind, walk. intros H.
  destruct (check_imports_in_walk_true _ _ _ H)
    as (root & ds & files & file & c & s & wr & Hin & Hf & Hpy & Hl & Hs).
  destruct (lookup repo_path (fs w)) as [top|]; [|contradiction].
  destruct (os_walk_roots _ _ _ _ _ _ Hin) as (dirs & -> & Hdirs).
  exists dirs, file, c, s, wr. split; [|split; [exact Hpy|split; [|exact Hs]]].
  - eapply Forall_impl; [|exact Hdirs]. intros d Hd. unfold not_hidden in Hd.
    apply negb_true_iff in Hd. exact Hd.
  - unfold path_join in Hl. rewrite <- app_assoc in Hl. exact Hl.
Qed.

Lemma check_dependency_files_from_quiet (repo_path : path) (files : list str)
  (w : world E) :
  exists b w',
    check_dependency_files_from repo_path files w = (Ok b, w') /\ quiet w w' /\
    (b = true ->
     exists dep_file content size wr,
       In dep_file files /\
       lookup (path_join repo_path dep_file) (fs w)
       = Some (File (Some content) size wr) /\
       contains DEP_NAME content = true).
Proof.
  revert w. induction files as [|f rest IH]; intros w; simpl.
  - exists false, w. split; [reflexivity|]. split; [apply quiet_refl|].
    discriminate.
  - unfold bind.
    destruct (check_dependency_file_quiet repo_path f w)
      as (b & w1 & Hrun & Hq & Hb).
    rewrite Hrun. destruct b.
    + exists true, w1. split; [reflexivity|]. split; [assumption|].
      intros _. revert Hrun.
      unfold check_dependency_file, try_except, bind, path_exists, read_text,
        logger, ret. cbv beta iota zeta.
      destruct (lookup (path_join repo_path f) (fs w))
        as [[[c|] s wr|es]|] eqn:Hl; cbv beta iota; rewrite ?Hl;
        try discriminate.
      intros [= Hc _]. exists f, c, s, wr.
      split; [left; reflexivity|].
      split; [first [exact Hl | reflexivity] | exact Hc].
    + destruct (IH w1) as (b & w2 & -> & Hq2 & Hfound).
      exists b, w2. split; [reflexivity|].
      split; [eapply quiet_trans; eassumption|].
      intros Hbt. destruct (Hfound Hbt) as (d & c & s & wr & Hin & Hl & Hc).
      destruct Hq as (Hfs & _). rewrite Hfs in Hl.
      exists d, c, s, wr. repeat split; [right; assumption | assumption..].
Qed.

(** X5: the manifest check never raises and changes nothing but the log,
    and it returns true exactly when one of the six manifests it knows is at
    the root, can be read, and holds [dbdemos-tracker] somewhere in its
    text. *)
Theorem check_dependency_files_iff (repo_path : path) (w : world E) :
  exists b w',
    check_dependency_files repo_path w = (Ok b, w') /\ quiet w w' /\
    (b = true <->
     exists dep_file content size wr,
       In dep_file DETECTOR_FILES /\
       lookup (path_join repo_path dep_file) (fs w)
       = Some (File (Some content) size wr) /\
       contains DEP_NAME content = true).
Proof.
  unfold check_dependency_files.
  destruct (check_dependency_files_from_quiet repo_path DETECTOR_FILES w)
    as (b & w' & Hrun & Hq & Hfound).
  exists b, w'. split; [exact Hrun|]. split; [exact Hq|]. split; [exact Hfound|].
  intros (d & c & s & wr & Hin & Hl & Hc).
  destruct (check_dependency_files_from_found repo_path DETECTOR_FILES
              d c s wr w Hin Hl Hc) as (w2 & Hrun2 & _).
  rewrite Hrun in Hrun2. injection Hrun2 as -> _. reflexivity.
Qed.

(** X6: the Detector never raises, whatever cannot be read, and changes
    nothing but the log; when it answers true, a manifest holds the
    dependency name or a Python file outside the hidden directories matches
    the import pattern. *)
Theorem check_tracker_exists_findings (repo_path : path) (w : world E) :
  exists b w',
    check_tracker_exists repo_path w = (Ok b, w') /\ quiet w w' /\
    (b = true ->
     (exists dep_file content size wr,
         In dep_file DETECTOR_FILES /\
         lookup (path_join repo_path dep_file) (fs w)
         = Some (File (Some content) size wr) /\
         contains DEP_NAME content = true) \/
     (exists dirs file content size wr,
         Forall (fun d => startswith (py ".") d = false) dirs /\
         endswith DOT_PY file = true /\
         lookup (repo_path ++ dirs ++ [file]) (fs w)
         = Some (File (Some content) size wr) /\
         search_tracker_import content = true)).
Proof.
  destruct (check_dependency_files_from_quiet repo_path DETECTOR_FILES w)
    as (b & w1 & Hdep & Hq1 & Hiff).
  unfold check_tracker_exists, check_dependency_files, bind.
  rewrite Hdep. destruct b.
  - unfold logger, ret. do 2 eexists. split; [reflexivity|].
    split; [eapply quiet_trans; [exact Hq1 | apply quiet_logged]|].
    intros _. left. apply Hiff. reflexivity.
  - unfold check_tracker_imports at 1. unfold bind, walk.
    match goal with
    | |- context [check_imports_in_walk ?t w1] =>
        destruct (check_imports_in_walk_quiet t w1) as (b & w2 & Hrun & Hq2)
    end.
    rewrite Hrun. destruct b.
    + unfold logger, ret. do 2 eexists. split; [reflexivity|].
      split; [eapply quiet_trans; [exact Hq1|];
              eapply quiet_trans; [exact Hq2 | apply quiet_logged]|].
      intros _. right.
      destruct (check_imports_in_walk_true _ _ _ Hrun)
        as (root & ds & files & file & c & s & wr & Hin & Hf & Hpy & Hl & Hs).
      destruct (lookup repo_path (fs w1)) as [top|]; [|contradiction].
      destruct (os_walk_roots _ _ _ _ _ _ Hin) as (dirs & -> & Hdirs).
      destruct Hq1 as (Hfs & _). rewrite Hfs in Hl.
      exists dirs, file, c, s, wr. split; [|split; [exact Hpy|split; [|exact Hs]]].
      * eapply Forall_impl; [|exact Hdirs]. intros d Hd. unfold not_hidden in Hd.
        apply negb_true_iff in Hd. exact Hd.
      * unfold path_join in Hl. rewrite <- app_assoc in Hl. exact Hl.
    + unfold ret. exists false, w2. split; [reflexivity|].
      split; [eapply quiet_trans; eassumption | discriminate].
Qed.

End DetectorFindings.

(** ** What the manifest patchers leave behind *)

Lemma search_install_requires_absent (s : str) :
  contains INSTALL_REQUIRES s = false -> search_install_requires s = None.
Proof.
  induction s as [|c s IH]; intros H.
  - reflexivity.
  - cbn [contains] in H. apply orb_false_iff in H as [Hsw Hrest].
    cbn [search_install_requires]. unfold install_requires_at at 1.
    rewrite Hsw. apply IH, Hrest.
Qed.

Section ManifestOutcomes.

Context {E : Type}.

Ltac no_change Hrun :=
  repeat match type of Hrun with
    | context [lookup ?p ?n] =>
        destruct (lookup p n) as [[[?|] ? ?|?]|]; try discriminate
    | context [if ?b then _ else _] => destruct b; cbn [negb] in Hrun
    | context [match ?o with Some _ => _ | None => _ end] =>
        destruct o as [[[? ?] ?]|]
    | context [update ?p ?u ?n] => destruct (update p u n); try discriminate
    end;
  try discriminate; try (injection Hrun as <-; reflexivity).

Lemma add_to_requirements_false (p : path) (w w1 : world E) :
  add_to_requirements p w = (Ok false, w1) -> w1 = w.
Proof.
  unfold add_to_requirements, bind, read_text, append_text, store, logger, ret.
  intros Hrun. no_change Hrun.
Qed.

Lemma add_to_pyproject_false (p : path) (w w1 : world E) :
  add_to_pyproject p w = (Ok false, w1) -> w1 = w.
Proof.
  unfold add_to_pyproject, bind, read_text, write_text, store, logger, ret.
  intros Hrun. no_change Hrun.
Qed.

Lemma add_to_setup_py_false (p : path) (w w1 : world E) :
  add_to_setup_py p w = (Ok false, w1) -> w1 = w.
Proof.
  unfold add_to_setup_py, bind, read_text, write_text, store, logger, ret.
  intros Hrun. no_change Hrun.
Qed.

Lemma add_to_pipfile_false (p : path) (w w1 : world E) :
  add_to_pipfile p w = (Ok false, w1) -> w1 = w.
Proof.
  unfold add_to_pipfile, bind, read_text, write_text, store, logger, ret.
  intros Hrun. no_change Hrun.
Qed.

(** X7: when the Dependency Patcher reports no change, it has written
    nothing and logged nothing: the world is the one it started from. *)
Theorem add_dependency_false_untouched (repo_path : path) (w w1 : world E) :
  add_dependency repo_path w = (Ok false, w1) -> w1 = w.
Proof.
  intros Hrun.
  destruct (first_present_or_none repo_path DEPENDENCY_FILES w)
    as [(k & dep_file & add_func & Hk & Hp & Hearlier)|Hnone].
  - unfold add_dependency in Hrun.
    rewrite (add_dependency_from_first repo_path _ w k dep_file add_func
               Hk Hp Hearlier) in Hrun.
    pose proof (nth_error_In _ _ Hk) as Hin. unfold DEPENDENCY_FILES in Hin.
    simpl in Hin.
    destruct Hin as [H|[H|[H|[H|[]]]]]; injection H as <- <-.
    + eapply add_to_requirements_false; eassumption.
    + eapply add_to_pyproject_false; eassumption.
    + eapply add_to_setup_py_false; eassumption.
    + eapply add_to_pipfile_false; eassumption.
  - unfold add_dependency in Hrun.
    rewrite (add_dependency_from_none repo_path _ w Hnone) in Hrun.
    simpl in Hrun. unfold bind, write_text, store, logger, ret in Hrun.
    destruct (update _ _ (fs w)); discriminate.
Qed.

(** X8: in a Pipfile without the dependency name, the pinned entry becomes
    the line right after the first line that is [[packages]] once stripped,
    and a change is reported; without [[packages]] anywhere in the text,
    or with the name already in it, nothing is written. *)
Theorem add_to_pipfile_outcomes (file_path : path) (w : world E)
  (content : str) (size : N) :
  lookup file_path (fs w) = Some (File (Some content) size true) ->
  (contains DEP_NAME content = true \/ contains PIPFILE_HEADER content = false ->
   add_to_pipfile file_path w = (Ok false, w)) /\
  (forall before line rest,
      contains DEP_NAME content = false ->
      split_nl content = before ++ line :: rest ->
      Forall (fun l => strip l <> PIPFILE_HEADER) before ->
      strip line = PIPFILE_HEADER ->
      exists n' size',
        add_to_pipfile file_path w =
        (Ok true, logged INFO (added_msg file_path) (set_fs n' w)) /\
        lookup file_path n' =
        Some (File (Some (join_nl (before ++ line :: PINNED_ENTRY :: rest)))
                size' true)).
Proof.
  intros Hl. split.
  - intros Hc. unfold add_to_pipfile, bind, read_text. rewrite Hl.
    destruct (contains DEP_NAME content); [reflexivity|].
    destruct Hc as [Hc|Hc]; [discriminate|]. rewrite Hc. reflexivity.
  - intros before line rest Hname Hsplit Hbefore Hline.
    assert (Hheader : contains PIPFILE_HEADER content = true).
    { rewrite <- (join_split_nl content), Hsplit.
      apply contains_join_nl with (l := line).
      - apply in_or_app. right. left. reflexivity.
      - rewrite <- Hline. apply contains_strip. }
    set (text := join_nl (before ++ line :: PINNED_ENTRY :: rest)).
    destruct (update_ok_existing file_path (overwrite file_path text) (fs w)
                _ _ Hl eq_refl) as [n' Hu].
    exists n', (utf8_len text). split.
    + unfold add_to_pipfile, bind, read_text, write_text, store.
      rewrite Hl, Hname, Hheader. cbn [negb]. cbv beta iota zeta.
      rewrite Hsplit, insert_after_header_first by assumption.
      fold text. rewrite Hu. reflexivity.
    + destruct (update_lookup_same _ _ _ _ Hu) as (c' & Hl' & Hov).
      rewrite Hl in Hov. simpl in Hov. injection Hov as <-. exact Hl'.
Qed.

(** X9: [add_to_setup_py] writes nothing and reports no change when the
    text has no [install_requires]; and whenever it reports a change, the
    file then holds the quoted name ['dbdemos-tracker']. *)
Theorem add_to_setup_py_outcomes (file_path : path) (w : world E) :
  (forall content size wr,
      lookup file_path (fs w) = Some (File (Some content) size wr) ->
      contains INSTALL_REQUIRES content = false ->
      add_to_setup_py file_path w = (Ok false, w)) /\
  (forall w1,
      add_to_setup_py file_path w = (Ok true, w1) ->
      exists out size',
        lookup file_path (fs w1) = Some (File (Some out) size' true) /\
        contains QUOTED_DEP out = true).
Proof.
  split.
  - intros content size wr Hl Hc.
    unfold add_to_setup_py, bind, read_text. rewrite Hl.
    rewrite (search_install_requires_absent _ Hc).
    destruct (contains DEP_NAME content); reflexivity.
  - intros w1 Hrun.
    unfold add_to_setup_py, bind, read_text in Hrun.
    destruct (lookup file_path (fs w)) as [[[c|] s wr|es]|] eqn:Hl;
      try discriminate.
    destruct (contains DEP_NAME c); cbn [negb] in Hrun; cbv beta iota in Hrun;
      [discriminate|].
    destruct (search_install_requires c) as [[[before deps] after]|] eqn:Hs;
      [|discriminate].
    destruct (search_install_requires_contains _ _ _ _ Hs) as [Hold Hne].
    cbv zeta in Hrun. unfold write_text, store, logger, ret in Hrun.
    match type of Hrun with
    | context [update ?p ?u ?n] =>
        destruct (update p u n) as [n'|] eqn:Hu; [|discriminate]
    end.
    injection Hrun as <-.
    destruct (update_lookup_same _ _ _ _ Hu) as (c' & Hl' & Hov).
    rewrite Hl in Hov. simpl in Hov. destruct wr; [|discriminate].
    injection Hov as <-. simpl. do 2 eexists. split; [exact Hl'|].
    eapply contains_trans; [|apply contains_replace; [exact Hold|]].
    + apply contains_app_r, contains_app_l.
      destruct (strip deps).
      * reflexivity.
      * apply contains_app_r. reflexivity.
    + destruct before; [congruence | discriminate].
Qed.

End ManifestOutcomes.

(** ** What the Initialization Patcher writes *)

Lemma split_nl_single (l : str) : ~ In nl l -> split_nl l = [l].
Proof.
  induction l as [|c l IH]; intros H; [reflexivity|].
  cbn [split_nl]. destruct (Ascii.eqb_spec c nl) as [->|_].
  - exfalso. apply H. left. reflexivity.
  - rewrite IH; [reflexivity|]. intros Hin. apply H. right. exact Hin.
Qed.

Lemma split_nl_lines (s : str) : Forall (fun l => ~ In nl l) (split_nl s).
Proof.
  induction s as [|c s IH]; cbn [split_nl].
  - constructor; [intros [] | constructor].
  - destruct (Ascii.eqb_spec c nl) as [->|Hc].
    + constructor; [intros [] | exact IH].
    + destruct (split_nl s) as [|l ls]; [repeat constructor; intros [H|[]]; auto|].
      inversion IH as [|? ? Hl Hls]; subst. constructor; [|exact Hls].
      intros [H|H]; [congruence | exact (Hl H)].
Qed.

(** Lines without a newline, joined and split again, are the same lines. *)
Lemma split_join_nl (ls : list str) :
  ls <> [] -> Forall (fun l => ~ In nl l) ls -> split_nl (join_nl ls) = ls.
Proof.
  intros Hne H. revert Hne.
  induction H as [|l ls Hl Hls IH]; intros Hne;
    [exfalso; apply Hne; reflexivity|].
  destruct ls as [|l' ls].
  - apply split_nl_single, Hl.
  - rewrite join_nl_cons by discriminate. rewrite split_nl_app_nl.
    rewrite split_nl_single by exact Hl. rewrite IH by discriminate.
    reflexivity.
Qed.

Lemma no_nl_computed (l : str) : existsb (Ascii.eqb nl) l = false -> ~ In nl l.
Proof.
  intros H Hin. induction l as [|c l IH]; [contradiction|].
  cbn [existsb] in H. apply orb_false_iff in H as [Hc Hl].
  destruct Hin as [->|Hin]; [|exact (IH Hl Hin)].
  rewrite Ascii.eqb_refl in Hc. discriminate.
Qed.

Lemma call_line_no_nl (k : nat) : ~ In nl (spaces k ++ INIT_CALL).
Proof.
  intros H. apply in_app_or in H as [H|H].
  - apply repeat_spec in H. discriminate.
  - revert H. apply no_nl_computed. reflexivity.
Qed.

Lemma guard_block_insert_keeps (P : str -> Prop) (rest rest' : list str) :
  guard_block_insert rest = Some rest' ->
  P GUARD_CALL -> Forall P rest -> Forall P rest' /\ In GUARD_CALL rest'.
Proof.
  revert rest'. induction rest as [|l rest IH]; intros rest' H Hc HP;
    cbn [guard_block_insert] in H; [discriminate|].
  inversion HP as [|? ? Hl Hrest]; subst.
  destruct (in_block l); [|discriminate].
  destruct (is_substantive l).
  - injection H as <-. split; [repeat constructor; assumption|].
    left. reflexivity.
  - destruct (guard_block_insert rest) as [r|]; [|discriminate].
    injection H as <-. destruct (IH r eq_refl Hc Hrest) as [HF Hin].
    split; [constructor; assumption | right; exact Hin].
Qed.

Lemma main_guard_insert_keeps (P : str -> Prop) (lines lines' : list str) :
  main_guard_insert lines = Some lines' ->
  P GUARD_CALL -> Forall P lines -> Forall P lines' /\ In GUARD_CALL lines'.
Proof.
  revert lines'. induction lines as [|l lines IH]; intros lines' H Hc HP;
    cbn [main_guard_insert] in H; [discriminate|].
  inversion HP as [|? ? Hl Hrest]; subst.
  destruct (is_guard_line l).
  - destruct (guard_block_insert lines) as [r|] eqn:Hr; [|discriminate].
    injection H as <-.
    destruct (guard_block_insert_keeps P _ _ Hr Hc Hrest) as [HF Hin].
    split; [constructor; assumption | right; exact Hin].
  - destruct (main_guard_insert lines) as [r|]; [|discriminate].
    injection H as <-. destruct (IH r eq_refl Hc Hrest) as [HF Hin].
    split; [constructor; assumption | right; exact Hin].
Qed.

Lemma main_body_insert_keeps (P : str -> Prop) (rest rest' : list str) :
  main_body_insert rest = Some rest' ->
  (forall k, P (spaces k ++ INIT_CALL)) -> Forall P rest ->
  Forall P rest' /\ exists k, In (spaces k ++ INIT_CALL) rest'.
Proof.
  revert rest'. induction rest as [|l rest IH]; intros rest' H Hc HP;
    cbn [main_body_insert] in H; [discriminate|].
  inversion HP as [|? ? Hl Hrest]; subst.
  destruct (is_blank_or_comment l).
  - destruct (main_body_insert rest) as [r|]; [|discriminate].
    injection H as <-. destruct (IH r eq_refl Hc Hrest) as [HF [k Hin]].
    split; [constructor; assumption | exists k; right; exact Hin].
  - injection H as <-. split; [repeat constructor; auto|].
    eexists. left. reflexivity.
Qed.

Lemma main_function_insert_keeps (P : str -> Prop) (lines lines' : list str) :
  main_function_insert lines = Some lines' ->
  (forall k, P (spaces k ++ INIT_CALL)) -> Forall P lines ->
  Forall P lines' /\ exists k, In (spaces k ++ INIT_CALL) lines'.
Proof.
  revert lines'. induction lines as [|l lines IH]; intros lines' H Hc HP;
    cbn [main_function_insert] in H; [discriminate|].
  inversion HP as [|? ? Hl Hrest]; subst.
  destruct (match_def_main (strip l)).
  - destruct (main_body_insert lines) as [r|] eqn:Hr; [|discriminate].
    injection H as <-.
    destruct (main_body_insert_keeps P _ _ Hr Hc Hrest) as [HF [k Hin]].
    split; [constructor; assumption | exists k; right; exact Hin].
  - destruct (main_function_insert lines) as [r|]; [|discriminate].
    injection H as <-. destruct (IH r eq_refl Hc Hrest) as [HF [k Hin]].
    split; [constructor; assumption | exists k; right; exact Hin].
Qed.

(** The lines written back: none holds a newline, one is the import, one is
    the call behind some indentation, and every line read is among them. *)
Lemma patched_lines_shape (content : str) :
  Forall (fun l => ~ In nl l) (patched_lines content) /\
  In IMPORT_STMT (patched_lines content) /\
  (exists k, In (spaces k ++ INIT_CALL) (patched_lines content)) /\
  incl (split_nl content) (patched_lines content).
Proof.
  assert (Himp : ~ In nl IMPORT_STMT) by (apply no_nl_computed; reflexivity).
  assert (Hmark : ~ In nl MARKER_COMMENT) by (apply no_nl_computed; reflexivity).
  split; [|split; [apply patched_lines_import|split]].
  - unfold patched_lines.
    set (lines := insert_at _ IMPORT_STMT (split_nl content)).
    assert (Hlines : Forall (fun l => ~ In nl l) lines).
    { apply Forall_insert_at; [exact Himp | apply split_nl_lines]. }
    destruct (main_guard_insert lines) as [l1|] eqn:H1.
    + apply (main_guard_insert_keeps _ _ _ H1 (call_line_no_nl 4) Hlines).
    + destruct (main_function_insert lines) as [l2|] eqn:H2.
      * apply (main_function_insert_keeps _ _ _ H2 call_line_no_nl Hlines).
      * apply Forall_app. split; [exact Hlines|].
        repeat constructor; [intros [] | exact Hmark | apply (call_line_no_nl 0)].
  - unfold patched_lines.
    set (lines := insert_at _ IMPORT_STMT (split_nl content)).
    destruct (main_guard_insert lines) as [l1|] eqn:H1.
    + exists 4.
      apply (main_guard_insert_keeps (fun _ => True) _ _ H1 I).
      apply Forall_forall. auto.
    + destruct (main_function_insert lines) as [l2|] eqn:H2.
      * apply (main_function_insert_keeps (fun _ => True) _ _ H2 (fun _ => I)).
        apply Forall_forall. auto.
      * exists 0. apply in_or_app. right. right. right. left. reflexivity.
  - intros l Hl. unfold patched_lines.
    set (lines := insert_at _ IMPORT_STMT (split_nl content)).
    assert (Hin : In l lines) by (apply insert_at_incl; exact Hl).
    destruct (main_guard_insert lines) as [l1|] eqn:H1.
    + eapply main_guard_insert_incl; eassumption.
    + destruct (main_function_insert lines) as [l2|] eqn:H2.
      * eapply main_function_insert_incl; eassumption.
      * apply in_or_app. left. exact Hin.
Qed.

Section PatchedFile.

Context {E : Type}.

(** X10: whenever [add_tracker_init_to_file] reports a change, the file it
    wrote has a line [import dbdemos_tracker], a line that is
    [dbdemos_tracker.initialize()] behind some indentation, and every line
    the file had before. *)
Theorem add_tracker_init_true_shape (file_path : path) (w w1 : world E) :
  add_tracker_init_to_file file_path w = (Ok true, w1) ->
  exists content size wr out size',
    lookup file_path (fs w) = Some (File (Some content) size wr) /\
    lookup file_path (fs w1) = Some (File (Some out) size' true) /\
    In IMPORT_STMT (split_nl out) /\
    (exists k, In (spaces k ++ INIT_CALL) (split_nl out)) /\
    incl (split_nl content) (split_nl out).
Proof.
  intros Hrun. rewrite add_tracker_init_to_file_body in Hrun.
  pose proof (add_tracker_init_body_cases file_path w) as Hc.
  destruct (lookup file_path (fs w)) as [[[c|] s wr|es]|] eqn:Hl;
    try (destruct Hc as [e Hc]; rewrite Hc in Hrun; discriminate).
  destruct (has_import c) eqn:Hg.
  { rewrite Hc in Hrun. discriminate. }
  destruct (update file_path _ (fs w)) as [n'|e] eqn:Hu;
    rewrite Hc in Hrun; [|discriminate].
  injection Hrun as <-.
  destruct (update_lookup_same _ _ _ _ Hu) as (c' & Hl' & Hov).
  rewrite Hl in Hov. simpl in Hov. destruct wr; [|discriminate].
  injection Hov as <-.
  destruct (patched_lines_shape c) as (Hnl & Himp & Hcall & Hincl).
  assert (Hsplit : split_nl (join_nl (patched_lines c)) = patched_lines c).
  { apply split_join_nl; [|exact Hnl].
    intros Hnil. rewrite Hnil in Himp. contradiction. }
  do 5 eexists. split; [reflexivity|]. split; [exact Hl'|].
  rewrite Hsplit. auto.
Qed.

End PatchedFile.

(** X11: the import line goes right after the last line that starts, once
    stripped, with [import ] or [from ], wherever that line is; when no line
    does, it becomes the first line of the file. *)
Theorem import_line_position (lines : list str) :
  (Forall (fun l => is_import_line l = false) lines ->
   insert_at (import_line_idx lines) IMPORT_STMT lines = IMPORT_STMT :: lines) /\
  (forall above last below,
      lines = above ++ last :: below ->
      is_import_line last = true ->
      Forall (fun l => is_import_line l = false) below ->
      insert_at (import_line_idx lines) IMPORT_STMT lines
      = above ++ last :: IMPORT_STMT :: below).
Proof.
  split.
  - intros H. unfold import_line_idx.
    rewrite import_line_idx_from_none by exact H. reflexivity.
  - intros above last below -> Hlast Hbelow. unfold import_line_idx.
    rewrite import_line_idx_from_app. cbn [import_line_idx_from].
    rewrite Hlast. rewrite import_line_idx_from_none by exact Hbelow.
    change (above ++ last :: below) with (above ++ [last] ++ below).
    rewrite app_assoc.
    replace (S (0 + List.length above)) with (List.length (above ++ [last]))
      by (rewrite length_app; simpl; lia).
    rewrite insert_at_app_r by lia. rewrite Nat.sub_diag.
    unfold insert_at. simpl. rewrite <- app_assoc. reflexivity.
Qed.

Lemma main_guard_insert_none (lines : list str) :
  Forall (fun l => is_guard_line l = false) lines ->
  main_guard_insert lines = None.
Proof.
  intros H. induction H as [|l lines Hl _ IH]; [reflexivity|].
  cbn [main_guard_insert]. rewrite Hl, IH. reflexivity.
Qed.

Lemma main_function_insert_none (lines : list str) :
  Forall (fun l => match_def_main (strip l) = false) lines ->
  main_function_insert lines = None.
Proof.
  intros H. induction H as [|l lines Hl _ IH]; [reflexivity|].
  cbn [main_function_insert]. rewrite Hl, IH. reflexivity.
Qed.

Lemma main_body_insert_at (gap : list str) (stmt : str) (rest : list str) :
  Forall (fun l => is_blank_or_comment l = true) gap ->
  is_blank_or_comment stmt = false ->
  main_body_insert (gap ++ stmt :: rest) =
  Some (gap ++ (spaces (List.length stmt - List.length (lstrip stmt))
                  ++ INIT_CALL) :: stmt :: rest).
Proof.
  intros Hgap Hs. induction Hgap as [|l gap Hl _ IH];
    cbn [main_body_insert app].
  - rewrite Hs. reflexivity.
  - rewrite Hl, IH. reflexivity.
Qed.

Lemma main_function_insert_at (before : list str) (header : str)
  (gap : list str) (stmt : str) (rest : list str) :
  Forall (fun l => match_def_main (strip l) = false) before ->
  match_def_main (strip header) = true ->
  Forall (fun l => is_blank_or_comment l = true) gap ->
  is_blank_or_comment stmt = false ->
  main_function_insert (before ++ header :: gap ++ stmt :: rest) =
  Some (before ++ header :: gap
          ++ (spaces (List.length stmt - List.length (lstrip stmt))
                ++ INIT_CALL) :: stmt :: rest).
Proof.
  intros Hbefore Hh Hgap Hs.
  induction Hbefore as [|l before Hl _ IH]; cbn [main_function_insert app].
  - rewrite Hh, main_body_insert_at by assumption. reflexivity.
  - rewrite Hl, IH. reflexivity.
Qed.

Lemma def_main_not_import (l : str) :
  match_def_main (strip l) = true -> is_import_line l = false.
Proof.
  unfold match_def_main, is_import_line. intros H.
  apply andb_true_iff in H as [H _].
  destruct (startswith_inv _ _ H) as [r ->]. reflexivity.
Qed.

Lemma blank_or_comment_not_import (l : str) :
  is_blank_or_comment l = true -> is_import_line l = false.
Proof.
  unfold is_blank_or_comment, is_import_line. intros H.
  apply orb_true_iff in H as [H|H].
  - apply str_eqb_eq in H. rewrite H. reflexivity.
  - destruct (startswith_inv _ _ H) as [r ->]. reflexivity.
Qed.

(** Where the import line goes around a block of lines none of which
    looks like an import: above the block or below the line that follows
    it. *)
Lemma import_around_block (before : list str) (header : str)
  (gap : list str) (stmt : str) (rest : list str) :
  Forall (fun l => is_import_line l = false) (header :: gap) ->
  exists A B,
    insert_at (import_line_idx (before ++ header :: gap ++ stmt :: rest))
      IMPORT_STMT (before ++ header :: gap ++ stmt :: rest)
    = A ++ header :: gap ++ stmt :: B /\
    (forall P : str -> Prop, P IMPORT_STMT -> Forall P before -> Forall P A).
Proof.
  intros Hmid.
  set (k1 := import_line_idx_from 0 0 before).
  assert (Hk1 : k1 <= List.length before).
  { subst k1. destruct (import_line_idx_from_range 0 0 before) as [->|H]; lia. }
  assert (Hidx :
    import_line_idx (before ++ header :: gap ++ stmt :: rest) =
    import_line_idx_from (List.length before + S (List.length gap)) k1
      (stmt :: rest)).
  { unfold import_line_idx.
    change (before ++ header :: gap ++ stmt :: rest)
      with (before ++ (header :: gap) ++ stmt :: rest).
    rewrite !import_line_idx_from_app.
    rewrite (import_line_idx_from_none _ _ _ Hmid). reflexivity. }
  rewrite Hidx. clear Hidx.
  destruct (import_line_idx_from_range
              (List.length before + S (List.length gap)) k1
              (stmt :: rest)) as [->|Hk].
  - exists (insert_at k1 IMPORT_STMT before), rest. split.
    + apply insert_at_app_l. assumption.
    + intros P HP Hb. apply Forall_insert_at; assumption.
  - set (k := import_line_idx_from _ k1 (stmt :: rest)) in *.
    simpl List.length in Hk.
    exists before,
      (insert_at (k - List.length before - S (List.length gap) - 1)
         IMPORT_STMT rest).
    split; [|intros P _ Hb; exact Hb].
    rewrite insert_at_app_r by lia. f_equal.
    change (header :: gap ++ stmt :: rest)
      with ((header :: gap) ++ [stmt] ++ rest).
    rewrite (insert_at_app_r _ _ (header :: gap)) by (simpl; lia).
    rewrite (insert_at_app_r _ _ [stmt] rest) by (simpl; lia).
    simpl. repeat (f_equal; try lia).
Qed.

Section OtherBranches.

Context {E : Type}.

(** X12: in a writable file without the tracker import and without any
    line naming both [__name__] and [__main__], when the first line that
    opens a definition of [main] is followed, after blank and comment lines
    only, by another line, the call is written as a new line immediately
    before that line, behind as many spaces as that line has leading
    whitespace characters, and a change is reported. *)
Theorem main_function_statement_patched (file_path : path) (w : world E)
  (content : str) (size : N) (before : list str) (header : str)
  (gap : list str) (stmt : str) (rest : list str) :
  lookup file_path (fs w) = Some (File (Some content) size true) ->
  has_import content = false ->
  split_nl content = before ++ header :: gap ++ stmt :: rest ->
  Forall (fun l => is_guard_line l = false) (split_nl content) ->
  Forall (fun l => match_def_main (strip l) = false) before ->
  match_def_main (strip header) = true ->
  Forall (fun l => is_blank_or_comment l = true) gap ->
  is_blank_or_comment stmt = false ->
  exists A B n' size',
    insert_at (import_line_idx (split_nl content)) IMPORT_STMT
      (split_nl content) = A ++ header :: gap ++ stmt :: B /\
    add_tracker_init_to_file file_path w =
    (Ok true, logged INFO (patched_msg file_path) (set_fs n' w)) /\
    lookup file_path n' =
    Some (File
            (Some (join_nl
                     (A ++ header :: gap
                        ++ (spaces (List.length stmt - List.length (lstrip stmt))
                              ++ INIT_CALL) :: stmt :: B)))
            size' true).
Proof.
  intros Hl Hg Hsplit Hnoguard Hbefore Hheader Hgap Hstmt.
  assert (Hmid : Forall (fun l => is_import_line l = false) (header :: gap)).
  { constructor; [apply def_main_not_import, Hheader|].
    eapply Forall_impl; [|exact Hgap]. apply blank_or_comment_not_import. }
  destruct (import_around_block before header gap stmt rest Hmid)
    as (A & B & Hins & HA).
  set (call := spaces (List.length stmt - List.length (lstrip stmt)) ++ INIT_CALL).
  assert (Hlines : patched_lines content =
                   A ++ header :: gap ++ call :: stmt :: B).
  { unfold patched_lines.
    rewrite main_guard_insert_none
      by (apply Forall_insert_at; [reflexivity | exact Hnoguard]).
    rewrite Hsplit, Hins.
    rewrite main_function_insert_at; [reflexivity | | assumption..].
    apply HA; [reflexivity | exact Hbefore]. }
  set (text := join_nl (A ++ header :: gap ++ call :: stmt :: B)).
  destruct (update_ok_existing file_path (overwrite file_path text) (fs w)
              _ _ Hl eq_refl) as [n' Hu].
  exists A, B, n', (utf8_len text).
  split; [rewrite Hsplit; exact Hins|].
  split.
  - rewrite add_tracker_init_to_file_body.
    pose proof (add_tracker_init_body_cases file_path w) as Hc.
    rewrite Hl, Hg, Hlines in Hc. fold text in Hc. rewrite Hu in Hc.
    rewrite Hc. reflexivity.
  - destruct (update_lookup_same _ _ _ _ Hu) as (c' & Hl' & Hov).
    rewrite Hl in Hov. simpl in Hov. injection Hov as <-. exact Hl'.
Qed.

(** X13: in a writable file without the tracker import, without any line
    naming both [__name__] and [__main__] and without any line that opens
    a definition of [main], the call is appended at the end of the file,
    after an empty line and the marker comment, and a change is reported. *)
Theorem call_appended_at_end (file_path : path) (w : world E)
  (content : str) (size : N) :
  lookup file_path (fs w) = Some (File (Some content) size true) ->
  has_import content = false ->
  Forall (fun l => is_guard_line l = false) (split_nl content) ->
  Forall (fun l => match_def_main (strip l) = false) (split_nl content) ->
  exists n' size',
    add_tracker_init_to_file file_path w =
    (Ok true, logged INFO (patched_msg file_path) (set_fs n' w)) /\
    lookup file_path n' =
    Some (File
            (Some (join_nl
                     (insert_at (import_line_idx (split_nl content)) IMPORT_STMT
                        (split_nl content)
                        ++ [[]; MARKER_COMMENT; INIT_CALL])))
            size' true).
Proof.
  intros Hl Hg Hnoguard Hnomain.
  assert (Hlines : patched_lines content =
                   insert_at (import_line_idx (split_nl content)) IMPORT_STMT
                     (split_nl content) ++ [[]; MARKER_COMMENT; INIT_CALL]).
  { unfold patched_lines.
    rewrite main_guard_insert_none
      by (apply Forall_insert_at; [reflexivity | exact Hnoguard]).
    rewrite main_function_insert_none
      by (apply Forall_insert_at; [reflexivity | exact Hnomain]).
    reflexivity. }
  set (text := join_nl (patched_lines content)).
  destruct (update_ok_existing file_path (overwrite file_path text) (fs w)
              _ _ Hl eq_refl) as [n' Hu].
  exists n', (utf8_len text). split.
  - rewrite add_tracker_init_to_file_body.
    pose proof (add_tracker_init_body_cases file_path w) as Hc.
    rewrite Hl, Hg in Hc. fold text in Hc. rewrite Hu in Hc.
    rewrite Hc. reflexivity.
  - destruct (update_lookup_same _ _ _ _ Hu) as (c' & Hl' & Hov).
    rewrite Hl in Hov. simpl in Hov. injection Hov as <-.
    rewrite Hl'. subst text. rewrite Hlines. reflexivity.
Qed.

End OtherBranches.

(** ** A second run of the Initialization Patcher *)

Lemma set_entry_names (name : str) (v c : node) (es : list (str * node)) :
  assoc name es = Some c -> map fst (set_entry name v es) = map fst es.
Proof.
  induction es as [|[k u] es IH]; cbn [assoc set_entry]; [discriminate|].
  destruct (str_eqb k name); intros H; [reflexivity|].
  cbn [map fst]. rewrite IH by exact H. reflexivity.
Qed.

Lemma assoc_listed (name : str) (es : list (str * node)) :
  assoc name es <> None <-> In name (map fst es).
Proof.
  induction es as [|[k u] es IH]; cbn [assoc map fst In].
  - split; [congruence | contradiction].
  - destruct (str_eqb k name) eqn:Hk.
    + apply str_eqb_eq in Hk. split; [auto | discriminate].
    + split.
      * intros H. right. apply IH, H.
      * intros [H|H]; [|apply IH, H].
        subst k. rewrite str_eqb_refl in Hk. discriminate.
Qed.

(** Writing a file over a file changes neither which paths exist nor what
    the directories list. *)
Lemma update_file_keeps_names (p : path) upd (n n' : node)
  (t : option str) (s : N) (wr : bool) :
  update p upd n = Ok n' ->
  lookup p n = Some (File t s wr) ->
  (forall o r, upd o = Ok r -> is_dir r = false) ->
  forall q,
    (lookup q n' = None <-> lookup q n = None) /\
    (forall es, lookup q n = Some (Dir es) ->
                exists es', lookup q n' = Some (Dir es') /\
                            map fst es' = map fst es).
Proof.
  intros Hu Hl Hfile. revert n n' Hu Hl.
  induction p as [|a p IH]; intros n n' Hu Hl q.
  - cbn [update lookup] in Hu, Hl. injection Hl as ->.
    pose proof (Hfile _ _ Hu) as Hr. destruct n' as [t' s' wr'|]; [|discriminate].
    destruct q as [|b q]; cbn [lookup].
    + split; [split; discriminate | discriminate].
    + split; [tauto | discriminate].
  - cbn [update lookup] in Hu, Hl.
    destruct n as [|es0]; [discriminate|].
    destruct (assoc a es0) as [c|] eqn:Ha; [|discriminate].
    destruct (update p upd c) as [c'|] eqn:Hc; [|discriminate].
    injection Hu as <-.
    destruct q as [|b q]; cbn [lookup].
    + split; [split; discriminate|].
      intros es [= <-]. eexists. split; [reflexivity|].
      eapply set_entry_names. exact Ha.
    + destruct (list_eq_dec ascii_dec b a) as [->|Hne].
      * rewrite assoc_set_entry_same, Ha. apply (IH c c' Hc Hl q).
      * rewrite assoc_set_entry_other by exact Hne.
        destruct (assoc b es0) as [d|]; [|split; [tauto | discriminate]].
        split; [tauto | eauto].
Qed.

Section SecondPatch.

Context {E : Type}.

Lemma overwrite_file (p : path) (t : str) (o : option node) (r : node) :
  overwrite p t o = Ok r -> is_dir r = false.
Proof.
  destruct o as [[? ? []|]|]; cbn [overwrite]; intros [= <-]; reflexivity.
Qed.

(** A run of the patcher that returned leaves the files as they were or
    has written the file over itself; a run after it returns false and
    writes nothing. *)
Lemma add_tracker_init_again (p : path) (w w1 : world E) (b : bool) :
  add_tracker_init_to_file p w = (Ok b, w1) ->
  (fs w1 = fs w \/
   exists c s wr t,
     lookup p (fs w) = Some (File (Some c) s wr) /\
     update p (overwrite p t) (fs w) = Ok (fs w1)) /\
  exists w2, add_tracker_init_to_file p w1 = (Ok false, w2) /\ fs w2 = fs w1.
Proof.
  unfold add_tracker_init_to_file, try_except, add_tracker_init_body, bind,
    read_text, write_text, store, logger, ret.
  destruct (lookup p (fs w)) as [[[c|] s wr|es]|] eqn:Hl.
  - destruct (has_import c) eqn:Hg.
    + intros [= <- <-]. split; [left; reflexivity|].
      rewrite Hl, Hg. eexists. split; reflexivity.
    + destruct (update p _ (fs w)) as [n'|e] eqn:Hu.
      * intros [= <- <-]. cbn [fs logged set_fs].
        split; [right; eauto 6|].
        destruct (update_lookup_same _ _ _ _ Hu) as (c' & Hl' & Hov).
        rewrite Hl in Hov. cbn [overwrite] in Hov.
        destruct wr; [|discriminate]. injection Hov as <-.
        rewrite Hl'. unfold has_import. rewrite patched_text_import.
        cbn [orb]. eexists. split; reflexivity.
      * intros [= <- <-]. cbn [fs logged]. split; [left; reflexivity|].
        rewrite Hl. cbv beta iota. rewrite Hg. cbv beta iota.
        cbn [fs logged]. rewrite Hu. eexists. split; reflexivity.
  - intros [= <- <-]. cbn [fs logged]. split; [left; reflexivity|].
    rewrite Hl. eexists. split; reflexivity.
  - intros [= <- <-]. cbn [fs logged]. split; [left; reflexivity|].
    rewrite Hl. eexists. split; reflexivity.
  - intros [= <- <-]. cbn [fs logged]. split; [left; reflexivity|].
    rewrite Hl. eexists. split; reflexivity.
Qed.

Lemma first_existing_found (repo_path : path) (candidates : list str)
  (name : str) (w : world E) :
  In name candidates ->
  lookup (path_join repo_path name) (fs w) <> None ->
  exists t, first_existing repo_path candidates w = (Ok (Some t), w).
Proof.
  intros Hin Hex. induction candidates as [|c rest IH]; [contradiction|].
  cbn [first_existing]. unfold bind, path_exists.
  destruct (lookup (path_join repo_path c) (fs w)) eqn:Hl.
  - eexists. reflexivity.
  - destruct Hin as [->|Hin]; [contradiction | exact (IH Hin)].
Qed.

Lemma first_existing_same (repo_path : path) (candidates : list str)
  (w v : world E) :
  (forall q, lookup q (fs v) = None <-> lookup q (fs w) = None) ->
  exists t,
    first_existing repo_path candidates w = (Ok t, w) /\
    first_existing repo_path candidates v = (Ok t, v).
Proof.
  intros Hsame. induction candidates as [|c rest IH].
  - exists None. split; reflexivity.
  - cbn [first_existing]. unfold bind, path_exists.
    pose proof (Hsame (path_join repo_path c)) as Hc.
    destruct (lookup (path_join repo_path c) (fs w)) eqn:Hw;
      destruct (lookup (path_join repo_path c) (fs v)) eqn:Hv.
    + eexists. split; reflexivity.
    + exfalso. destruct Hc as [Hc _]. specialize (Hc eq_refl). discriminate.
    + exfalso. destruct Hc as [_ Hc]. specialize (Hc eq_refl). discriminate.
    + exact IH.
Qed.

(** With a candidate at the root, the search stops at a candidate and
    logs nothing. *)
Lemma initialization_target_by_name (repo_path : path) (w : world E)
  (es : list (str * node)) (name : str) :
  lookup repo_path (fs w) = Some (Dir es) ->
  assoc name es <> None -> candidate_name name ->
  exists t,
    first_existing repo_path
      (ENTRY_POINTS
         ++ filter (fun f => endswith DOT_PY f && negb (startswith (py "setup") f))
              (map fst es)) w = (Ok (Some t), w) /\
    initialization_target repo_path w = (Ok (Some t), w).
Proof.
  intros Hroot Hname Hcand.
  assert (Hex : lookup (path_join repo_path name) (fs w) <> None).
  { unfold path_join. rewrite lookup_app, Hroot. cbn [lookup].
    destruct (assoc name es); [discriminate | congruence]. }
  destruct (first_existing_found repo_path
              (ENTRY_POINTS
                 ++ filter (fun f => endswith DOT_PY f
                                     && negb (startswith (py "setup") f))
                      (map fst es)) name w) as [t Ht].
  - apply in_or_app. destruct Hcand as [Hep|[Hpy Hsetup]]; [left; exact Hep|].
    right. apply filter_In. split; [apply assoc_listed, Hname|].
    rewrite Hpy, Hsetup. reflexivity.
  - exact Hex.
  - exists t. split; [exact Ht|].
    unfold initialization_target, bind, listdir. rewrite Hroot.
    cbv beta iota zeta. rewrite Ht. reflexivity.
Qed.

(** X14: when the root of the repository holds an entry point by name
    ([main.py], [app.py], [__main__.py], [run.py]) or any Python file whose
    name does not start with [setup], a run of [add_initialization] that
    returned is followed by a run that reports no change and writes
    nothing: the initialization is not added a second time. *)
Theorem add_initialization_by_name_once (repo_path : path) (w w1 : world E)
  (es : list (str * node)) (name : str) (b : bool) :
  lookup repo_path (fs w) = Some (Dir es) ->
  assoc name es <> None -> candidate_name name ->
  add_initialization repo_path w = (Ok b, w1) ->
  exists w2,
    add_initialization repo_path w1 = (Ok false, w2) /\ fs w2 = fs w1.
Proof.
  intros Hroot Hname Hcand Hrun.
  destruct (initialization_target_by_name repo_path w es name Hroot Hname Hcand)
    as (t & Hfirst & Htarget).
  unfold add_initialization, bind in Hrun. rewrite Htarget in Hrun.
  destruct (add_tracker_init_again t w w1 b Hrun) as [Hfs (w2 & Hagain & Hfs2)].
  exists w2. split; [|exact Hfs2].
  assert (Hkeep : forall q,
            (lookup q (fs w1) = None <-> lookup q (fs w) = None) /\
            (forall es0, lookup q (fs w) = Some (Dir es0) ->
               exists es', lookup q (fs w1) = Some (Dir es') /\
                           map fst es' = map fst es0)).
  { destruct Hfs as [->|(c & s & wr & txt & Hl & Hu)].
    - intros q. split; [tauto | eauto].
    - intros q. eapply update_file_keeps_names; [exact Hu | exact Hl|].
      apply overwrite_file. }
  destruct (proj2 (Hkeep repo_path) es Hroot) as (es' & Hroot' & Hnames).
  destruct (first_existing_same repo_path
              (ENTRY_POINTS
                 ++ filter (fun f => endswith DOT_PY f
                                     && negb (startswith (py "setup") f))
                      (map fst es)) w w1 (fun q => proj1 (Hkeep q)))
    as (t' & Hw & Hw1).
  rewrite Hfirst in Hw. injection Hw as <-.
  unfold add_initialization, bind.
  unfold initialization_target, bind, listdir. rewrite Hroot'.
  cbv beta iota zeta. rewrite Hnames, Hw1. exact Hagain.
Qed.

End SecondPatch.

(** ** The search for the largest Python file *)

Section LargestFile.

Context {E : Type}.

(** One file of the search: the pair kept is the old one, or this file
    with its size when that is larger. *)
Lemma largest_in_files_spec (root : path) (files : list str)
  (o0 : option path) (n0 : N) (w : world E) :
  exists o n,
    largest_in_files root files (o0, n0) w = (Ok (o, n), w) /\
    (n0 <= n)%N /\
    (forall file t s wr,
        In file files -> endswith DOT_PY file = true ->
        lookup (path_join root file) (fs w) = Some (File t s wr) ->
        (s <= n)%N) /\
    ((o, n) = (o0, n0) \/
     exists file t wr,
       In file files /\ endswith DOT_PY file = true /\
       o = Some (path_join root file) /\
       lookup (path_join root file) (fs w) = Some (File t n wr) /\
       (n0 < n)%N).
Proof.
  revert o0 n0. induction files as [|f rest IH]; intros o0 n0.
  - exists o0, n0. split; [reflexivity|]. split; [lia|].
    split; [intros ? ? ? ? []|]. left. reflexivity.
  - cbn [largest_in_files]. unfold bind at 1.
    assert (Hstep : exists o1 n1,
              (if endswith DOT_PY f
               then try_except
                      (size <- getsize (path_join root f) ;;
                       ret (if (snd (o0, n0) <? size)%N
                            then (Some (path_join root f), size)
                            else (o0, n0)))
                      (fun _ => ret (o0, n0))
               else ret (o0, n0)) w = (Ok (o1, n1), w) /\
              (n0 <= n1)%N /\
              (forall t s wr, endswith DOT_PY f = true ->
                 lookup (path_join root f) (fs w) = Some (File t s wr) ->
                 (s <= n1)%N) /\
              ((o1, n1) = (o0, n0) \/
               exists t wr, endswith DOT_PY f = true /\
                 o1 = Some (path_join root f) /\
                 lookup (path_join root f) (fs w) = Some (File t n1 wr) /\
                 (n0 < n1)%N)).
    { destruct (endswith DOT_PY f).
      - unfold try_except, bind, getsize, ret. cbn [snd].
        destruct (lookup (path_join root f) (fs w)) as [[t s wr|es]|] eqn:Hl.
        + destruct (N.ltb_spec n0 s) as [Hlt|Hge].
          * exists (Some (path_join root f)), s. split; [reflexivity|].
            split; [lia|]. split; [intros ? ? ? _ [= _ <- _]; lia|].
            right. exists t, wr. auto.
          * exists o0, n0. split; [reflexivity|]. split; [lia|].
            split; [intros ? ? ? _ [= _ <- _]; lia|]. left. reflexivity.
        + destruct (N.ltb_spec n0 0) as [Hlt|Hge]; [lia|].
          exists o0, n0. split; [reflexivity|]. split; [lia|].
          split; [intros ? ? ? _ [=]|]. left. reflexivity.
        + exists o0, n0. split; [reflexivity|]. split; [lia|].
          split; [intros ? ? ? _ [=]|]. left. reflexivity.
      - exists o0, n0. split; [reflexivity|]. split; [lia|].
        split; [intros ? ? ? [=]|]. left. reflexivity. }
    destruct Hstep as (o1 & n1 & -> & Hle1 & Hb1 & Hp1).
    destruct (IH o1 n1) as (o & n & -> & Hle & Hb & Hp).
    exists o, n. split; [reflexivity|]. split; [lia|]. split.
    + intros file t s wr [<-|Hin] Hpy Hl.
      * specialize (Hb1 t s wr Hpy Hl). lia.
      * exact (Hb file t s wr Hin Hpy Hl).
    + destruct Hp as [[= -> ->]|(file & t & wr & Hin & Hpy & Ho & Hl & Hlt)].
      * destruct Hp1 as [Hp1|(t & wr & Hpy & Ho & Hl & Hlt)];
          [left; exact Hp1|].
        right. exists f, t, wr. repeat split; auto. left. reflexivity.
      * right. exists file, t, wr. repeat split; auto; [right; exact Hin | lia].
Qed.

Lemma largest_in_walk_spec (triples : list (path * list str * list str))
  (o0 : option path) (n0 : N) (w : world E) :
  exists o n,
    largest_in_walk triples (o0, n0) w = (Ok (o, n), w) /\
    (n0 <= n)%N /\
    (forall root ds files file t s wr,
        In (root, ds, files) triples ->
        In file files -> endswith DOT_PY file = true ->
        lookup (path_join root file) (fs w) = Some (File t s wr) ->
        (s <= n)%N) /\
    ((o, n) = (o0, n0) \/
     exists root ds files file t wr,
       In (root, ds, files) triples /\
       In file files /\ endswith DOT_PY file = true /\
       o = Some (path_join root file) /\
       lookup (path_join root file) (fs w) = Some (File t n wr) /\
       (n0 < n)%N).
Proof.
  revert o0 n0. induction triples as [|[[r ds] fls] rest IH]; intros o0 n0.
  - exists o0, n0. split; [reflexivity|]. split; [lia|].
    split; [intros ? ? ? ? ? ? ? []|]. left. reflexivity.
  - cbn [largest_in_walk]. unfold bind at 1.
    destruct (largest_in_files_spec r fls o0 n0 w)
      as (o1 & n1 & -> & Hle1 & Hb1 & Hp1).
    destruct (IH o1 n1) as (o & n & -> & Hle & Hb & Hp).
    exists o, n. split; [reflexivity|]. split; [lia|]. split.
    + intros root ds' files file t s wr [[= <- <- <-]|Hin] Hf Hpy Hl.
      * specialize (Hb1 file t s wr Hf Hpy Hl). lia.
      * exact (Hb root ds' files file t s wr Hin Hf Hpy Hl).
    + destruct Hp as [[= -> ->]|
                      (root & ds' & files & file & t & wr
                       & Hin & Hf & Hpy & Ho & Hl & Hlt)].
      * destruct Hp1 as [Hp1|(file & t & wr & Hf & Hpy & Ho & Hl & Hlt)];
          [left; exact Hp1|].
        right. exists r, ds, fls, file, t, wr.
        repeat split; auto. left. reflexivity.
      * right. exists root, ds', files, file, t, wr.
        repeat split; auto; [right; exact Hin | lia].
Qed.

Lemma first_existing_none (repo_path : path) (candidates : list str)
  (w : world E) :
  (forall c, In c candidates ->
             lookup (path_join repo_path c) (fs w) = None) ->
  first_existing repo_path candidates w = (Ok None, w).
Proof.
  induction candidates as [|c rest IH]; intros H; [reflexivity|].
  cbn [first_existing]. unfold bind, path_exists.
  rewrite (H c) by (left; reflexivity).
  apply IH. intros d Hd. apply H. right. exact Hd.
Qed.

(** Without a candidate by name at the root, the search goes over the
    walk. *)
Lemma initialization_target_by_size (repo_path : path) (w : world E)
  (es : list (str * node)) :
  lookup repo_path (fs w) = Some (Dir es) ->
  (forall name, candidate_name name -> assoc name es = None) ->
  initialization_target repo_path w =
  (best <- largest_in_walk (os_walk not_hidden repo_path (Dir es)) (None, 0%N) ;;
   match fst best with
   | Some largest_file =>
       logger INFO
         (py "Adding initialization to largest Python file: "
            ++ path_str largest_file) ;;
       ret (Some largest_file)
   | None => ret None
   end) w.
Proof.
  intros Hroot Hnone.
  unfold initialization_target, bind at 1, listdir. rewrite Hroot.
  cbv beta iota zeta. unfold bind at 1.
  rewrite first_existing_none.
  - unfold bind at 1, walk. rewrite Hroot. reflexivity.
  - intros c Hc. unfold path_join. rewrite lookup_app, Hroot. cbn [lookup].
    rewrite Hnone; [reflexivity|].
    apply in_app_or in Hc as [Hc|Hc]; [left; exact Hc|].
    apply filter_In in Hc as [_ Hc]. apply andb_true_iff in Hc as [Hpy Hs].
    right. split; [exact Hpy|]. apply negb_true_iff in Hs. exact Hs.
Qed.

(** X15: when the root holds no candidate by name, the file chosen is a
    Python file outside the hidden directories, of a size that is positive
    and at least the size of every Python file outside the hidden
    directories; no file is chosen exactly when all of these are empty. *)
Theorem initialization_target_largest (repo_path : path) (w : world E)
  (es : list (str * node)) :
  lookup repo_path (fs w) = Some (Dir es) ->
  (forall name, candidate_name name -> assoc name es = None) ->
  exists o n w',
    initialization_target repo_path w = (Ok o, w') /\ quiet w w' /\
    (forall dirs file t s wr,
        Forall (fun d => startswith (py ".") d = false) dirs ->
        endswith DOT_PY file = true ->
        lookup (repo_path ++ dirs ++ [file]) (fs w) = Some (File t s wr) ->
        (s <= n)%N) /\
    match o with
    | Some p =>
        exists dirs file t wr,
          p = repo_path ++ dirs ++ [file] /\
          Forall (fun d => startswith (py ".") d = false) dirs /\
          endswith DOT_PY file = true /\
          lookup p (fs w) = Some (File t n wr) /\ (0 < n)%N
    | None => n = 0%N
    end.
Proof.
  intros Hroot Hnone.
  rewrite (initialization_target_by_size repo_path w es Hroot Hnone).
  destruct (largest_in_walk_spec (os_walk not_hidden repo_path (Dir es))
              None 0%N w) as (o & n & Hrun & _ & Hbound & Hprov).
  unfold bind. rewrite Hrun. cbn [fst].
  assert (Hmax : forall dirs file t s wr,
            Forall (fun d => startswith (py ".") d = false) dirs ->
            endswith DOT_PY file = true ->
            lookup (repo_path ++ dirs ++ [file]) (fs w) = Some (File t s wr) ->
            (s <= n)%N).
  { intros dirs file t s wr Hdirs Hpy Hl.
    pose proof Hl as Hfile.
    rewrite lookup_app, Hroot, lookup_app in Hl.
    destruct (lookup dirs (Dir es)) as [d|] eqn:Hd; [|discriminate].
    destruct d as [|es']; [discriminate|]. cbn [lookup] in Hl.
    destruct (assoc file es') as [c|] eqn:Hc; [|discriminate].
    injection Hl as ->.
    assert (Hvisible : Forall (fun d => not_hidden d = true) dirs).
    { eapply Forall_impl; [|exact Hdirs]. intros a Ha. unfold not_hidden.
      rewrite Ha. reflexivity. }
    destruct (os_walk_reaches repo_path dirs (Dir es) es' eq_refl Hd Hvisible)
      as [ds Hin].
    apply (Hbound _ _ _ file t s wr Hin).
    - eapply assoc_file_listed; [exact Hc | reflexivity].
    - exact Hpy.
    - unfold path_join. rewrite <- app_assoc. exact Hfile. }
  destruct Hprov as [[= -> ->]|
                     (root & ds & files & file & t & wr
                      & Hin & Hf & Hpy & -> & Hl & Hlt)].
  - exists None, 0%N, w. split; [reflexivity|]. split; [apply quiet_refl|].
    split; [exact Hmax | reflexivity].
  - unfold logger, ret. eexists _, n, _. split; [reflexivity|].
    split; [apply quiet_logged|]. split; [exact Hmax|].
    destruct (os_walk_roots _ _ _ _ _ _ Hin) as (dirs & -> & Hdirs).
    exists dirs, file, t, wr. unfold path_join in *.
    rewrite <- app_assoc in *. split; [reflexivity|]. split.
    + eapply Forall_impl; [|exact Hdirs]. intros d Hd.
      unfold not_hidden in Hd. apply negb_true_iff in Hd. exact Hd.
    + auto.
Qed.

End LargestFile.

Section LastResort.

Context {E : Type}.

(** X16: when the root holds no candidate by name and every Python file
    outside the hidden directories is empty, [add_initialization] creates
    [main.py] at the root with the fixed scaffold, which holds the import,
    changes nothing else and reports a change; a run after it reports no
    change and writes nothing. *)
Theorem add_initialization_creates_main (repo_path : path) (w : world E)
  (es : list (str * node)) :
  lookup repo_path (fs w) = Some (Dir es) ->
  (forall name, candidate_name name -> assoc name es = None) ->
  (forall dirs file t s wr,
      Forall (fun d => startswith (py ".") d = false) dirs ->
      endswith DOT_PY file = true ->
      lookup (repo_path ++ dirs ++ [file]) (fs w) = Some (File t s wr) ->
      s = 0%N) ->
  exists n',
    add_initialization repo_path w =
    (Ok true, logged INFO created_msg (set_fs n' w)) /\
    lookup (path_join repo_path MAIN_PY) n' = Some (text_file NEW_MAIN_PY) /\
    has_import NEW_MAIN_PY = true /\
    (forall q, apart (path_join repo_path MAIN_PY) q ->
               lookup q n' = lookup q (fs w)) /\
    add_initialization repo_path (logged INFO created_msg (set_fs n' w)) =
    (Ok false, logged INFO created_msg (set_fs n' w)).
Proof.
  intros Hroot Hnone Hempty.
  assert (Htarget : initialization_target repo_path w = (Ok None, w)).
  { rewrite (initialization_target_by_size repo_path w es Hroot Hnone).
    destruct (largest_in_walk_spec (os_walk not_hidden repo_path (Dir es))
                None 0%N w) as (o & n & Hrun & _ & _ & Hprov).
    unfold bind. rewrite Hrun.
    destruct Hprov as [[= -> ->]|
                       (root & ds & files & file & t & wr
                        & Hin & Hf & Hpy & _ & Hl & Hlt)]; [reflexivity|].
    exfalso.
    destruct (os_walk_roots _ _ _ _ _ _ Hin) as (dirs & -> & Hdirs).
    unfold path_join in Hl. rewrite <- app_assoc in Hl.
    assert (Hn : n = 0%N).
    { apply (Hempty dirs file t n wr); [|exact Hpy | exact Hl].
      eapply Forall_impl; [|exact Hdirs]. intros d Hd.
      unfold not_hidden in Hd. apply negb_true_iff in Hd. exact Hd. }
    lia. }
  assert (Hmain : assoc MAIN_PY es = None).
  { apply Hnone. left. left. reflexivity. }
  destruct (update_ok_new repo_path MAIN_PY
              (overwrite (path_join repo_path MAIN_PY) NEW_MAIN_PY)
              (fs w) _ es Hroot Hmain eq_refl) as [n' Hu].
  destruct (update_lookup_same _ _ _ _ Hu) as (c' & Hl' & Hov).
  assert (Hmissing : lookup (path_join repo_path MAIN_PY) (fs w) = None).
  { unfold path_join. rewrite lookup_app, Hroot. cbn [lookup].
    rewrite Hmain. reflexivity. }
  rewrite Hmissing in Hov. cbn [overwrite] in Hov. injection Hov as <-.
  exists n'. split; [|split; [exact Hl'|split; [reflexivity|split]]].
  - unfold add_initialization, bind. rewrite Htarget. cbv beta iota zeta.
    change (py "main.py") with MAIN_PY.
    unfold write_text, store. rewrite Hu. reflexivity.
  - intros q [Hq1 Hq2]. eapply update_lookup_other; eassumption.
  - set (w1 := logged INFO created_msg (set_fs n' w)).
    pose proof Hl' as Hroot'. unfold path_join in Hroot'.
    rewrite lookup_app in Hroot'.
    destruct (lookup repo_path n') as [[|es']|] eqn:Hr; try discriminate.
    cbn [lookup] in Hroot'.
    assert (Hlisted : assoc MAIN_PY es' <> None).
    { destruct (assoc MAIN_PY es'); [discriminate | congruence]. }
    destruct (initialization_target_by_name repo_path w1 es' MAIN_PY Hr Hlisted)
      as (t & Hfirst & Htarget1).
    { left. left. reflexivity. }
    assert (Ht : t = path_join repo_path MAIN_PY).
    { change (ENTRY_POINTS ++ ?l) with (MAIN_PY :: tl ENTRY_POINTS ++ l)
        in Hfirst.
      cbn [first_existing] in Hfirst. unfold bind, path_exists in Hfirst.
      change (fs w1) with n' in Hfirst. rewrite Hl' in Hfirst.
      injection Hfirst as <-. reflexivity. }
    subst t.
    unfold add_initialization, bind. rewrite Htarget1.
    rewrite add_tracker_init_to_file_body.
    pose proof (add_tracker_init_body_cases (path_join repo_path MAIN_PY) w1)
      as Hc.
    change (fs w1) with n' in Hc. rewrite Hl' in Hc.
    change (has_import NEW_MAIN_PY) with true in Hc. cbv iota in Hc.
    rewrite Hc. reflexivity.
Qed.

End LastResort.

(** ** The list of repositories *)

Lemma lstrip_head (s : str) :
  match lstrip s with c :: _ => is_space c = false | [] => True end.
Proof.
  induction s as [|c s IH]; cbn [lstrip]; [exact I|].
  destruct (is_space c) eqn:Hc; [exact IH | exact Hc].
Qed.

Lemma lstrip_fixed (s : str) :
  match s with c :: _ => is_space c = false | [] => True end -> lstrip s = s.
Proof.
  destruct s as [|c s]; [reflexivity|]. cbn [lstrip]. intros ->. reflexivity.
Qed.

(** Stripping a stripped text changes nothing. *)
Lemma strip_idempotent (s : str) : strip (strip s) = strip s.
Proof.
  unfold strip. set (x := lstrip s).
  assert (Hl : lstrip (rstrip x) = rstrip x).
  { apply lstrip_fixed. destruct (rstrip_prefix x) as [ws Hx].
    pose proof (lstrip_head s) as Hh. fold x in Hh.
    destruct (rstrip x) as [|c y]; [exact I|].
    rewrite Hx in Hh. exact Hh. }
  rewrite Hl. unfold rstrip. rewrite rev_involutive.
  rewrite (lstrip_fixed (lstrip (rev x))) by apply lstrip_head.
  reflexivity.
Qed.

Lemma collect_urls_iff (lines : list str) (u : str) :
  In u (collect_urls lines) <->
  exists line,
    In line lines /\ u = strip line /\ u <> [] /\
    startswith (py "#") u = false.
Proof.
  induction lines as [|l lines IH]; cbn [collect_urls].
  - split; [contradiction | intros (line & [] & _)].
  - destruct (strip l) as [|c r] eqn:Hs.
    + rewrite IH. split.
      * intros (line & Hin & H). exists line. split; [right; exact Hin | exact H].
      * intros (line & [<-|Hin] & Hu & Hne & Hc); [congruence|].
        exists line. auto.
    + destruct (startswith (py "#") (c :: r)) eqn:Hc.
      * rewrite IH. split.
        -- intros (line & Hin & H). exists line.
           split; [right; exact Hin | exact H].
        -- intros (line & [<-|Hin] & Hu & Hne & Hc'); [congruence|].
           exists line. auto.
      * cbn [In]. rewrite IH. split.
        -- intros [<-|(line & Hin & H)].
           ++ exists l. split; [left; reflexivity|].
              split; [symmetry; exact Hs|]. split; [discriminate | exact Hc].
           ++ exists line. split; [right; exact Hin | exact H].
        -- intros (line & [<-|Hin] & Hu & Hne & Hc').
           ++ left. congruence.
           ++ right. exists line. auto.
Qed.

Lemma collect_active_iff (repos : list remote_repo) (u : str) :
  In u (collect_active repos) <->
  exists repo,
    In repo repos /\ archived repo = false /\ fork repo = false /\
    clone_url repo = u.
Proof.
  induction repos as [|r repos IH]; cbn [collect_active].
  - split; [contradiction | intros (repo & [] & _)].
  - destruct (archived r) eqn:Ha; [|destruct (fork r) eqn:Hf]; cbn [negb andb].
    + rewrite IH. split.
      * intros (repo & Hin & H). exists repo. split; [right; exact Hin | exact H].
      * intros (repo & [<-|Hin] & Ha' & H); [congruence|]. exists repo. auto.
    + rewrite IH. split.
      * intros (repo & Hin & H). exists repo. split; [right; exact Hin | exact H].
      * intros (repo & [<-|Hin] & Ha' & Hf' & H); [congruence|].
        exists repo. auto.
    + cbn [In]. rewrite IH. split.
      * intros [<-|(repo & Hin & H)].
        -- exists r. auto.
        -- exists repo. split; [right; exact Hin | exact H].
      * intros (repo & [<-|Hin] & Ha' & Hf' & H).
        -- left. exact H.
        -- right. exists repo. auto.
Qed.

Section RepositoryLists.

Context {E : Type}.

(** X17: reading the list of repositories from a file never raises.  A
    file that cannot be read gives the empty list; otherwise the list holds
    exactly the lines of the file, stripped, that are then neither empty
    nor comments starting with [#]; so every URL returned is free of
    surrounding whitespace. *)
Theorem get_repositories_from_file_urls (file_path : path) (w : world E) :
  exists urls w',
    get_repositories_from_file file_path w = (Ok urls, w') /\
    fs w' = fs w /\
    (forall content size wr,
        lookup file_path (fs w) = Some (File (Some content) size wr) ->
        forall u,
          In u urls <->
          exists line,
            In line (file_lines content) /\ u = strip line /\ u <> [] /\
            startswith (py "#") u = false) /\
    ((forall content size wr,
         lookup file_path (fs w) <> Some (File (Some content) size wr)) ->
     urls = []) /\
    Forall (fun u => strip u = u) urls.
Proof.
  unfold get_repositories_from_file, try_except, bind, read_text, logger, ret.
  destruct (lookup file_path (fs w)) as [[[c|] s wr|es]|] eqn:Hl;
    do 2 eexists; (split; [reflexivity|]); (split; [reflexivity|]);
    (split; [intros content size wr' [=]; subst|]);
    try (split; [reflexivity | constructor]).
  - intros u. apply collect_urls_iff.
  - split.
    + intros Hno. exfalso. exact (Hno c s wr eq_refl).
    + apply Forall_forall. intros u Hu.
      apply collect_urls_iff in Hu as (line & _ & -> & _).
      apply strip_idempotent.
Qed.

(** X18: listing the repositories of an organization never raises.  When
    the organization or its repositories cannot be fetched the list is
    empty; otherwise it holds exactly the clone URLs of the repositories
    that are neither archived nor forks. *)
Theorem get_repositories_from_org_urls (host : hosting E) (org_name : str)
  (w : world E) :
  exists urls w',
    get_repositories_from_org host org_name w = (Ok urls, w') /\
    (forall e w1, external (get_organization host org_name) w = (Raise e, w1) ->
                  urls = []) /\
    (forall w1 e w2,
        external (get_organization host org_name) w = (Ok tt, w1) ->
        external (get_repos host)
          (logged INFO
             (py "Fetching repositories from organization: " ++ org_name) w1)
        = (Raise e, w2) ->
        urls = []) /\
    (forall w1 listed w2,
        external (get_organization host org_name) w = (Ok tt, w1) ->
        external (get_repos host)
          (logged INFO
             (py "Fetching repositories from organization: " ++ org_name) w1)
        = (Ok listed, w2) ->
        forall u,
          In u urls <->
          exists repo,
            In repo listed /\ archived repo = false /\ fork repo = false /\
            clone_url repo = u).
Proof.
  unfold get_repositories_from_org, try_except, bind, logger, ret.
  destruct (external (get_organization host org_name) w) as [[[]|e] w1].
  - destruct (external (get_repos host) _) as [[listed|e] w2] eqn:Hrepos.
    + do 2 eexists. split; [reflexivity|].
      split; [discriminate|]. split.
      * intros ? ? ? [= <-] H. rewrite Hrepos in H. discriminate.
      * intros ? ? ? [= <-] H u. rewrite Hrepos in H.
        injection H as <- _. apply collect_active_iff.
    + do 2 eexists. split; [reflexivity|].
      split; [reflexivity|]. split; [reflexivity|].
      intros ? ? ? [= <-] H. rewrite Hrepos in H. discriminate.
  - do 2 eexists. split; [reflexivity|].
    split; [reflexivity|]. split; discriminate.
Qed.

Lemma resolve_repositories_returns (host : hosting E) (args : arguments)
  (w : world E) :
  exists urls w', resolve_repositories host args w = (Ok urls, w').
Proof.
  unfold resolve_repositories.
  destruct (repositories args); [|eexists _, _; reflexivity].
  destruct (from_file args) as [file|].
  - unfold get_repositories_from_file, try_except, bind, read_text, logger,
      ret.
    destruct (lookup file (fs w)) as [[[c|] s wr|es]|];
      eexists _, _; reflexivity.
  - destruct (from_org args) as [org|]; [|eexists _, _; reflexivity].
    unfold get_repositories_from_org, try_except, bind, logger, ret.
    destruct (external (get_organization host org) w) as [[[]|e] w1].
    + destruct (external (get_repos host) _) as [[listed|e] w2];
        eexists _, _; reflexivity.
    + eexists _, _; reflexivity.
Qed.

(** X19: [main] raises only what building the parser or parsing raised,
    and then nothing was done; when [argparse] ends the process, its status
    is the result and nothing was done.  Once the arguments are parsed
    [main] never raises and ends with status 0, 1 or 2: without the token
    the status is not 0 and nothing is done; with the token and
    repositories among the arguments the status is 0 and the world is the
    one [process_repositories] leaves, whatever failed in the batch. *)
Theorem main_exit_status (api : collaborators E) (host : hosting E)
  (cli : parsed) (github_token : option str) (w : world E) :
  match cli with
  | Fails e => main api host cli github_token w = (Raise e, w)
  | Exits status => main api host cli github_token w = (Ok status, w)
  | Parsed args =>
      exists status w',
        main api host cli github_token w = (Ok status, w') /\
        (status = 0 \/ status = 1 \/ status = 2) /\
        (github_token = None -> status <> 0 /\ w' = w) /\
        (repositories args <> [] -> github_token <> None ->
         status = 0 /\
         w' = snd (process_repositories api (repositories args) w))
  end.
Proof.
  destruct cli as [args|status|e]; [|reflexivity..].
  unfold main.
  destruct (repositories args) as [|url urls] eqn:Hrepos.
  - assert (Hrest :
      forall m : M nat,
        (m = ret 2 \/
         m = match github_token with
             | None => ret 1
             | Some _ =>
                 repo_urls <- resolve_repositories host args ;;
                 match repo_urls with
                 | [] =>
                     logger ERROR (py "No repositories found to process") ;;
                     ret 1
                 | _ :: _ => process_repositories api repo_urls ;; ret 0
                 end
             end) ->
        exists status w',
          m w = (Ok status, w') /\
          (status = 0 \/ status = 1 \/ status = 2) /\
          (github_token = None -> status <> 0 /\ w' = w) /\
          ([] <> @nil str -> github_token <> None ->
           status = 0 /\ w' = snd (process_repositories api [] w))).
    { intros m [-> | ->].
      - exists 2, w. split; [reflexivity|]. split; [auto|].
        split; [intros _; split; [discriminate | reflexivity]|]. congruence.
      - destruct github_token as [tok|].
        + unfold bind.
          destruct (resolve_repositories_returns host args w)
            as (us & w1 & ->).
          destruct us as [|u us].
          * unfold logger, ret. eexists 1, _. split; [reflexivity|].
            split; [auto|]. split; [discriminate | congruence].
          * destruct (process_repositories_returns api (u :: us) w1)
              as [w2 ->].
            unfold ret. exists 0, w2. split; [reflexivity|].
            split; [auto|]. split; [discriminate | congruence].
        + exists 1, w. split; [reflexivity|]. split; [auto|].
          split; [intros _; split; [discriminate | reflexivity]|]. congruence. }
    destruct (from_file args), (from_org args); apply Hrest; auto.
  - destruct github_token as [tok|].
    + unfold bind, resolve_repositories. rewrite Hrepos. unfold ret at 1.
      destruct (process_repositories_returns api (url :: urls) w) as [w2 Hw2].
      rewrite Hw2. unfold ret. exists 0, w2. split; [reflexivity|].
      split; [auto|]. split; [discriminate|]. intros _ _. auto.
    + exists 1, w. split; [reflexivity|]. split; [auto|].
      split; [intros _; split; [discriminate | reflexivity]|]. congruence.
Qed.

End RepositoryLists.

(** ** The order of the steps on one repository *)

Section StepOrder.

Context {E : Type}.

Lemma rn_ret {A} (a : A) : records_nothing (E := E) (ret a).
Proof. intros w. reflexivity. Qed.

Lemma rn_raise {A} (e : exn) : records_nothing (E := E) (A := A) (raise e).
Proof. intros w. reflexivity. Qed.

Lemma rn_logger (lvl : level) (msg : str) :
  records_nothing (E := E) (logger lvl msg).
Proof. intros w. reflexivity. Qed.

Lemma rn_external {A} (op : ext_op E A) : records_nothing (external op).
Proof.
  intros w. unfold external. destruct (op (fs w) (ext w)) as [[r n] e].
  reflexivity.
Qed.

Lemma rn_bind {A B} (m : M A) (k : A -> M (E := E) B) :
  records_nothing m -> (forall a, records_nothing (k a)) ->
  records_nothing (bind m k).
Proof.
  intros Hm Hk w. unfold bind. specialize (Hm w).
  destruct (m w) as [[a|e] w']; simpl in Hm.
  - rewrite Hk. exact Hm.
  - exact Hm.
Qed.

Lemma rn_try_except {A} (body : M (E := E) A) (handler : exn -> M A) :
  records_nothing body -> (forall e, records_nothing (handler e)) ->
  records_nothing (try_except body handler).
Proof.
  intros Hm Hk w. unfold try_except. specialize (Hm w).
  destruct (body w) as [[a|e] w']; simpl in Hm.
  - exact Hm.
  - rewrite Hk. exact Hm.
Qed.

Lemma rn_path_exists (p : path) : records_nothing (E := E) (path_exists p).
Proof. intros w. reflexivity. Qed.

Lemma rn_read_text (p : path) : records_nothing (E := E) (read_text p).
Proof.
  intros w. unfold read_text.
  destruct (lookup p (fs w)) as [[[c|] s wr|es]|]; reflexivity.
Qed.

Lemma rn_store (p : path) (upd : option node -> result node) :
  records_nothing (E := E) (store p upd).
Proof.
  intros w. unfold store. destruct (update p upd (fs w)); reflexivity.
Qed.

Lemma rn_write_text (p : path) (t : str) :
  records_nothing (E := E) (write_text p t).
Proof. apply rn_store. Qed.

Lemma rn_append_text (p : path) (t : str) :
  records_nothing (E := E) (append_text p t).
Proof. apply rn_store. Qed.

Lemma rn_listdir (p : path) : records_nothing (E := E) (listdir p).
Proof.
  intros w. unfold listdir.
  destruct (lookup p (fs w)) as [[c s wr|es]|]; reflexivity.
Qed.

Lemma rn_getsize (p : path) : records_nothing (E := E) (getsize p).
Proof.
  intros w. unfold getsize.
  destruct (lookup p (fs w)) as [[c s wr|es]|]; reflexivity.
Qed.

Lemma rn_walk (p : path) : records_nothing (E := E) (walk p).
Proof. intros w. reflexivity. Qed.

Create HintDb rn discriminated.
#[local] Hint Resolve rn_ret rn_raise rn_logger rn_external rn_path_exists
  rn_read_text rn_store rn_write_text rn_append_text rn_listdir rn_getsize
  rn_walk : rn.

Ltac rn :=
  repeat first
    [ solve [auto with rn]
    | apply rn_bind; [|intros ?]
    | apply rn_try_except; [|intros ?]
    | progress cbv zeta
    | match goal with
      | |- records_nothing (if ?b then _ else _) => destruct b
      | |- records_nothing (match ?x with _ => _ end) => destruct x
      end ].

Lemma rn_check_dependency_files_from (repo_path : path) (files : list str) :
  records_nothing (E := E) (check_dependency_files_from repo_path files).
Proof.
  induction files as [|f rest IH]; cbn [check_dependency_files_from];
    [apply rn_ret|].
  unfold check_dependency_file. rn.
Qed.

Lemma rn_check_imports_in_files (root : path) (files : list str) :
  records_nothing (E := E) (check_imports_in_files root files).
Proof.
  induction files as [|f rest IH]; cbn [check_imports_in_files];
    [apply rn_ret|].
  unfold check_imports_in_file. rn.
Qed.

Lemma rn_check_imports_in_walk (triples : list (path * list str * list str)) :
  records_nothing (E := E) (check_imports_in_walk triples).
Proof.
  induction triples as [|[[r ds] fls] rest IH]; cbn [check_imports_in_walk];
    [apply rn_ret|].
  pose proof (rn_check_imports_in_files r fls). rn.
Qed.

Lemma rn_check_tracker_exists (repo_path : path) :
  records_nothing (E := E) (check_tracker_exists repo_path).
Proof.
  pose proof (rn_check_dependency_files_from repo_path DETECTOR_FILES).
  pose proof rn_check_imports_in_walk.
  unfold check_tracker_exists, check_dependency_files, check_tracker_imports.
  rn.
Qed.

Lemma rn_add_dependency (repo_path : path) :
  records_nothing (E := E) (add_dependency repo_path).
Proof.
  unfold add_dependency, DEPENDENCY_FILES. cbn [add_dependency_from].
  unfold add_to_requirements, add_to_pyproject, add_to_setup_py,
    add_to_pipfile.
  rn.
Qed.

Lemma rn_first_existing (repo_path : path) (candidates : list str) :
  records_nothing (E := E) (first_existing repo_path candidates).
Proof.
  induction candidates as [|c rest IH]; cbn [first_existing]; rn.
Qed.

Lemma rn_largest_in_files (root : path) (files : list str)
  (best : option path * N) :
  records_nothing (E := E) (largest_in_files root files best).
Proof.
  revert best. induction files as [|f rest IH]; intros best;
    cbn [largest_in_files]; [apply rn_ret|].
  apply rn_bind; [rn | intros b; apply IH].
Qed.

Lemma rn_largest_in_walk (triples : list (path * list str * list str))
  (best : option path * N) :
  records_nothing (E := E) (largest_in_walk triples best).
Proof.
  revert best. induction triples as [|[[r ds] fls] rest IH]; intros best;
    cbn [largest_in_walk]; [apply rn_ret|].
  apply rn_bind; [apply rn_largest_in_files | intros b; apply IH].
Qed.

Lemma rn_add_initialization (repo_path : path) :
  records_nothing (E := E) (add_initialization repo_path).
Proof.
  pose proof (rn_first_existing repo_path).
  pose proof rn_largest_in_walk.
  unfold add_initialization, initialization_target, add_tracker_init_to_file,
    add_tracker_init_body.
  rn.
Qed.

Variable api : collaborators E.

Lemma rn_clone_repository (repo_url : str) (dir : path) :
  records_nothing (clone_repository api repo_url dir).
Proof. unfold clone_repository. rn. Qed.

Lemma rn_create_feature_branch (branch_name : str) :
  records_nothing (create_feature_branch api branch_name).
Proof. unfold create_feature_branch. rn. Qed.

Lemma rn_commit_changes (commit_message : str) :
  records_nothing (commit_changes api commit_message).
Proof. unfold commit_changes. rn. Qed.

Lemma rn_push_branch (branch_name : str) :
  records_nothing (push_branch api branch_name).
Proof. unfold push_branch. rn. Qed.

Lemma rn_create_pull_request (repo_url branch_name : str) :
  records_nothing (create_pull_request api repo_url branch_name).
Proof. unfold create_pull_request. rn. Qed.

Lemma seq_rn {A B} (m : M A) (k : A -> M B)
  (P : result B * world E -> Prop) (w : world E) :
  records_nothing m ->
  (forall e w', calls w' = calls w -> P (Raise e, w')) ->
  (forall a w', m w = (Ok a, w') -> calls w' = calls w -> P (k a w')) ->
  P (bind m k w).
Proof.
  intros Hm He Hk. unfold bind. specialize (Hm w).
  destruct (m w) as [[a|e] w'] eqn:H; simpl in Hm.
  - apply Hk; [reflexivity | exact Hm].
  - apply He. exact Hm.
Qed.

Lemma seq_record {B} (c : call) (k : unit -> M B)
  (P : result B * world E -> Prop) (w : world E) :
  P (k tt (recorded c w)) -> P (bind (record c) k w).
Proof. exact (fun H => H). Qed.

Lemma seq_ret {A B} (a : A) (k : A -> M B)
  (P : result B * world E -> Prop) (w : world E) :
  P (k a w) -> P (bind (ret a) k w).
Proof. exact (fun H => H). Qed.

Lemma bind_assoc {A B C} (m : M A) (f : A -> M B) (k : B -> M C)
  (w : world E) :
  bind (bind m f) k w = bind m (fun a => bind (f a) k) w.
Proof. unfold bind. destruct (m w) as [[a|e] w']; reflexivity. Qed.

Lemma clone_repository_path (repo_url : str) (dir p : path)
  (w w' : world E) :
  clone_repository api repo_url dir w = (Ok p, w') ->
  p = path_join dir (replace DOT_GIT [] (after_last_slash repo_url)).
Proof.
  unfold clone_repository, bind, logger, ret.
  destruct (external _ _) as [[[]|e] w1]; congruence.
Qed.

(** X20: on one repository the steps are taken in the order of
    [REPO_STEPS] and none is skipped or repeated: the steps recorded are
    the first [n] of them.  A call that returns stopped after the check
    (the tracker is there), after the two patchers (nothing changed) or
    after the pull request; a call that raises has logged the error with
    the URL last.  Either way the temporary directory is gone. *)
Theorem process_single_repository_steps (repo_url : str) (w : world E) :
  let repo_path :=
    path_join temp_dir (replace DOT_GIT [] (after_last_slash repo_url)) in
  let out := process_single_repository api repo_url w in
  fs (snd out) = Dir [] /\
  exists n,
    calls (snd out) = calls w ++ firstn n (REPO_STEPS repo_url repo_path) /\
    1 <= n <= 9 /\
    (fst out = Ok tt -> n = 2 \/ n = 6 \/ n = 9) /\
    (forall e,
        fst out = Raise e ->
        exists l, log (snd out) = l ++ [(ERROR, error_msg repo_url e)]).
Proof.
  intros repo_path out. subst out.
  unfold process_single_repository, try_finally, try_except.
  set (w0 := set_fs (Dir []) w).
  match goal with
  | |- context [bind ?m ?k w0] => pattern (bind m k w0)
  end.
  match goal with |- ?Q _ => set (Q0 := Q) end.
  assert (Hraise :
    forall e w' n,
      calls w' = calls w ++ firstn n (REPO_STEPS repo_url repo_path) ->
      1 <= n <= 9 -> Q0 (Raise e, w')).
  { intros e w' n Hc Hn. subst Q0. cbv beta iota.
    unfold bind, logger, raise. cbn [fst snd set_fs logged fs calls log].
    split; [reflexivity|]. exists n.
    split; [exact Hc|]. split; [exact Hn|]. split; [discriminate|].
    intros e' [= <-]. eexists. reflexivity. }
  assert (Hok :
    forall w' n,
      calls w' = calls w ++ firstn n (REPO_STEPS repo_url repo_path) ->
      n = 2 \/ n = 6 \/ n = 9 -> Q0 (Ok tt, w')).
  { intros w' n Hc Hn. subst Q0. cbv beta iota.
    cbn [fst snd set_fs logged fs calls log].
    split; [reflexivity|]. exists n.
    split; [exact Hc|]. split; [lia|]. split; [intros _; exact Hn|].
    discriminate. }
  clearbody Q0.
  assert (H0 : calls w0 = calls w) by reflexivity.
  clearbody w0.
  apply seq_record. cbv beta.
  apply seq_rn; [apply rn_clone_repository | |].
  { intros e w1 H1. apply (Hraise e w1 1); [|lia].
    rewrite H1. cbn [recorded calls]. rewrite H0. reflexivity. }
  intros p w1 Hclone H1. apply clone_repository_path in Hclone.
  fold repo_path in Hclone. subst p.
  cbn [recorded calls] in H1. rewrite H0 in H1.
  apply seq_rn; [apply rn_external | |].
  { intros e w2 H2. apply (Hraise e w2 1); [|lia]. rewrite H2. exact H1. }
  intros [] w2 _ H2. rewrite H1 in H2. clear H1 w1 H0 w0.
  apply seq_record. cbv beta.
  apply seq_rn; [apply rn_check_tracker_exists | |].
  { intros e w3 H3. apply (Hraise e w3 2); [|lia].
    rewrite H3. cbn [recorded calls]. rewrite H2, <- app_assoc. reflexivity. }
  intros has_tracker w3 _ H3. cbn [recorded calls] in H3.
  rewrite H2, <- app_assoc in H3. clear H2 w2.
  destruct has_tracker.
  { unfold logger. apply (Hok _ 2); [exact H3 | auto]. }
  apply seq_record. cbv beta.
  apply seq_rn; [apply rn_create_feature_branch | |].
  { intros e w4 H4. apply (Hraise e w4 3); [|lia].
    rewrite H4. cbn [recorded calls]. rewrite H3, <- app_assoc. reflexivity. }
  intros [] w4 _ H4. cbn [recorded calls] in H4.
  rewrite H3, <- app_assoc in H4. clear H3 w3.
  apply seq_record. cbv beta.
  unfold add_tracker_to_repo. rewrite bind_assoc.
  apply seq_record. cbv beta. rewrite bind_assoc.
  apply seq_rn; [apply rn_add_dependency | |].
  { intros e w5 H5. apply (Hraise e w5 5); [|lia].
    rewrite H5. cbn [recorded calls]. rewrite H4, <- !app_assoc.
    reflexivity. }
  intros dep_changed w5 _ H5. cbn [recorded calls] in H5.
  rewrite H4, <- !app_assoc in H5. clear H4 w4.
  rewrite bind_assoc. apply seq_record. cbv beta. rewrite bind_assoc.
  apply seq_rn; [apply rn_add_initialization | |].
  { intros e w6 H6. apply (Hraise e w6 6); [|lia].
    rewrite H6. cbn [recorded calls]. rewrite H5, <- !app_assoc.
    reflexivity. }
  intros init_changed w6 _ H6. cbn [recorded calls] in H6.
  rewrite H5, <- !app_assoc in H6. clear H5 w5.
  apply seq_ret.
  destruct (negb (dep_changed || init_changed)).
  { unfold logger. apply (Hok _ 6); [exact H6 | auto]. }
  apply seq_record. cbv beta.
  apply seq_rn; [apply rn_commit_changes | |].
  { intros e w7 H7. apply (Hraise e w7 7); [|lia].
    rewrite H7. cbn [recorded calls]. rewrite H6, <- !app_assoc.
    reflexivity. }
  intros [] w7 _ H7. cbn [recorded calls] in H7.
  rewrite H6, <- !app_assoc in H7. clear H6 w6.
  apply seq_record. cbv beta.
  apply seq_rn; [apply rn_push_branch | |].
  { intros e w8 H8. apply (Hraise e w8 8); [|lia].
    rewrite H8. cbn [recorded calls]. rewrite H7, <- !app_assoc.
    reflexivity. }
  intros [] w8 _ H8. cbn [recorded calls] in H8.
  rewrite H7, <- !app_assoc in H8. clear H7 w7.
  apply seq_record. cbv beta.
  apply seq_rn; [apply rn_create_pull_request | |].
  { intros e w9 H9. apply (Hraise e w9 9); [|lia].
    rewrite H9. cbn [recorded calls]. rewrite H8, <- !app_assoc.
    reflexivity. }
  intros [] w9 _ H9. cbn [recorded calls] in H9.
  rewrite H8, <- !app_assoc in H9. clear H8 w8.
  unfold logger. apply (Hok _ 9); [exact H9 | auto].
Qed.

End StepOrder.

(** ** When the patchers fail *)

Section PatcherFailures.

Context {E : Type}.

Lemma first_existing_cases (repo_path : path) (candidates : list str)
  (w : world E) :
  exists t,
    first_existing repo_path candidates w = (Ok t, w) /\
    (t = None ->
     forall c, In c candidates ->
               lookup (path_join repo_path c) (fs w) = None).
Proof.
  induction candidates as [|c rest IH]; cbn [first_existing].
  - exists None. split; [reflexivity|]. intros _ c [].
  - unfold bind, path_exists. cbv beta iota.
    destruct (lookup (path_join repo_path c) (fs w)) eqn:Hl.
    + eexists. split; [reflexivity | discriminate].
    + destruct IH as (t & Hrun & Hnone). exists t. split; [exact Hrun|].
      intros Ht c' [<-|Hin]; [exact Hl | exact (Hnone Ht c' Hin)].
Qed.

Lemma lookup_entry (dir : path) (name : str) (n : node)
  (es : list (str * node)) :
  lookup dir n = Some (Dir es) ->
  lookup (path_join dir name) n = assoc name es.
Proof.
  intros Hl. unfold path_join. rewrite lookup_app, Hl. simpl.
  destruct (assoc name es); reflexivity.
Qed.

Lemma initialization_target_returns (repo_path : path) (w : world E)
  (es : list (str * node)) :
  lookup repo_path (fs w) = Some (Dir es) ->
  exists t w1,
    initialization_target repo_path w = (Ok t, w1) /\ fs w1 = fs w /\
    (t = None -> lookup (path_join repo_path MAIN_PY) (fs w) = None).
Proof.
  intros Hl. unfold initialization_target, bind, listdir. rewrite Hl.
  cbv beta iota zeta.
  match goal with
  | |- context [first_existing repo_path ?c w] =>
      destruct (first_existing_cases repo_path c w) as (t & Hrun & Hnone)
  end.
  rewrite Hrun. destruct t as [f|].
  - exists (Some f), w. split; [reflexivity|]. split; [reflexivity|].
    discriminate.
  - assert (Hmain : lookup (path_join repo_path MAIN_PY) (fs w) = None).
    { apply (Hnone eq_refl). apply in_or_app. left. left. reflexivity. }
    unfold walk. cbv beta iota.
    match goal with
    | |- context [largest_in_walk ?t (None, 0%N) w] =>
        destruct (largest_in_walk_spec t None 0%N w) as (o & n & Hbest & _)
    end.
    rewrite Hbest. cbn [fst]. destruct o as [f|].
    + unfold logger, ret. eexists _, _. split; [reflexivity|].
      split; [reflexivity | discriminate].
    + exists None, w. split; [reflexivity|]. split; [reflexivity|].
      intros _. exact Hmain.
Qed.

(** X21: in a clone whose root is a directory where [main.py], when the
    listing of the root names it, exists (it is no link that leads
    nowhere), the Initialization Patcher never raises: a target that cannot
    be read or written is logged and reported as no change, and the last
    resort is reached only when the root has no entry [main.py], which it
    then creates. *)
Theorem add_initialization_never_raises (repo_path : path) (w : world E)
  (es : list (str * node)) :
  lookup repo_path (fs w) = Some (Dir es) ->
  (In MAIN_PY (map fst es) ->
   lookup (path_join repo_path MAIN_PY) (fs w) <> None) ->
  exists changed w', add_initialization repo_path w = (Ok changed, w').
Proof.
  intros Hl Hlisted. unfold add_initialization, bind.
  destruct (initialization_target_returns repo_path w es Hl)
    as (t & w1 & -> & Hfs & Hnone).
  destruct t as [f|].
  - rewrite add_tracker_init_to_file_body.
    destruct (add_tracker_init_body f w1) as [[b|e] w2];
      eexists _, _; reflexivity.
  - assert (Hfree : assoc MAIN_PY es = None).
    { destruct (assoc MAIN_PY es) as [n|] eqn:Ha; [|reflexivity].
      exfalso. apply Hlisted; [|exact (Hnone eq_refl)].
      apply assoc_listed. congruence. }
    unfold write_text, store, logger, ret. rewrite Hfs.
    destruct (update_ok_new repo_path (py "main.py")
                (overwrite (path_join repo_path (py "main.py")) NEW_MAIN_PY)
                (fs w) (File (Some NEW_MAIN_PY) (utf8_len NEW_MAIN_PY) true)
                es Hl Hfree eq_refl) as (n' & ->).
    eexists _, _; reflexivity.
Qed.

Ltac failed_run Hrun :=
  repeat match type of Hrun with
    | context [lookup ?p ?n] =>
        destruct (lookup p n) as [[[?|] ? ?|?]|];
        try (injection Hrun as _ <-; reflexivity)
    | context [if ?b then _ else _] => destruct b; cbn [negb] in Hrun
    | context [match ?o with Some _ => _ | None => _ end] =>
        destruct o as [[[? ?] ?]|]
    | context [update ?p ?u ?n] =>
        destruct (update p u n);
        try (injection Hrun as _ <-; reflexivity)
    end;
  try discriminate; try (injection Hrun as _ <-; reflexivity).

Lemma add_to_requirements_raise (p : path) (w w1 : world E) (e : exn) :
  add_to_requirements p w = (Raise e, w1) -> w1 = w.
Proof.
  unfold add_to_requirements, bind, read_text, append_text, store, logger, ret.
  intros Hrun. failed_run Hrun.
Qed.

Lemma add_to_pyproject_raise (p : path) (w w1 : world E) (e : exn) :
  add_to_pyproject p w = (Raise e, w1) -> w1 = w.
Proof.
  unfold add_to_pyproject, bind, read_text, write_text, store, logger, ret.
  intros Hrun. failed_run Hrun.
Qed.

Lemma add_to_setup_py_raise (p : path) (w w1 : world E) (e : exn) :
  add_to_setup_py p w = (Raise e, w1) -> w1 = w.
Proof.
  unfold add_to_setup_py, bind, read_text, write_text, store, logger, ret.
  intros Hrun. failed_run Hrun.
Qed.

Lemma add_to_pipfile_raise (p : path) (w w1 : world E) (e : exn) :
  add_to_pipfile p w = (Raise e, w1) -> w1 = w.
Proof.
  unfold add_to_pipfile, bind, read_text, write_text, store, logger, ret.
  intros Hrun. failed_run Hrun.
Qed.

(** X22: a Dependency Patcher that raises has written nothing and logged
    nothing: the world is the one it started from. *)
Theorem add_dependency_failure_untouched (repo_path : path)
  (w w1 : world E) (e : exn) :
  add_dependency repo_path w = (Raise e, w1) -> w1 = w.
Proof.
  intros Hrun.
  destruct (first_present_or_none repo_path DEPENDENCY_FILES w)
    as [(k & dep_file & add_func & Hk & Hp & Hearlier)|Hnone].
  - unfold add_dependency in Hrun.
    rewrite (add_dependency_from_first repo_path _ w k dep_file add_func
               Hk Hp Hearlier) in Hrun.
    pose proof (nth_error_In _ _ Hk) as Hin. unfold DEPENDENCY_FILES in Hin.
    simpl in Hin.
    destruct Hin as [H|[H|[H|[H|[]]]]]; injection H as <- <-.
    + eapply add_to_requirements_raise; eassumption.
    + eapply add_to_pyproject_raise; eassumption.
    + eapply add_to_setup_py_raise; eassumption.
    + eapply add_to_pipfile_raise; eassumption.
  - unfold add_dependency in Hrun.
    rewrite (add_dependency_from_none repo_path _ w Hnone) in Hrun.
    simpl in Hrun. unfold bind, write_text, store, logger, ret in Hrun.
    destruct (update _ _ (fs w)); [discriminate|].
    injection Hrun as _ <-. reflexivity.
Qed.

Lemma write_existing (p : path) (t c : str) (s : N) (w : world E) :
  lookup p (fs w) = Some (File (Some c) s true) ->
  exists w', write_text p t w = (Ok tt, w').
Proof.
  intros Hl. unfold write_text, store.
  destruct (update_ok_existing p (overwrite p t) (fs w) _
              (File (Some t) (utf8_len t) true) Hl eq_refl) as (n' & ->).
  eexists. reflexivity.
Qed.

Lemma append_existing (p : path) (t c : str) (s : N) (w : world E) :
  lookup p (fs w) = Some (File (Some c) s true) ->
  exists w', append_text p t w = (Ok tt, w').
Proof.
  intros Hl. unfold append_text, store.
  destruct (update_ok_existing p (extend p t) (fs w) _
              (File (Some (c ++ t)) (s + utf8_len t) true) Hl eq_refl)
    as (n' & ->).
  eexists. reflexivity.
Qed.

(** X23: the Dependency Patcher never raises in a clone whose root is a
    directory where every manifest it knows, when there, is a text file
    that can be read and written. *)
Theorem add_dependency_never_raises (repo_path : path) (w : world E)
  (es : list (str * node)) :
  lookup repo_path (fs w) = Some (Dir es) ->
  (forall name n,
      In name [REQUIREMENTS_TXT; PYPROJECT_TOML; SETUP_PY; PIPFILE] ->
      assoc name es = Some n ->
      exists content size, n = File (Some content) size true) ->
  exists changed w', add_dependency repo_path w = (Ok changed, w').
Proof.
  intros Hl Hfiles.
  destruct (first_present_or_none repo_path DEPENDENCY_FILES w)
    as [(k & dep_file & add_func & Hk & Hp & Hearlier)|Hnone].
  - unfold add_dependency.
    rewrite (add_dependency_from_first repo_path _ w k dep_file add_func
               Hk Hp Hearlier).
    pose proof (nth_error_In _ _ Hk) as Hin.
    assert (Hfile : exists c s,
               lookup (path_join repo_path dep_file) (fs w)
               = Some (File (Some c) s true)).
    { rewrite (lookup_entry repo_path dep_file (fs w) es Hl) in Hp |- *.
      destruct (assoc dep_file es) as [n|] eqn:Ha; [|congruence].
      assert (Hname :
        In dep_file [REQUIREMENTS_TXT; PYPROJECT_TOML; SETUP_PY; PIPFILE]).
      { apply (in_map fst) in Hin. exact Hin. }
      destruct (Hfiles dep_file n Hname Ha) as (c & s & ->). eauto. }
    destruct Hfile as (c & s & Hfile).
    unfold DEPENDENCY_FILES in Hin. simpl in Hin.
    destruct Hin as [H|[H|[H|[H|[]]]]]; injection H as <- <-.
    + unfold add_to_requirements, bind, read_text. rewrite Hfile.
      destruct (negb (contains DEP_NAME c)); [|eexists _, _; reflexivity].
      destruct (append_existing _ DEP_LINE c s w Hfile) as (w' & ->).
      eexists _, _; reflexivity.
    + unfold add_to_pyproject, bind, read_text. rewrite Hfile.
      destruct (negb (contains DEP_NAME c)); [|eexists _, _; reflexivity].
      destruct (contains POETRY_HEADER c); [|eexists _, _; reflexivity].
      cbv zeta.
      match goal with
      | |- context [write_text ?p ?t w] =>
          destruct (write_existing p t c s w Hfile) as (w' & ->)
      end.
      eexists _, _; reflexivity.
    + unfold add_to_setup_py, bind, read_text. rewrite Hfile.
      destruct (negb (contains DEP_NAME c)); [|eexists _, _; reflexivity].
      destruct (search_install_requires c) as [[[before deps] after]|];
        [|eexists _, _; reflexivity].
      cbv zeta.
      match goal with
      | |- context [write_text ?p ?t w] =>
          destruct (write_existing p t c s w Hfile) as (w' & ->)
      end.
      eexists _, _; reflexivity.
    + unfold add_to_pipfile, bind, read_text. rewrite Hfile.
      destruct (negb (contains DEP_NAME c)); [|eexists _, _; reflexivity].
      destruct (contains PIPFILE_HEADER c); [|eexists _, _; reflexivity].
      cbv zeta.
      match goal with
      | |- context [write_text ?p ?t w] =>
          destruct (write_existing p t c s w Hfile) as (w' & ->)
      end.
      eexists _, _; reflexivity.
  - unfold add_dependency.
    rewrite (add_dependency_from_none repo_path _ w Hnone).
    cbn [add_dependency_from]. unfold bind, write_text, store, logger, ret.
    assert (Hreq : assoc REQUIREMENTS_TXT es = None).
    { rewrite <- (lookup_entry repo_path REQUIREMENTS_TXT (fs w) es Hl).
      apply (Hnone REQUIREMENTS_TXT add_to_requirements). left. reflexivity. }
    destruct (update_ok_new repo_path REQUIREMENTS_TXT
                (overwrite (path_join repo_path REQUIREMENTS_TXT) DEP_LINE)
                (fs w) (File (Some DEP_LINE) (utf8_len DEP_LINE) true)
                es Hl Hreq eq_refl) as (n' & ->).
    eexists _, _; reflexivity.
Qed.

End PatcherFailures.

(** ** The pull request *)

Lemma split_slash_no_slash (s : str) :
  contains [slash] s = false -> split_slash s = [s].
Proof.
  induction s as [|c s IH]; intros H; [reflexivity|].
  cbn [contains startswith] in H. cbn [split_slash].
  destruct (Ascii.eqb_spec slash c) as [<-|Hne]; [discriminate|].
  destruct (Ascii.eqb_spec c slash) as [->|_]; [congruence|].
  destruct s as [|d s]; [reflexivity|].
  simpl orb in H. rewrite (IH H). reflexivity.
Qed.

Section PullRequest.

Context {E : Type}.

Variable api : collaborators E.

(** X24: a URL whose path, without the slashes around it and without
    [.git], holds no slash names no owner: [create_pull_request] raises a
    [ValueError] and logs it before the hosting service is asked for
    anything. *)
Theorem create_pull_request_needs_owner (repo_url branch_name : str)
  (w : world E) :
  contains [slash]
    (replace DOT_GIT [] (strip_slash (urlparse_path api repo_url))) = false ->
  exists msg,
    create_pull_request api repo_url branch_name w =
    (Raise (Exception "ValueError" msg),
     logged ERROR (py "Failed to create pull request: " ++ msg) w).
Proof.
  intros H. unfold create_pull_request, try_except. cbv zeta.
  rewrite (split_slash_no_slash _ H).
  eexists. reflexivity.
Qed.

End PullRequest.

(** ** Instances of the further properties *)

Lemma create_feature_branch_always_creates_witness :
  contains [slash] BRANCH_NAME = true /\
  existsb (str_eqb BRANCH_NAME)
    (map after_last_slash
       [py "main"; py "origin/main"; py "origin/feature/add-dbdemos-tracker"])
  = false.
Proof.
  split; [reflexivity|].
  apply (proj1 (create_feature_branch_always_creates demo_api BRANCH_NAME
                  empty_world eq_refl)).
Defined.

Lemma check_tracker_imports_sound_witness :
  let w := repo_world [(py "README.md", text_file (py "demo"));
                       (MAIN_PY, text_file MAIN_IMPORTING)] in
  check_tracker_imports REPO w = (Ok true, w) /\
  exists dirs file content size wr,
    Forall (fun d => startswith (py ".") d = false) dirs /\
    endswith DOT_PY file = true /\
    lookup (REPO ++ dirs ++ [file]) (fs w)
    = Some (File (Some content) size wr) /\
    search_tracker_import content = true.
Proof.
  cbv zeta. split; [reflexivity|].
  apply (check_tracker_imports_sound REPO
           (repo_world [(py "README.md", text_file (py "demo"));
                        (MAIN_PY, text_file MAIN_IMPORTING)])
           (repo_world [(py "README.md", text_file (py "demo"));
                        (MAIN_PY, text_file MAIN_IMPORTING)])).
  reflexivity.
Defined.

Lemma add_dependency_false_untouched_witness :
  let w := repo_world TRACKED_CLONE in
  fst (add_dependency REPO w) = Ok false /\ snd (add_dependency REPO w) = w.
Proof.
  cbv zeta. split; [reflexivity|].
  apply (add_dependency_false_untouched REPO (repo_world TRACKED_CLONE)
           (snd (add_dependency REPO (repo_world TRACKED_CLONE)))).
  reflexivity.
Defined.

Lemma add_to_pipfile_outcomes_witness :
  let p := path_join REPO PIPFILE in
  let w := repo_world [(PIPFILE, text_file PIPFILE_PLAIN)] in
  lookup p (fs w) = Some (File (Some PIPFILE_PLAIN) (utf8_len PIPFILE_PLAIN) true) /\
  exists n' size',
    add_to_pipfile p w = (Ok true, logged INFO (added_msg p) (set_fs n' w)) /\
    lookup p n' =
    Some (File (Some (join_nl ([] ++ PIPFILE_HEADER :: PINNED_ENTRY :: [[]])))
            size' true).
Proof.
  cbv zeta. split; [reflexivity|].
  apply (proj2 (add_to_pipfile_outcomes (path_join REPO PIPFILE)
                  (repo_world [(PIPFILE, text_file PIPFILE_PLAIN)])
                  PIPFILE_PLAIN (utf8_len PIPFILE_PLAIN) eq_refl)
           [] PIPFILE_HEADER [[]]).
  - reflexivity.
  - reflexivity.
  - constructor.
  - reflexivity.
Defined.

Lemma add_tracker_init_true_shape_witness :
  let p := path_join REPO MAIN_PY in
  let w := repo_world [(MAIN_PY, text_file MAIN_PLAIN)] in
  let w1 := snd (add_tracker_init_to_file p w) in
  add_tracker_init_to_file p w = (Ok true, w1) /\
  exists content size wr out size',
    lookup p (fs w) = Some (File (Some content) size wr) /\
    lookup p (fs w1) = Some (File (Some out) size' true) /\
    In IMPORT_STMT (split_nl out) /\
    (exists k, In (spaces k ++ INIT_CALL) (split_nl out)) /\
    incl (split_nl content) (split_nl out).
Proof.
  cbv zeta. split; [vm_compute; reflexivity|].
  apply (add_tracker_init_true_shape (path_join REPO MAIN_PY)
           (repo_world [(MAIN_PY, text_file MAIN_PLAIN)])).
  vm_compute. reflexivity.
Defined.

Lemma main_function_statement_patched_witness :
  let p := path_join REPO MAIN_PY in
  let w := repo_world [(MAIN_PY, text_file MAIN_FUNCTION)] in
  split_nl MAIN_FUNCTION
  = [py "import os"] ++ DEF_MAIN :: [py "    # start"] ++ py "    run()" :: [[]] /\
  match_def_main (strip DEF_MAIN) = true /\
  exists A B n' size',
    insert_at (import_line_idx (split_nl MAIN_FUNCTION)) IMPORT_STMT
      (split_nl MAIN_FUNCTION)
    = A ++ DEF_MAIN :: [py "    # start"] ++ py "    run()" :: B /\
    add_tracker_init_to_file p w =
    (Ok true, logged INFO (patched_msg p) (set_fs n' w)) /\
    lookup p n' =
    Some (File
            (Some (join_nl
                     (A ++ DEF_MAIN :: [py "    # start"]
                        ++ (spaces (List.length (py "    run()")
                                    - List.length (lstrip (py "    run()")))
                              ++ INIT_CALL) :: py "    run()" :: B)))
            size' true).
Proof.
  cbv zeta. split; [reflexivity|]. split; [reflexivity|].
  apply (main_function_statement_patched (path_join REPO MAIN_PY)
           (repo_world [(MAIN_PY, text_file MAIN_FUNCTION)])
           MAIN_FUNCTION (utf8_len MAIN_FUNCTION)
           [py "import os"] DEF_MAIN [py "    # start"] (py "    run()") [[]]).
  - reflexivity.
  - reflexivity.
  - reflexivity.
  - repeat constructor.
  - repeat constructor.
  - reflexivity.
  - repeat constructor.
  - reflexivity.
Defined.

Lemma call_appended_at_end_witness :
  let p := path_join REPO MAIN_PY in
  let w := repo_world PLAIN_CLONE in
  let content := py "print(1)" ++ [nl] in
  lookup p (fs w) = Some (File (Some content) (utf8_len content) true) /\
  has_import content = false /\
  exists n' size',
    add_tracker_init_to_file p w =
    (Ok true, logged INFO (patched_msg p) (set_fs n' w)) /\
    lookup p n' =
    Some (File
            (Some (join_nl
                     (insert_at (import_line_idx (split_nl content)) IMPORT_STMT
                        (split_nl content)
                        ++ [[]; MARKER_COMMENT; INIT_CALL])))
            size' true).
Proof.
  cbv zeta. split; [reflexivity|]. split; [reflexivity|].
  apply (call_appended_at_end (path_join REPO MAIN_PY) (repo_world PLAIN_CLONE)
           (py "print(1)" ++ [nl]) (utf8_len (py "print(1)" ++ [nl]))).
  - reflexivity.
  - reflexivity.
  - repeat constructor.
  - repeat constructor.
Defined.

Lemma add_initialization_by_name_once_witness :
  let w := repo_world PLAIN_CLONE in
  let w1 := snd (add_initialization REPO w) in
  add_initialization REPO w = (Ok true, w1) /\
  exists w2, add_initialization REPO w1 = (Ok false, w2) /\ fs w2 = fs w1.
Proof.
  cbv zeta. split; [vm_compute; reflexivity|].
  apply (add_initialization_by_name_once REPO (repo_world PLAIN_CLONE)
           (snd (add_initialization REPO (repo_world PLAIN_CLONE)))
           PLAIN_CLONE MAIN_PY true).
  - reflexivity.
  - discriminate.
  - left. left. reflexivity.
  - vm_compute. reflexivity.
Defined.

Lemma nested_clone_no_candidate (name : str) :
  candidate_name name -> assoc name NESTED_CLONE = None.
Proof.
  intros Hc. unfold NESTED_CLONE. cbn [assoc].
  destruct (str_eqb (py "src") name) eqn:H1.
  { apply str_eqb_eq in H1. subst name.
    destruct Hc as [Hin|[Hpy _]]; [|discriminate].
    simpl in Hin. repeat destruct Hin as [Hin|Hin]; try discriminate.
    contradiction. }
  destruct (str_eqb SETUP_PY name) eqn:H2; [|reflexivity].
  apply str_eqb_eq in H2. subst name.
  destruct Hc as [Hin|[_ Hsetup]]; [|discriminate].
  simpl in Hin. repeat destruct Hin as [Hin|Hin]; try discriminate.
  contradiction.
Defined.

Lemma initialization_target_largest_witness :
  let w := repo_world NESTED_CLONE in
  lookup REPO (fs w) = Some (Dir NESTED_CLONE) /\
  exists o n w',
    initialization_target REPO w = (Ok o, w') /\ quiet w w' /\
    (forall dirs file t s wr,
        Forall (fun d => startswith (py ".") d = false) dirs ->
        endswith DOT_PY file = true ->
        lookup (REPO ++ dirs ++ [file]) (fs w) = Some (File t s wr) ->
        (s <= n)%N) /\
    match o with
    | Some p =>
        exists dirs file t wr,
          p = REPO ++ dirs ++ [file] /\
          Forall (fun d => startswith (py ".") d = false) dirs /\
          endswith DOT_PY file = true /\
          lookup p (fs w) = Some (File t n wr) /\ (0 < n)%N
    | None => n = 0%N
    end.
Proof.
  cbv zeta. split; [reflexivity|].
  apply (initialization_target_largest REPO (repo_world NESTED_CLONE)
           NESTED_CLONE eq_refl nested_clone_no_candidate).
Defined.

Lemma readme_clone_no_candidate (name : str) :
  candidate_name name -> assoc name README_CLONE = None.
Proof.
  intros Hc. unfold README_CLONE. cbn [assoc].
  destruct (str_eqb (py "README.md") name) eqn:H1; [|reflexivity].
  apply str_eqb_eq in H1. subst name.
  destruct Hc as [Hin|[Hpy _]]; [|discriminate].
  simpl in Hin. repeat destruct Hin as [Hin|Hin]; try discriminate.
  contradiction.
Defined.

Lemma readme_clone_no_python (dirs : list str) (file : str)
  (t : option str) (s : N) (wr : bool) :
  Forall (fun d => startswith (py ".") d = false) dirs ->
  endswith DOT_PY file = true ->
  lookup (REPO ++ dirs ++ [file]) (fs (repo_world README_CLONE))
  = Some (File t s wr) ->
  s = 0%N.
Proof.
  intros _ Hpy. rewrite lookup_app.
  change (lookup REPO (fs (repo_world README_CLONE)))
    with (Some (Dir README_CLONE)).
  cbv iota. destruct dirs as [|d dirs]; cbn [app lookup README_CLONE assoc].
  - destruct (str_eqb (py "README.md") file) eqn:H1; [|discriminate].
    apply str_eqb_eq in H1. subst file. discriminate.
  - destruct (str_eqb (py "README.md") d); [|discriminate].
    destruct dirs; discriminate.
Defined.

Lemma add_initialization_creates_main_witness :
  let w := repo_world README_CLONE in
  lookup REPO (fs w) = Some (Dir README_CLONE) /\
  exists n',
    add_initialization REPO w =
    (Ok true, logged INFO created_msg (set_fs n' w)) /\
    lookup (path_join REPO MAIN_PY) n' = Some (text_file NEW_MAIN_PY) /\
    has_import NEW_MAIN_PY = true /\
    (forall q, apart (path_join REPO MAIN_PY) q ->
               lookup q n' = lookup q (fs w)) /\
    add_initialization REPO (logged INFO created_msg (set_fs n' w)) =
    (Ok false, logged INFO created_msg (set_fs n' w)).
Proof.
  cbv zeta. split; [reflexivity|].
  apply (add_initialization_creates_main REPO (repo_world README_CLONE)
           README_CLONE eq_refl readme_clone_no_candidate
           readme_clone_no_python).
Defined.

Lemma add_initialization_never_raises_witness :
  let w := repo_world UNREADABLE_MAIN_CLONE in
  lookup REPO (fs w) = Some (Dir UNREADABLE_MAIN_CLONE) /\
  lookup (path_join REPO MAIN_PY) (fs w) = Some (File None 3 true) /\
  exists changed w', add_initialization REPO w = (Ok changed, w').
Proof.
  cbv zeta. split; [reflexivity|]. split; [reflexivity|].
  apply (add_initialization_never_raises REPO
           (repo_world UNREADABLE_MAIN_CLONE) UNREADABLE_MAIN_CLONE eq_refl).
  intros _. discriminate.
Defined.

Lemma add_dependency_failure_untouched_witness :
  let w := repo_world UNREADABLE_REQUIREMENTS_CLONE in
  let e := Exception "UnicodeDecodeError"
             (path_str (path_join REPO REQUIREMENTS_TXT)) in
  fst (add_dependency REPO w) = Raise e /\ snd (add_dependency REPO w) = w.
Proof.
  cbv zeta. split; [reflexivity|].
  apply (add_dependency_failure_untouched REPO
           (repo_world UNREADABLE_REQUIREMENTS_CLONE)
           (snd (add_dependency REPO (repo_world UNREADABLE_REQUIREMENTS_CLONE)))
           (Exception "UnicodeDecodeError"
              (path_str (path_join REPO REQUIREMENTS_TXT)))).
  reflexivity.
Defined.

Lemma tracked_clone_manifests (name : str) (n : node) :
  In name [REQUIREMENTS_TXT; PYPROJECT_TOML; SETUP_PY; PIPFILE] ->
  assoc name TRACKED_CLONE = Some n ->
  exists content size, n = File (Some content) size true.
Proof.
  intros [<-|[<-|[<-|[<-|[]]]]]; vm_compute; intros [= <-]; eauto.
Defined.

Lemma add_dependency_never_raises_witness :
  let w := repo_world TRACKED_CLONE in
  lookup REPO (fs w) = Some (Dir TRACKED_CLONE) /\
  exists changed w', add_dependency REPO w = (Ok changed, w').
Proof.
  cbv zeta. split; [reflexivity|].
  apply (add_dependency_never_raises REPO (repo_world TRACKED_CLONE)
           TRACKED_CLONE eq_refl tracked_clone_manifests).
Defined.

Lemma create_pull_request_needs_owner_witness :
  contains [slash]
    (replace DOT_GIT [] (strip_slash (urlparse_path demo_api URL_NO_OWNER)))
  = false /\
  exists msg,
    create_pull_request demo_api URL_NO_OWNER BRANCH_NAME empty_world =
    (Raise (Exception "ValueError" msg),
     logged ERROR (py "Failed to create pull request: " ++ msg) empty_world).
Proof.
  split; [reflexivity|].
  apply (create_pull_request_needs_owner demo_api URL_NO_OWNER BRANCH_NAME
           empty_world eq_refl).
Defined.
